(** * PaperPilot: the chunker, the per-document vector index and the
      retrieval-augmented generator, embedded in Rocq.

    The Python sources are embedded shallowly.  A [str] is a [string]
    whose characters are the code points below 256; a Python [int] is a
    [Z]; a [dict] used as a map is a [gmap]; code that mutates service
    state or raises is written in a state-and-exception monad. *)

From Stdlib Require Import String Ascii ZArith List Bool Lia.
From stdpp Require Import gmap strings pretty.
Import ListNotations.

Open Scope string_scope.
Open Scope list_scope.
Open Scope Z_scope.

(** ** Python string primitives *)

Module Py.

(** [str.isspace] on one character (and the class [\s] of [re] on [str]
    patterns): tab to carriage return, the four separators 0x1c-0x1f,
    space, NEL and the no-break space. *)
Definition isspace (c : ascii) : bool :=
  let n := nat_of_ascii c in
  ((9 <=? n)%nat && (n <=? 13)%nat) || ((28 <=? n)%nat && (n <=? 32)%nat)
  || (n =? 133)%nat || (n =? 160)%nat.

(** [len(s)] *)
Definition len (s : string) : Z := Z.of_nat (String.length s).

(** Truth value of a [str]: the empty string is false. *)
Definition truthy (s : string) : bool := negb (String.eqb s "").

Fixpoint lstrip (s : string) : string :=
  match s with
  | EmptyString => EmptyString
  | String c s' => if isspace c then lstrip s' else s
  end.

Fixpoint rstrip (s : string) : string :=
  match s with
  | EmptyString => EmptyString
  | String c s' =>
      match rstrip s' with
      | EmptyString => if isspace c then EmptyString else String c EmptyString
      | r => String c r
      end
  end.

(** [s.strip()] *)
Definition strip (s : string) : string := rstrip (lstrip s).

Fixpoint str_take (n : nat) (s : string) : string :=
  match n, s with
  | S n', String c s' => String c (str_take n' s')
  | _, _ => EmptyString
  end.

Fixpoint str_drop (n : nat) (s : string) : string :=
  match n, s with
  | S n', String _ s' => str_drop n' s'
  | _, _ => s
  end.

(** [s[start:]]: a negative [start] counts from the end, and both ends
    are clamped to the string. *)
Definition slice_from (start : Z) (s : string) : string :=
  if start <? 0 then str_drop (Z.to_nat (len s + start)) s
  else str_drop (Z.to_nat start) s.

(** [s[:stop]] *)
Definition slice_to (stop : Z) (s : string) : string :=
  if stop <? 0 then str_take (Z.to_nat (len s + stop)) s
  else str_take (Z.to_nat stop) s.

Definition nl : ascii := ascii_of_nat 10.

(** The separator of paragraphs, two line feeds. *)
Definition blank_line : string := String nl (String nl EmptyString).

(** Put a character in front of the piece under construction. *)
Definition push (c : ascii) (pieces : list string) : list string :=
  match pieces with
  | [] => [String c EmptyString]
  | p :: ps => String c p :: ps
  end.

(** [s.split("\n\n")]: the occurrences of the separator are taken from
    the left and do not overlap; the result is never empty. *)
Fixpoint split_blank_line (s : string) : list string :=
  match s with
  | EmptyString => [EmptyString]
  | String c1 rest =>
      match rest with
      | String c2 rest' =>
          if Ascii.eqb c1 nl && Ascii.eqb c2 nl
          then EmptyString :: split_blank_line rest'
          else push c1 (split_blank_line rest)
      | EmptyString => push c1 (split_blank_line rest)
      end
  end.

(** The lookbehind class [[.!?]]. *)
Definition is_terminator (c : ascii) : bool :=
  Ascii.eqb c "." || Ascii.eqb c "!" || Ascii.eqb c "?".

(** Where the scan of [re.split] stands: after an ordinary character,
    right after a terminator, or inside a separator being consumed. *)
Inductive scan_state : Type := Plain | AfterTerminator | InSeparator.

(** [re.split(r'(?<=[.!?])\s+', s)], scanning from the left: a separator
    starts at a whitespace character that follows a terminator and
    greedily takes the whole run of whitespace. *)
Fixpoint re_split_scan (st : scan_state) (s : string) : list string :=
  match s with
  | EmptyString => [EmptyString]
  | String c rest =>
      if isspace c then
        match st with
        | Plain => push c (re_split_scan Plain rest)
        | AfterTerminator => EmptyString :: re_split_scan InSeparator rest
        | InSeparator => re_split_scan InSeparator rest
        end
      else
        push c (re_split_scan (if is_terminator c then AfterTerminator else Plain) rest)
  end.

Definition re_split_sentences (s : string) : list string := re_split_scan Plain s.

End Py.

(** ** services/pdf_processor.py: [PDFProcessor] *)

Module PDFProcessor.
Import Py.

(** A [PDFProcessor] has no fields. *)
Record PDFProcessor : Type := { }.

(** [_split_sentences]: the pieces of the regular-expression split,
    stripped, without those that are blank. *)
Definition _split_sentences (text : string) : list string :=
  map strip (List.filter (fun s => truthy (strip s)) (re_split_sentences text)).

(** One turn of the paragraph loop on [(chunks, current_chunk)]. *)
Definition paragraph_step (chunk_size chunk_overlap : Z)
    (st : list string * string) (para : string) : list string * string :=
  let '(chunks, current_chunk) := st in
  let para := strip para in
  if negb (truthy para) then st
  else if truthy current_chunk && (len current_chunk + len para >? chunk_size) then
    let chunks := chunks ++ [strip current_chunk] in
    if (chunk_overlap >? 0) && truthy current_chunk then
      let overlap_text := slice_from (- chunk_overlap) current_chunk in
      (chunks, overlap_text +:+ blank_line +:+ para)
    else (chunks, para)
  else if truthy current_chunk then (chunks, current_chunk +:+ blank_line +:+ para)
  else (chunks, para).

(** The first stage of [chunk_text]: the list [chunks] once the last
    buffer has been added. *)
Definition paragraph_chunks (text : string) (chunk_size chunk_overlap : Z)
    : list string :=
  let paragraphs := split_blank_line text in
  let '(chunks, current_chunk) :=
    fold_left (paragraph_step chunk_size chunk_overlap) paragraphs ([], "") in
  if truthy (strip current_chunk) then chunks ++ [strip current_chunk] else chunks.

(** One turn of the sentence loop on [(final_chunks, temp_chunk)]. *)
Definition sentence_step (chunk_size : Z)
    (st : list string * string) (sentence : string) : list string * string :=
  let '(final_chunks, temp_chunk) := st in
  if truthy temp_chunk && (len temp_chunk + len sentence >? chunk_size) then
    (final_chunks ++ [strip temp_chunk], sentence)
  else
    (final_chunks, temp_chunk +:+ (if truthy temp_chunk then " " else "") +:+ sentence).

(** One turn of the loop over [chunks] on [final_chunks]. *)
Definition chunk_step (chunk_size : Z)
    (final_chunks : list string) (chunk : string) : list string :=
  if len chunk <=? chunk_size then final_chunks ++ [chunk]
  else
    let sentences := _split_sentences chunk in
    let '(final_chunks, temp_chunk) :=
      fold_left (sentence_step chunk_size) sentences (final_chunks, "") in
    if truthy (strip temp_chunk) then final_chunks ++ [strip temp_chunk]
    else final_chunks.

Definition chunk_text (text : string) (chunk_size chunk_overlap : Z) : list string :=
  if negb (truthy text) || negb (truthy (strip text)) then []
  else
    let chunks := paragraph_chunks text chunk_size chunk_overlap in
    fold_left (chunk_step chunk_size) chunks [].

(** The defaults of [chunk_text]. *)
Definition default_chunk_size : Z := 1000.
Definition default_chunk_overlap : Z := 200.

End PDFProcessor.


(** ** models/schemas.py *)

Module Schemas.

Inductive ExplanationLevel : Type := BEGINNER | STUDENT | RESEARCHER.

Record ChatMessage : Type := { role : string; content : string }.

Record DocumentUploadResponse : Type := {
  document_id : string;
  filename : string;
  pages : Z;
  chunks : Z;
  message : string
}.

(** The body of a chat request; [explanation_level] is [STUDENT] and
    [chat_history] is [None] when the caller leaves them out. *)
Record ChatRequest : Type := {
  req_document_id : string;
  req_question : string;
  req_explanation_level : ExplanationLevel;
  req_chat_history : option (list ChatMessage)
}.

Record ChatResponse : Type := {
  resp_answer : string;
  resp_sources : list string;
  resp_document_id : string
}.

End Schemas.

(** ** Exceptions and the monad of the services *)

Module Effects.

(** What the handlers tell apart: an [HTTPException] with its status and
    detail, and any other exception, kept by its [str()]. *)
Inductive Exception : Type :=
  | HTTPException (status_code : Z) (detail : string)
  | Error (msg : string).

Definition exc_str (e : Exception) : string :=
  match e with
  | HTTPException _ detail => detail
  | Error msg => msg
  end.

Inductive result (A : Type) : Type :=
  | Ok (a : A)
  | Raise (e : Exception).
Arguments Ok {A} a.
Arguments Raise {A} e.

(** A value in a [dict] of metadata. *)
Inductive PyVal : Type := PyInt (z : Z) | PyStr (s : string).

Definition val_truthy (v : PyVal) : bool :=
  match v with
  | PyInt z => negb (z =? 0)
  | PyStr s => Py.truthy s
  end.

Definition val_str (v : PyVal) : string :=
  match v with
  | PyInt z => pretty z
  | PyStr s => s
  end.

(** The embedding model, an external collaborator: [encode]. *)
Class Embedder : Type := {
  embedding : Type;
  encode : string -> embedding
}.

(** A row of a collection: id, vector, text and metadata. *)
Record Entry `{Embedder} : Type := {
  entry_id : string;
  entry_embedding : embedding;
  entry_document : string;
  entry_metadata : gmap string PyVal
}.

(** The database engine behind the [chromadb] client, an external
    collaborator.  [name_error] is its check of the name of a new
    collection: [None] for a name it accepts, the message of the error
    it raises for a name it refuses; which names and which message are
    those of the version installed.  [nearest] is its similarity search:
    the rows of a collection ranked for a query vector, nearest first,
    each with its distance. *)
Class Engine `{Embedder} : Type := {
  distance : Type;
  name_error : string -> option string;
  nearest : embedding -> list Entry -> list (Entry * distance)
}.

Record Message : Type := { msg_role : string; msg_content : string }.

(** The float literals of the generation request, as exact decimals. *)
Record Decimal : Type := { digits : Z; scale : nat }.

(** One request of [client.chat.completions.create]. *)
Record Call : Type := {
  call_model : string;
  call_messages : list Message;
  call_temperature : Decimal;
  call_max_tokens : Z;
  call_top_p : Decimal
}.

(** The LLM provider, an external collaborator: what a request answers
    (the content of the first choice, or a failure), given the requests
    made before it. *)
Class LLM : Type := {
  complete : list Call -> Call -> result string
}.

(** A collection of the database: its metadata and its rows. *)
Record Collection `{Embedder} : Type := {
  coll_metadata : gmap string string;
  coll_entries : list Entry
}.

(** A [chromadb.Collection] object: it names the collection it reads
    and writes. *)
Record Handle : Type := { handle_name : string }.

(** The state the services share: the collections of the persistent
    client, the dictionary [VectorStore.collections], and the requests
    sent to the LLM provider so far. *)
Record State `{Embedder} : Type := {
  chroma : gmap string Collection;
  collections : gmap string Handle;
  llm_log : list Call
}.

Section Monad.
Context {emb : Embedder}.

Definition M (A : Type) : Type := State -> result A * State.

Definition ret {A : Type} (a : A) : M A := fun st => (Ok a, st).

Definition raise {A : Type} (e : Exception) : M A := fun st => (Raise e, st).

Definition bind {A B : Type} (m : M A) (k : A -> M B) : M B :=
  fun st =>
    match m st with
    | (Ok a, st') => k a st'
    | (Raise e, st') => (Raise e, st')
    end.

(** [try: m  except Exception as e: h e] *)
Definition try_except {A : Type} (m : M A) (h : Exception -> M A) : M A :=
  fun st =>
    match m st with
    | (Ok a, st') => (Ok a, st')
    | (Raise e, st') => h e st'
    end.

Definition get_state : M State := fun st => (Ok st, st).

Definition put_state (st' : State) : M unit := fun _ => (Ok tt, st').

End Monad.

Notation "'let*' x ':=' m 'in' k" := (bind m (fun x => k))
  (at level 10, x name, m at level 100, k at level 200).
Notation "m ';;' k" := (bind m (fun _ => k))
  (at level 100, k at level 200, right associativity).

End Effects.

(** ** services/pdf_processor.py: [PDFProcessor.extract_text] *)

Module PDFText.
Import Py Effects.

(** PyMuPDF, an external collaborator: opening the file gives the text
    of each page, in order, or fails.  A failure while a page is read
    is a failure of the whole, as all of it runs in one [try]. *)
Class Fitz : Type := {
  fitz_open : string -> result (list string)
}.

(** What the page [page_num] (from 0) adds to [full_text]: nothing when
    its text is blank, else the text under its page marker. *)
Definition page_block (page_num : nat) (text : string) : list string :=
  if truthy (strip text) then
    ["[Page " +:+ pretty (page_num + 1)%nat +:+ "]" +:+ String nl text]
  else [].

Definition extract_text `{Fitz} (pdf_path : string) : result (string * Z) :=
  match fitz_open pdf_path with
  | Ok doc =>
      let page_count := length doc in
      let full_text :=
        flat_map (fun p => page_block (fst p) (snd p))
                 (combine (seq 0 page_count) doc) in
      let combined_text := String.concat blank_line full_text in
      Ok (combined_text, Z.of_nat page_count)
  | Raise e => Raise (Error ("Failed to process PDF: " +:+ exc_str e))
  end.

End PDFText.

(** ** rag/vector_store.py: [VectorStore] *)

Module VectorStore.
Import Effects.

Section VectorStore.
Context {emb : Embedder} {eng : Engine}.

Definition set_chroma (st : State) (c : gmap string Collection) : State :=
  {| chroma := c; collections := collections st; llm_log := llm_log st |}.

Definition set_collections (st : State) (c : gmap string Handle) : State :=
  {| chroma := chroma st; collections := c; llm_log := llm_log st |}.

(** *** The database client and its collection objects

    The store calls the [chromadb] client, an external collaborator:
    a collection per name, looked up, created and deleted by name, with
    rows added and queried inside it.  Each operation is given with the
    checks the client makes before it touches the database. *)

(** [client.get_collection(name=)]: it raises when the name is
    unknown. *)
Definition client_get_collection (name : string) : M Handle :=
  fun st =>
    match chroma st !! name with
    | Some _ => (Ok {| handle_name := name |}, st)
    | None => (Raise (Error ("Collection " +:+ name +:+ " does not exist.")), st)
    end.

(** [client.create_collection(name=, metadata=)]: it raises for a name
    the engine refuses and for a name that is taken, and stores an
    empty collection otherwise. *)
Definition client_create_collection (name : string) (metadata : gmap string string)
    : M Handle :=
  fun st =>
    match name_error name with
    | Some msg => (Raise (Error msg), st)
    | None =>
        match chroma st !! name with
        | Some _ => (Raise (Error ("Collection " +:+ name +:+ " already exists.")), st)
        | None =>
            (Ok {| handle_name := name |},
             set_chroma st
               (<[name := {| coll_metadata := metadata; coll_entries := [] |}]>
                  (chroma st)))
        end
    end.

(** [client.delete_collection(name=)]: it raises when the name is
    unknown. *)
Definition client_delete_collection (name : string) : M unit :=
  fun st =>
    match chroma st !! name with
    | Some _ => (Ok tt, set_chroma st (delete name (chroma st)))
    | None => (Raise (Error ("Collection " +:+ name +:+ " does not exist.")), st)
    end.

(** The rows a collection object reads; the object is of no use once
    its collection was deleted. *)
Definition collection_entries (collection : Handle) : M (list Entry) :=
  fun st =>
    match chroma st !! handle_name collection with
    | Some c => (Ok (coll_entries c), st)
    | None =>
        (Raise (Error ("Collection " +:+ handle_name collection +:+ " does not exist.")), st)
    end.

(** [collection.count()]. *)
Definition collection_count (collection : Handle) : M Z :=
  let* entries := collection_entries collection in
  ret (Z.of_nat (length entries)).

(** The four parallel lists of [collection.add] as rows; [None] when
    their lengths differ. *)
Fixpoint zip_entries (ids : list string) (embeddings : list embedding)
    (documents : list string) (metadatas : list (gmap string PyVal))
    : option (list Entry) :=
  match ids, embeddings, documents, metadatas with
  | [], [], [], [] => Some []
  | i :: ids', e :: embeddings', d :: documents', m :: metadatas' =>
      match zip_entries ids' embeddings' documents' metadatas' with
      | Some rows =>
          Some ({| entry_id := i; entry_embedding := e;
                   entry_document := d; entry_metadata := m |} :: rows)
      | None => None
      end
  | _, _, _, _ => None
  end.

(** No id occurs twice in [ids]. *)
Fixpoint distinct (ids : list string) : bool :=
  match ids with
  | [] => true
  | i :: rest => negb (existsb (String.eqb i) rest) && distinct rest
  end.

(** A row with the id [i] is among [entries]. *)
Definition has_id (entries : list Entry) (i : string) : bool :=
  existsb (fun r => String.eqb (entry_id r) i) entries.

(** [collection.add(embeddings=, documents=, metadatas=, ids=)]: the
    client refuses lists of unequal lengths and a list of ids with a
    repetition (its messages are kept short here; [add_documents] gives
    it lists of one length and ids that differ by their index); of the
    rows given, those whose id the collection holds already are left
    out, and the others are stored after the rows already there. *)
Definition collection_add (collection : Handle) (embeddings : list embedding)
    (documents : list string) (metadatas : list (gmap string PyVal))
    (ids : list string) : M unit :=
  match zip_entries ids embeddings documents metadatas with
  | None => raise (Error "Unequal lengths for fields of the added records")
  | Some rows =>
      if distinct ids then
        let* entries := collection_entries collection in
        let added := List.filter (fun r => negb (has_id entries (entry_id r))) rows in
        fun st =>
          (Ok tt,
           set_chroma st
             (alter (fun c => {| coll_metadata := coll_metadata c;
                                 coll_entries := entries ++ added |})
                    (handle_name collection) (chroma st)))
      else raise (Error "Expected IDs to be unique")
  end.

(** The [TypeError] of the client for a number of results that is not
    positive. *)
Definition n_results_error (n_results : Z) : Exception :=
  Error ("Number of requested results " +:+ pretty n_results
         +:+ ", cannot be negative, or zero.").

(** [collection.query(query_embeddings=[q], n_results=n)]: the client
    raises unless [n] is positive, and answers with the [n] nearest
    rows and their distances otherwise. *)
Definition collection_query (collection : Handle) (query_embedding : embedding)
    (n_results : Z) : M (list (Entry * distance)) :=
  if n_results <=? 0 then raise (n_results_error n_results)
  else
    let* entries := collection_entries collection in
    ret (firstn (Z.to_nat n_results) (nearest query_embedding entries)).

(** *** The methods of [VectorStore] *)

Definition create_collection (document_id : string) : M Handle :=
  let* st := get_state in
  match collections st !! document_id with
  | Some collection => ret collection
  | None =>
      let* collection :=
        try_except (client_get_collection document_id)
          (fun _ =>
             client_create_collection document_id
               {[ "document_id" := document_id ]}) in
      let* st := get_state in
      put_state (set_collections st (<[document_id := collection]> (collections st)));;
      ret collection
  end.

Definition add_documents (document_id : string) (chunks : list string)
    (metadatas : option (list (gmap string PyVal))) : M unit :=
  match chunks with
  | [] => ret tt
  | _ =>
      let* collection := create_collection document_id in
      let embeddings := map encode chunks in
      let ids :=
        map (fun i : nat => document_id +:+ "_chunk_" +:+ pretty i)
            (seq 0 (length chunks)) in
      let metadatas :=
        match metadatas with
        | Some ms => ms
        | None =>
            map (fun i : nat =>
                   ({[ "chunk_index" := PyInt (Z.of_nat i);
                       "document_id" := PyStr document_id ]} : gmap string PyVal))
                (seq 0 (length chunks))
        end in
      collection_add collection embeddings chunks metadatas ids
  end.

(** An element of the list [search] returns. *)
Record Chunk : Type := {
  chunk_content : string;
  chunk_score : option distance;
  chunk_metadata : gmap string PyVal
}.

(** The dictionary made of one result of the query. *)
Definition format_result (r : Entry * distance) : Chunk :=
  {| chunk_content := entry_document (fst r);
     chunk_score := Some (snd r);
     chunk_metadata := entry_metadata (fst r) |}.

Definition search (document_id : string) (query : string) (top_k : Z)
    : M (list Chunk) :=
  let* found :=
    try_except
      (let* collection := create_collection document_id in ret (Some collection))
      (fun _ => ret None) in
  match found with
  | None => ret []
  | Some collection =>
      let query_embedding := encode query in
      let* count := collection_count collection in
      let* results := collection_query collection query_embedding (Z.min top_k count) in
      let formatted_results :=
        if 0 <? Z.of_nat (length results) then map format_result results
        else [] in
      ret formatted_results
  end.

Definition delete_document (document_id : string) : M bool :=
  try_except
    (let* st := get_state in
     (match collections st !! document_id with
      | Some _ => put_state (set_collections st (delete document_id (collections st)))
      | None => ret tt
      end);;
     client_delete_collection document_id;;
     ret true)
    (fun _ => ret false).

End VectorStore.
End VectorStore.

(** ** rag/groq_service.py: [GroqService] *)

Module GroqService.
Import Effects Schemas.

(** The primary model and the fallback model, as [__init__] sets them. *)
Definition model : string := "llama-3.3-70b-versatile".
Definition fallback_model : string := "llama-3.1-8b-instant".

Definition dquote : string := String (ascii_of_nat 34) EmptyString.

Definition base_prompt : string :=
"You are an expert AI research paper explainer assistant. Your role is to help users understand research papers by providing accurate, well-structured explanations based ONLY on the provided context from the paper.

CRITICAL RULES:
1. ONLY use information from the provided context chunks. Do NOT make up or hallucinate information.
2. If the context doesn't contain enough information to answer a question, clearly state that the information is not available in the provided context.
3. Always cite specific sections or pages when possible using references from the context.
4. Be precise and accurate - maintain academic rigor.
5. If you're unsure about something, say so rather than guessing.
".

Definition level_specific (explanation_level : ExplanationLevel) : string :=
  match explanation_level with
  | BEGINNER =>
"
EXPLANATION STYLE: BEGINNER LEVEL
- Use simple, everyday language
- Avoid jargon or explain it when necessary
- Use analogies and examples
- Break down complex concepts into smaller parts
- Focus on " +:+ dquote +:+ "what" +:+ dquote +:+ " and " +:+ dquote +:+ "why" +:+ dquote +:+ " rather than technical details
- Make it accessible to someone with no background in the field
"
  | STUDENT =>
"
EXPLANATION STYLE: STUDENT LEVEL
- Use appropriate academic terminology but define key terms
- Provide context and background when needed
- Explain methodology and approach
- Connect concepts to broader knowledge
- Suitable for undergraduate or graduate students
- Balance simplicity with technical accuracy
"
  | RESEARCHER =>
"
EXPLANATION STYLE: RESEARCHER LEVEL
- Use precise technical and academic terminology
- Assume familiarity with the field
- Focus on methodology, implementation details, and technical nuances
- Discuss implications, limitations, and connections to other work
- Provide implementation insights and technical details
- Suitable for researchers and practitioners in the field
"
  end.

Definition _get_system_prompt (explanation_level : ExplanationLevel) : string :=
  base_prompt +:+ level_specific explanation_level.

(** The generation parameters of both requests. *)
Definition temperature : Decimal := {| digits := 3; scale := 1 |}.
Definition max_tokens : Z := 2048.
Definition top_p : Decimal := {| digits := 9; scale := 1 |}.

Section GroqService.
Context {emb : Embedder} {eng : Engine} {llm : LLM}.

(** The lines one retrieved chunk adds to the context, [i] counting
    from 1. *)
Definition context_lines (i : nat) (chunk : VectorStore.Chunk) : list string :=
  let content := VectorStore.chunk_content chunk in
  let metadata := VectorStore.chunk_metadata chunk in
  let page_info := default (PyStr "") (metadata !! "page") in
  ["[Context " +:+ pretty i +:+ "]"]
  ++ (if val_truthy page_info then ["Source: " +:+ val_str page_info] else [])
  ++ [content; ""].

Definition _format_context (chunks : list VectorStore.Chunk) : string :=
  match chunks with
  | [] => "No relevant context found."
  | _ =>
      let context_parts :=
        flat_map (fun ic => context_lines (fst ic) (snd ic))
                 (combine (seq 1 (length chunks)) chunks) in
      String.concat (String Py.nl EmptyString) context_parts
  end.

(** [l[-n:]] on a list, for a positive [n]. *)
Definition list_last {A : Type} (n : nat) (l : list A) : list A :=
  skipn (length l - n) l.

(** The entry a turn of the history adds; a missing key takes its
    default. *)
Definition history_message (msg : gmap string string) : Message :=
  {| msg_role := default "user" (msg !! "role");
     msg_content := default "" (msg !! "content") |}.

Definition user_message (context question : string) : string :=
"Based on the following context from a research paper, please answer the question.

CONTEXT FROM PAPER:
" +:+ context +:+ "

QUESTION: " +:+ question +:+ "

Please provide a clear, accurate answer based only on the context provided above.".

(** The list [messages] that [generate_answer] builds: the system
    prompt, the last five turns of the history, the user turn. *)
Definition build_messages (question : string)
    (context_chunks : list VectorStore.Chunk) (explanation_level : ExplanationLevel)
    (chat_history : option (list (gmap string string))) : list Message :=
  let context := _format_context context_chunks in
  let system_prompt := _get_system_prompt explanation_level in
  let messages := [{| msg_role := "system"; msg_content := system_prompt |}] in
  let messages :=
    match chat_history with
    | Some ((_ :: _) as history) => messages ++ map history_message (list_last 5 history)
    | _ => messages
    end in
  messages ++ [{| msg_role := "user"; msg_content := user_message context question |}].

Definition request (model_name : string) (messages : list Message) : Call :=
  {| call_model := model_name; call_messages := messages;
     call_temperature := temperature; call_max_tokens := max_tokens;
     call_top_p := top_p |}.

(** [self.client.chat.completions.create(...)] followed by the read of
    [response.choices[0].message.content]: the request is recorded and
    the provider answers or fails. *)
Definition chat_completions_create (model_name : string) (messages : list Message)
    : M string :=
  fun st =>
    let call := request model_name messages in
    (complete (llm_log st) call,
     {| chroma := chroma st; collections := collections st;
        llm_log := llm_log st ++ [call] |}).

Definition generate_answer (question : string)
    (context_chunks : list VectorStore.Chunk) (explanation_level : ExplanationLevel)
    (chat_history : option (list (gmap string string))) : M string :=
  let messages := build_messages question context_chunks explanation_level chat_history in
  try_except
    (chat_completions_create model messages)
    (fun e =>
       let failure := Error ("Failed to generate answer: " +:+ exc_str e) in
       if negb (String.eqb model fallback_model) then
         try_except
           (chat_completions_create fallback_model messages)
           (fun fallback_error => raise failure)
       else raise failure).

End GroqService.
End GroqService.

(** ** services/rag_service.py: [RAGService] *)

Module RAGService.
Import Effects Schemas.

(** The field of a [RAGService] that is not a service handle. *)
Record RAGService : Type := { top_k : Z }.

(** The dictionary [query] returns. *)
Record QueryResult : Type := { answer : string; sources : list string }.

Definition no_relevant_information : string :=
  "I couldn't find relevant information in the document to answer your question. Please try rephrasing or asking about a different aspect of the paper.".

Section RAGService.
Context {emb : Embedder} {eng : Engine} {llm : LLM}.

Definition add_document (self : RAGService) (document_id : string)
    (chunks : list string) : M unit :=
  VectorStore.add_documents document_id chunks None.

(** The snippet shown for one retrieved chunk. *)
Definition source_of (chunk : VectorStore.Chunk) : string :=
  Py.slice_to 200 (VectorStore.chunk_content chunk) +:+ "...".

(** The dictionary made of one turn of the history. *)
Definition message_dict (msg : ChatMessage) : gmap string string :=
  {[ "role" := role msg; "content" := content msg ]}.

(** [history_dict]: [None] unless the caller gave a history with at
    least one turn. *)
Definition history_dict (chat_history : option (list ChatMessage))
    : option (list (gmap string string)) :=
  match chat_history with
  | Some ((_ :: _) as history) => Some (map message_dict history)
  | _ => None
  end.

Definition query (self : RAGService) (document_id : string) (question : string)
    (explanation_level : ExplanationLevel) (chat_history : option (list ChatMessage))
    : M QueryResult :=
  let* relevant_chunks := VectorStore.search document_id question (top_k self) in
  match relevant_chunks with
  | [] => ret {| answer := no_relevant_information; sources := [] |}
  | _ =>
      let* answer :=
        GroqService.generate_answer question relevant_chunks explanation_level
          (history_dict chat_history) in
      let sources := map source_of (firstn 3 relevant_chunks) in
      ret {| answer := answer; sources := sources |}
  end.

Definition delete_document (self : RAGService) (document_id : string) : M bool :=
  VectorStore.delete_document document_id.

End RAGService.
End RAGService.

(** ** api/endpoints.py *)

Module Endpoints.
Import Effects Schemas.

Definition MAX_FILE_SIZE : Z := 50 * 1024 * 1024.

(** What the handler reads of an [UploadFile]: its name and its bytes. *)
Record UploadFile : Type := { file_name : option string; file_content : string }.

(** [str.lower()] on one code point below 256. *)
Definition lower_char (c : ascii) : ascii :=
  let n := nat_of_ascii c in
  if ((65 <=? n)%nat && (n <=? 90)%nat)
     || ((192 <=? n)%nat && (n <=? 222)%nat && negb (n =? 215)%nat)
  then ascii_of_nat (n + 32) else c.

Fixpoint lower (s : string) : string :=
  match s with
  | EmptyString => EmptyString
  | String c s' => String (lower_char c) (lower s')
  end.

(** [s.endswith(suffix)] *)
Definition endswith (s suffix : string) : bool :=
  (String.length suffix <=? String.length s)%nat
  && String.eqb (Py.str_drop (String.length s - String.length suffix) s) suffix.

(** The text extraction of [PDFProcessor.extract_text], which reads the
    file with PyMuPDF: the text and the page count, or a failure. *)
Class Extractor : Type := {
  extract_text : string -> result (string * Z)
}.

Section Endpoints.
Context {emb : Embedder} {eng : Engine} {llm : LLM} {ext : Extractor}.

(** [upload_document]; [document_id] is the UUID drawn for the request.
    The temporary file, written before the extraction and removed in
    the [finally] clause, is not part of the state. *)
Definition upload_document (pdf_processor : option PDFProcessor.PDFProcessor)
    (rag_service : option RAGService.RAGService) (file : UploadFile)
    (document_id : string) : M DocumentUploadResponse :=
  match pdf_processor, rag_service with
  | Some _, Some rag =>
      match file_name file with
      | Some name =>
          if Py.truthy name && endswith (lower name) ".pdf" then
            if Py.len (file_content file) >? MAX_FILE_SIZE then
              raise (HTTPException 400
                       "File size exceeds maximum allowed size of 50.0MB")
            else
              try_except
                (let* extracted := (fun st => (extract_text (file_content file), st)) in
                 let text := fst extracted in
                 let page_count := snd extracted in
                 if negb (Py.truthy text) || negb (Py.truthy (Py.strip text)) then
                   raise (HTTPException 400
                            "Could not extract text from PDF. Please ensure the PDF contains readable text.")
                 else
                   let chunks :=
                     PDFProcessor.chunk_text text PDFProcessor.default_chunk_size
                       PDFProcessor.default_chunk_overlap in
                   match chunks with
                   | [] => raise (HTTPException 500 "Failed to chunk document text")
                   | _ =>
                       RAGService.add_document rag document_id chunks;;
                       ret {| document_id := document_id;
                              filename := name;
                              pages := page_count;
                              chunks := Z.of_nat (length chunks);
                              message := "Document processed successfully" |}
                   end)
                (fun e =>
                   match e with
                   | HTTPException _ _ => raise e
                   | Error msg =>
                       raise (HTTPException 500 ("Failed to process document: " +:+ msg))
                   end)
          else raise (HTTPException 400 "Only PDF files are supported")
      | None => raise (HTTPException 400 "Only PDF files are supported")
      end
  | _, _ => raise (HTTPException 500 "Service not initialized")
  end.

(** [chat].  [query] raises no [HTTPException], so the [str] of the
    exception caught is its message. *)
Definition chat (rag_service : option RAGService.RAGService) (request : ChatRequest)
    : M ChatResponse :=
  match rag_service with
  | None => raise (HTTPException 500 "Service not initialized")
  | Some rag =>
      if negb (Py.truthy (req_question request))
         || negb (Py.truthy (Py.strip (req_question request))) then
        raise (HTTPException 400 "Question cannot be empty")
      else if negb (Py.truthy (req_document_id request)) then
        raise (HTTPException 400 "Document ID is required")
      else
        try_except
          (let* result :=
             RAGService.query rag (req_document_id request) (req_question request)
               (req_explanation_level request) (req_chat_history request) in
           ret {| resp_answer := RAGService.answer result;
                  resp_sources := RAGService.sources result;
                  resp_document_id := req_document_id request |})
          (fun e =>
             raise (HTTPException 500 ("Failed to process query: " +:+ exc_str e)))
  end.

(** [delete_document]: the status of the response. *)
Definition delete_document (rag_service : option RAGService.RAGService)
    (document_id : string) : M Z :=
  match rag_service with
  | None => raise (HTTPException 500 "Service not initialized")
  | Some rag =>
      try_except
        (let* success := RAGService.delete_document rag document_id in
         if negb success then
           raise (HTTPException 404 ("Document " +:+ document_id +:+ " not found"))
         else ret 204)
        (fun e =>
           match e with
           | HTTPException _ _ => raise e
           | Error msg =>
               raise (HTTPException 500 ("Failed to delete document: " +:+ msg))
           end)
  end.

End Endpoints.
End Endpoints.

(** * Properties *)

(** ** Facts about the string primitives *)

Module PyFacts.
Import Py.

(** A text that is empty or made of whitespace only. *)
Fixpoint all_space (s : string) : bool :=
  match s with
  | EmptyString => true
  | String c s' => isspace c && all_space s'
  end.

Lemma truthy_true (s : string) : truthy s = true <-> s <> "".
Proof.
  unfold truthy. destruct (String.eqb_spec s ""); simpl; split; congruence.
Qed.

Lemma truthy_false (s : string) : truthy s = false <-> s = "".
Proof.
  unfold truthy. destruct (String.eqb_spec s ""); simpl; split; congruence.
Qed.

Lemma str_app_nil (b : string) : "" +:+ b = b.
Proof. reflexivity. Qed.

Lemma str_app_cons (c : ascii) (a b : string) :
  String c a +:+ b = String c (a +:+ b).
Proof. reflexivity. Qed.

Lemma strlen_app (a b : string) :
  String.length (a +:+ b) = (String.length a + String.length b)%nat.
Proof. induction a; simpl; [reflexivity | now rewrite IHa]. Qed.

Lemma len_app (a b : string) : len (a +:+ b) = len a + len b.
Proof. unfold len. rewrite strlen_app. lia. Qed.

Lemma len_nonneg (s : string) : 0 <= len s.
Proof. unfold len. lia. Qed.

Lemma app_empty_r (s : string) : s +:+ "" = s.
Proof. induction s; [reflexivity | now rewrite str_app_cons, IHs]. Qed.

Lemma app_assoc_str (a b c : string) : (a +:+ b) +:+ c = a +:+ (b +:+ c).
Proof. induction a; [reflexivity | now rewrite !str_app_cons, IHa]. Qed.

Lemma str_app_nonempty_r (a b : string) : b <> "" -> a +:+ b <> "".
Proof.
  intros Hb Heq. apply (f_equal String.length) in Heq.
  rewrite strlen_app in Heq. destruct b; [contradiction | simpl in Heq; lia].
Qed.

Lemma all_space_app (a b : string) :
  all_space (a +:+ b) = all_space a && all_space b.
Proof.
  induction a; simpl; [reflexivity |].
  rewrite IHa. now rewrite andb_assoc.
Qed.

Lemma lstrip_empty_iff (s : string) : lstrip s = "" <-> all_space s = true.
Proof.
  induction s as [| c s IH]; simpl; [tauto |].
  destruct (isspace c); simpl; [exact IH |].
  split; discriminate.
Qed.

Lemma rstrip_empty_iff (s : string) : rstrip s = "" <-> all_space s = true.
Proof.
  induction s as [| c s IH]; simpl; [tauto |].
  destruct (rstrip s) eqn:E.
  - destruct (isspace c); simpl.
    + split; [intros _; now apply IH | reflexivity].
    + split; discriminate.
  - split; [discriminate |].
    intros Hs. apply andb_true_iff in Hs. destruct Hs as [_ Hs].
    apply IH in Hs. discriminate.
Qed.

Lemma all_space_lstrip (s : string) : all_space (lstrip s) = all_space s.
Proof.
  induction s as [| c s IH]; simpl; [reflexivity |].
  destruct (isspace c) eqn:E; simpl; [exact IH | now rewrite E].
Qed.

Lemma strip_empty_iff (s : string) : strip s = "" <-> all_space s = true.
Proof.
  unfold strip. rewrite rstrip_empty_iff. now rewrite all_space_lstrip.
Qed.

Lemma strlen_lstrip (s : string) : (String.length (lstrip s) <= String.length s)%nat.
Proof.
  induction s as [| c s IH]; simpl; [lia |].
  destruct (isspace c); simpl; lia.
Qed.

Lemma strlen_rstrip (s : string) : (String.length (rstrip s) <= String.length s)%nat.
Proof.
  induction s as [| c s IH]; simpl; [lia |].
  destruct (rstrip s); [destruct (isspace c) |]; simpl in *; lia.
Qed.

Lemma len_strip (s : string) : len (strip s) <= len s.
Proof.
  unfold len, strip.
  pose proof (strlen_rstrip (lstrip s)). pose proof (strlen_lstrip s). lia.
Qed.

(** [rstrip] leaves a string alone exactly when it does not end in
    whitespace; such a string keeps that property under any prefix. *)
Lemma rstrip_app_fixed (a b : string) :
  rstrip b = b -> b <> "" -> rstrip (a +:+ b) = a +:+ b.
Proof.
  intros Hb Hne. induction a as [| c a IH]; [exact Hb |].
  rewrite str_app_cons. simpl. rewrite IH. destruct (a +:+ b) eqn:E; [| reflexivity].
  destruct a; [contradiction | discriminate].
Qed.

Lemma rstrip_suffix_fixed (a b : string) :
  rstrip (a +:+ b) = a +:+ b -> rstrip b = b.
Proof.
  induction a as [| c a IH]; [tauto |].
  rewrite str_app_cons. simpl.
  destruct (rstrip (a +:+ b)) eqn:E.
  - destruct (isspace c); [discriminate |].
    intros Heq. injection Heq as Heq. apply IH. now rewrite <- Heq.
  - intros Heq. injection Heq as Heq. apply IH. exact Heq.
Qed.

Lemma rstrip_idem (s : string) : rstrip (rstrip s) = rstrip s.
Proof.
  induction s as [| c s IH]; simpl; [reflexivity |].
  destruct (rstrip s) eqn:E.
  - destruct (isspace c) eqn:Ec; simpl; [reflexivity | now rewrite Ec].
  - simpl in *. rewrite IH. reflexivity.
Qed.

Lemma lstrip_idem (s : string) : lstrip (lstrip s) = lstrip s.
Proof.
  induction s as [| c s IH]; simpl; [reflexivity |].
  destruct (isspace c) eqn:Ec; [exact IH | simpl; now rewrite Ec].
Qed.

(** What [lstrip] removes is a prefix of whitespace. *)
Lemma lstrip_split (s : string) :
  exists w, s = w +:+ lstrip s /\ all_space w = true.
Proof.
  induction s as [| c s [w [Hw Hs]]]; simpl.
  - exists "". split; reflexivity.
  - destruct (isspace c) eqn:Ec.
    + exists (String c w). rewrite str_app_cons. simpl. rewrite Ec, Hs.
      split; [now rewrite <- Hw | reflexivity].
    + exists "". split; reflexivity.
Qed.

Lemma lstrip_app_space (w s : string) :
  all_space w = true -> lstrip (w +:+ s) = lstrip s.
Proof.
  induction w as [| c w IH]; [reflexivity |].
  rewrite str_app_cons. simpl.
  intros Hw. apply andb_true_iff in Hw. destruct Hw as [Hc Hw].
  rewrite Hc. now apply IH.
Qed.


Lemma rstrip_lstrip_fixed (s : string) : rstrip s = s -> rstrip (lstrip s) = lstrip s.
Proof.
  intros Hs. destruct (lstrip_split s) as [w [Hw _]].
  apply (rstrip_suffix_fixed w). now rewrite <- Hw.
Qed.

Lemma strip_lstrip_fixed (s : string) : lstrip (strip s) = strip s.
Proof.
  unfold strip.
  assert (Hgen : forall t, lstrip t = t -> lstrip (rstrip t) = rstrip t).
  { intros t. destruct t as [| c t]; simpl; [reflexivity |].
    destruct (isspace c) eqn:Ec.
    - intros Ht. pose proof (strlen_lstrip t) as Hl. rewrite Ht in Hl. simpl in Hl. lia.
    - intros _. destruct (rstrip t); simpl; now rewrite Ec. }
  apply Hgen, lstrip_idem.
Qed.

Lemma strip_rstrip_fixed (s : string) : rstrip (strip s) = strip s.
Proof. unfold strip. apply rstrip_idem. Qed.

Lemma strip_fixed (s : string) : lstrip s = s -> rstrip s = s -> strip s = s.
Proof. intros Hl Hr. unfold strip. now rewrite Hl. Qed.

Lemma strip_idem (s : string) : strip (strip s) = strip s.
Proof. apply strip_fixed; [apply strip_lstrip_fixed | apply strip_rstrip_fixed]. Qed.

End PyFacts.

(** ** Facts about the two splits *)

Module SplitFacts.
Import Py PyFacts.

Lemma forallb_push (c : ascii) (l : list string) :
  forallb all_space (push c l) = isspace c && forallb all_space l.
Proof.
  destruct l as [| p ps]; simpl.
  - now rewrite !andb_true_r.
  - now rewrite andb_assoc.
Qed.

(** The separators of [split] are whitespace: the text is blank exactly
    when every piece is. *)
Lemma split_blank_line_all_space (s : string) :
  forallb all_space (split_blank_line s) = all_space s.
Proof.
  assert (Hboth : forallb all_space (split_blank_line s) = all_space s
                  /\ forall c, forallb all_space (split_blank_line (String c s))
                               = all_space (String c s)).
  { induction s as [| a s [IH1 IH2]].
    - split; [reflexivity |]. intros c. simpl. now rewrite !andb_true_r.
    - split; [apply IH2 |]. intros c.
      change (split_blank_line (String c (String a s)))
        with (if Ascii.eqb c nl && Ascii.eqb a nl
              then EmptyString :: split_blank_line s
              else push c (split_blank_line (String a s))).
      destruct (Ascii.eqb c nl && Ascii.eqb a nl) eqn:E.
      + apply andb_true_iff in E. destruct E as [Ec Ea].
        apply Ascii.eqb_eq in Ec, Ea. subst c a.
        cbn [forallb all_space]. rewrite IH1. reflexivity.
      + rewrite forallb_push, IH2. reflexivity. }
  apply Hboth.
Qed.

Lemma re_split_scan_all_space (st : scan_state) (s : string) :
  forallb all_space (re_split_scan st s) = all_space s.
Proof.
  revert st. induction s as [| c s IH]; intros st; [reflexivity |].
  cbn [re_split_scan all_space].
  destruct (isspace c) eqn:Ec.
  - destruct st; [rewrite forallb_push, Ec | cbn [forallb all_space] |];
      rewrite IH; reflexivity.
  - rewrite forallb_push, Ec. reflexivity.
Qed.

End SplitFacts.

(** ** The chunker *)

Module ChunkerFacts.
Import Py PyFacts SplitFacts PDFProcessor.

(** Every sentence is stripped and not empty. *)
Lemma split_sentences_stripped (text s : string) :
  In s (_split_sentences text) -> strip s = s /\ s <> "".
Proof.
  unfold _split_sentences. intros Hin.
  apply in_map_iff in Hin. destruct Hin as [p [Hp Hin]].
  apply filter_In in Hin. destruct Hin as [_ Ht].
  subst s. split; [apply strip_idem | now apply truthy_true].
Qed.

(** A text that is not blank has a sentence. *)
Lemma split_sentences_nonempty (text : string) :
  all_space text = false -> _split_sentences text <> [].
Proof.
  intros Hns Hnil. unfold _split_sentences, re_split_sentences in Hnil.
  rewrite <- (re_split_scan_all_space Plain) in Hns.
  induction (re_split_scan Plain text) as [| p ps IH]; [discriminate |].
  cbn [List.filter forallb] in *.
  destruct (truthy (strip p)) eqn:Ep; [discriminate |].
  apply truthy_false, strip_empty_iff in Ep. rewrite Ep in Hns. now apply IH.
Qed.

(** *** The paragraph loop as the chunks it emits *)

(** The chunks that leave the loop from the buffer [current_chunk] on,
    the one added after the loop included. *)
Fixpoint paragraph_emit (chunk_size chunk_overlap : Z) (paragraphs : list string)
    (current_chunk : string) : list string :=
  match paragraphs with
  | [] => if truthy (strip current_chunk) then [strip current_chunk] else []
  | para :: rest =>
      let st := paragraph_step chunk_size chunk_overlap ([], current_chunk) para in
      fst st ++ paragraph_emit chunk_size chunk_overlap rest (snd st)
  end.

Lemma paragraph_step_acc (cs ov : Z) (chunks : list string) (cur para : string) :
  paragraph_step cs ov (chunks, cur) para
  = (chunks ++ fst (paragraph_step cs ov ([], cur) para),
     snd (paragraph_step cs ov ([], cur) para)).
Proof.
  unfold paragraph_step.
  destruct (truthy (strip para)); simpl; [| now rewrite app_nil_r].
  destruct (truthy cur); simpl; [| now rewrite app_nil_r].
  destruct (len cur + len (strip para) >? cs); simpl; [| now rewrite app_nil_r].
  destruct (ov >? 0); reflexivity.
Qed.

Lemma paragraph_fold_emit (cs ov : Z) (paragraphs chunks : list string) (cur : string) :
  (let '(chunks', cur') := fold_left (paragraph_step cs ov) paragraphs (chunks, cur) in
   if truthy (strip cur') then chunks' ++ [strip cur'] else chunks')
  = chunks ++ paragraph_emit cs ov paragraphs cur.
Proof.
  revert chunks cur. induction paragraphs as [| para rest IH]; intros chunks cur.
  - simpl. destruct (truthy (strip cur)); [reflexivity | now rewrite app_nil_r].
  - cbn [fold_left paragraph_emit]. rewrite paragraph_step_acc, IH.
    now rewrite <- app_assoc.
Qed.

Lemma paragraph_chunks_emit (text : string) (cs ov : Z) :
  paragraph_chunks text cs ov = paragraph_emit cs ov (split_blank_line text) "".
Proof.
  unfold paragraph_chunks.
  exact (paragraph_fold_emit cs ov (split_blank_line text) [] "").
Qed.

(** *** Slices *)








(** *** Buffers of the paragraph loop *)

(** A buffer that holds text ends in a character that is not
    whitespace. *)
Definition solid_end (s : string) : Prop := rstrip s = s /\ s <> "".

Definition buffer_ok (s : string) : Prop := s = "" \/ solid_end s.

Lemma solid_end_strip (para : string) : strip para <> "" -> solid_end (strip para).
Proof. intros Hne. split; [apply strip_rstrip_fixed | exact Hne]. Qed.

Lemma solid_end_app (a b : string) : solid_end b -> solid_end (a +:+ b).
Proof.
  intros [Hb Hne]. split; [now apply rstrip_app_fixed |].
  destruct a; [exact Hne | discriminate].
Qed.

Lemma solid_end_not_blank (s : string) : solid_end s -> all_space s = false.
Proof.
  intros [Hr Hne]. destruct (all_space s) eqn:E; [| reflexivity].
  apply rstrip_empty_iff in E. congruence.
Qed.

Lemma solid_end_strip_eq (s : string) : solid_end s -> strip s = lstrip s.
Proof. intros [Hr _]. unfold strip. now apply rstrip_lstrip_fixed. Qed.

Lemma solid_end_strip_not_blank (s : string) :
  solid_end s -> all_space (strip s) = false.
Proof.
  intros Hs. rewrite solid_end_strip_eq by assumption.
  rewrite all_space_lstrip. now apply solid_end_not_blank.
Qed.


(** The buffer after one paragraph is again a buffer. *)
Lemma paragraph_step_buffer_ok (cs ov : Z) (cur para : string) :
  buffer_ok cur -> buffer_ok (snd (paragraph_step cs ov ([], cur) para)).
Proof.
  intros Hcur. unfold paragraph_step.
  destruct (truthy (strip para)) eqn:Ep; simpl; [| exact Hcur].
  apply truthy_true in Ep. pose proof (solid_end_strip para Ep) as Hp.
  destruct (truthy cur) eqn:Ec; simpl; [| now right].
  destruct (len cur + len (strip para) >? cs); simpl.
  - destruct (ov >? 0); simpl; right; [| exact Hp].
    now apply solid_end_app, solid_end_app.
  - right. now apply solid_end_app, solid_end_app.
Qed.

(** The four ways one paragraph goes through the loop body: skipped,
    flushing the buffer, joining the buffer, opening the buffer. *)
Lemma paragraph_step_cases (cs ov : Z) (cur para : string) :
  let st := paragraph_step cs ov ([], cur) para in
  (strip para = "" /\ st = ([], cur))
  \/ (strip para <> "" /\ cur <> ""
      /\ st = ([strip cur],
               if ov >? 0 then slice_from (- ov) cur +:+ blank_line +:+ strip para
               else strip para))
  \/ (strip para <> "" /\ cur <> "" /\ st = ([], cur +:+ blank_line +:+ strip para))
  \/ (strip para <> "" /\ cur = "" /\ st = ([], strip para)).
Proof.
  unfold paragraph_step.
  destruct (truthy (strip para)) eqn:Ep; simpl.
  - apply truthy_true in Ep. right.
    destruct (truthy cur) eqn:Ec; simpl.
    + apply truthy_true in Ec.
      destruct (len cur + len (strip para) >? cs); simpl.
      * left. rewrite andb_true_r. now destruct (ov >? 0).
      * right. left. easy.
    + apply truthy_false in Ec. right. right. easy.
  - apply truthy_false in Ep. now left.
Qed.



(** Each chunk of the paragraph stage holds text. *)
Lemma paragraph_emit_not_blank (cs ov : Z) (paragraphs : list string) (cur : string) :
  buffer_ok cur ->
  Forall (fun c => all_space c = false) (paragraph_emit cs ov paragraphs cur).
Proof.
  revert cur. induction paragraphs as [| para rest IH]; intros cur Hcur.
  - cbn [paragraph_emit]. destruct (truthy (strip cur)) eqn:Et; [| constructor].
    apply truthy_true in Et. constructor; [| constructor].
    destruct (all_space (strip cur)) eqn:E; [| reflexivity].
    apply strip_empty_iff in E. now rewrite strip_idem in E.
  - cbn [paragraph_emit].
    pose proof (paragraph_step_buffer_ok cs ov cur para Hcur) as Hnext.
    apply Forall_app. split; [| now apply IH].
    destruct (paragraph_step_cases cs ov cur para)
      as [[Hp Hst] | [[Hp [Hne Hst]] | [[Hp [Hne Hst]] | [Hp [He Hst]]]]];
      rewrite Hst; cbn [fst]; try constructor; [| constructor].
    destruct Hcur as [-> | Hs]; [contradiction |].
    now apply solid_end_strip_not_blank.
Qed.

(** A text that is not blank leaves the paragraph stage with a chunk. *)
Lemma paragraph_emit_nonempty (cs ov : Z) (paragraphs : list string) (cur : string) :
  buffer_ok cur ->
  cur <> "" \/ forallb all_space paragraphs = false ->
  paragraph_emit cs ov paragraphs cur <> [].
Proof.
  revert cur. induction paragraphs as [| para rest IH]; intros cur Hcur Hsome.
  - cbn [paragraph_emit]. destruct Hsome as [Hne | Hf]; [| discriminate].
    destruct Hcur as [-> | Hs]; [contradiction |].
    pose proof (solid_end_strip_not_blank cur Hs) as Hnb.
    destruct (truthy (strip cur)) eqn:Et; [discriminate |].
    apply truthy_false in Et. rewrite Et in Hnb. discriminate.
  - cbn [paragraph_emit].
    pose proof (paragraph_step_buffer_ok cs ov cur para Hcur) as Hnext.
    destruct (paragraph_step_cases cs ov cur para)
      as [[Hp Hst] | [[Hp [Hne Hst]] | [[Hp [Hne Hst]] | [Hp [He Hst]]]]];
      rewrite Hst in *; cbn [fst snd app] in *.
    + apply IH; [exact Hcur |].
      destruct Hsome as [Hne | Hf]; [now left | right].
      apply strip_empty_iff in Hp. cbn [forallb] in Hf. now rewrite Hp in Hf.
    + discriminate.
    + apply IH; [exact Hnext | left]. now apply str_app_nonempty_r, str_app_nonempty_r.
    + apply IH; [exact Hnext | now left].
Qed.

(** *** The sentence loop *)

Lemma sentence_step_not_blank (cs : Z) (acc : list string) (temp sentence : string) :
  all_space sentence = false ->
  all_space (snd (sentence_step cs (acc, temp) sentence)) = false.
Proof.
  intros Hs. unfold sentence_step.
  destruct (truthy temp && (len temp + len sentence >? cs)); cbn [snd]; [exact Hs |].
  rewrite !all_space_app, Hs. now rewrite !andb_false_r.
Qed.

Lemma sentence_fold_not_blank (cs : Z) (sentences acc : list string) (temp : string) :
  Forall (fun s => all_space s = false) sentences ->
  sentences <> [] \/ all_space temp = false ->
  all_space (snd (fold_left (sentence_step cs) sentences (acc, temp))) = false.
Proof.
  revert acc temp. induction sentences as [| s rest IH]; intros acc temp Hall Hsome.
  - destruct Hsome as [Hne | Ht]; [contradiction | exact Ht].
  - cbn [fold_left]. inversion Hall as [| ? ? Hs Hrest]; subst.
    destruct (sentence_step cs (acc, temp) s) as [acc' temp'] eqn:E.
    apply IH; [exact Hrest | right].
    change temp' with (snd (acc', temp')). rewrite <- E.
    now apply sentence_step_not_blank.
Qed.

Lemma sentences_not_blank (chunk : string) :
  Forall (fun s => all_space s = false) (_split_sentences chunk).
Proof.
  apply List.Forall_forall. intros s Hin.
  apply split_sentences_stripped in Hin. destruct Hin as [Hfix Hne].
  destruct (all_space s) eqn:E; [| reflexivity].
  apply strip_empty_iff in E. congruence.
Qed.

Lemma app_one_nonempty {A : Type} (l : list A) (x : A) : l ++ [x] <> [].
Proof. destruct l; discriminate. Qed.

(** A chunk that holds text adds at least one final chunk. *)
Lemma chunk_step_nonempty (cs : Z) (acc : list string) (chunk : string) :
  all_space chunk = false -> chunk_step cs acc chunk <> [].
Proof.
  intros Hc. unfold chunk_step.
  destruct (len chunk <=? cs); [apply app_one_nonempty |].
  pose proof (sentence_fold_not_blank cs (_split_sentences chunk) acc ""
                (sentences_not_blank chunk)
                (or_introl (split_sentences_nonempty chunk Hc))) as Hnb.
  destruct (fold_left (sentence_step cs) (_split_sentences chunk) (acc, ""))
    as [acc' temp'].
  cbn [snd] in Hnb.
  destruct (truthy (strip temp')) eqn:Et; [apply app_one_nonempty |].
  apply truthy_false, strip_empty_iff in Et. congruence.
Qed.

Lemma chunk_fold_nonempty (cs : Z) (chunks acc : list string) :
  Forall (fun c => all_space c = false) chunks ->
  chunks <> [] \/ acc <> [] ->
  fold_left (chunk_step cs) chunks acc <> [].
Proof.
  revert acc. induction chunks as [| c rest IH]; intros acc Hall Hsome.
  - destruct Hsome as [Hne | Hacc]; [contradiction | exact Hacc].
  - cbn [fold_left]. inversion Hall as [| ? ? Hc Hrest]; subst.
    apply IH; [exact Hrest | right]. now apply chunk_step_nonempty.
Qed.

(** A text that holds more than whitespace always yields a chunk: the
    empty result is the result for blank texts only. *)
Lemma chunk_text_nonempty (text : string) (cs ov : Z) :
  all_space text = false -> chunk_text text cs ov <> [].
Proof.
  intros Hns. unfold chunk_text.
  assert (Ht : truthy text = true).
  { apply truthy_true. intros ->. discriminate. }
  assert (Hst : truthy (strip text) = true).
  { apply truthy_true. intros He. apply strip_empty_iff in He. congruence. }
  rewrite Ht, Hst. cbn [negb orb].
  rewrite paragraph_chunks_emit.
  apply chunk_fold_nonempty.
  - apply paragraph_emit_not_blank. now left.
  - left. apply paragraph_emit_nonempty; [now left | right].
    now rewrite split_blank_line_all_space.
Qed.

(** *** The length of the final chunks *)

Section SentenceBound.
Variable cs : Z.
Variable sentences : list string.
Variable good : string -> Prop.

(** A buffer of the sentence loop is in order when it is a sentence of
    the chunk being split, or has at most one character more than
    [chunk_size]. *)
Definition chunk_in_order (c : string) : Prop :=
  len c <= cs + 1 \/ In c sentences.

Hypothesis sentences_stripped : forall s, In s sentences -> strip s = s.
Hypothesis in_order_good : forall c, chunk_in_order c -> good c.

Lemma chunk_in_order_strip (t : string) :
  chunk_in_order t -> chunk_in_order (strip t).
Proof.
  intros [Hlen | Hin].
  - left. pose proof (len_strip t). lia.
  - right. now rewrite sentences_stripped.
Qed.

Lemma sentence_step_in_order (acc : list string) (temp s : string) :
  In s sentences ->
  Forall good acc ->
  temp = "" \/ chunk_in_order temp ->
  let st := sentence_step cs (acc, temp) s in
  Forall good (fst st) /\ chunk_in_order (snd st).
Proof.
  intros Hs Hacc Htemp. unfold sentence_step.
  destruct (truthy temp) eqn:Et; cbn [andb].
  - apply truthy_true in Et. destruct Htemp as [-> | Htemp]; [contradiction |].
    destruct (Z.gtb_spec (len temp + len s) cs) as [Hgt | Hle]; cbn [fst snd].
    + split; [| now right].
      apply Forall_app. split; [exact Hacc |].
      constructor; [now apply in_order_good, chunk_in_order_strip | constructor].
    + split; [exact Hacc |]. left.
      rewrite !len_app. change (len " ") with 1. lia.
  - apply truthy_false in Et. subst temp.
    cbn [fst snd]. split; [exact Hacc | right; exact Hs].
Qed.

Lemma sentence_fold_in_order (todo acc : list string) (temp : string) :
  (forall s, In s todo -> In s sentences) ->
  Forall good acc ->
  temp = "" \/ chunk_in_order temp ->
  let st := fold_left (sentence_step cs) todo (acc, temp) in
  Forall good (fst st) /\ (snd st = "" \/ chunk_in_order (snd st)).
Proof.
  revert acc temp.
  induction todo as [| s rest IH]; intros acc temp Hsub Hacc Htemp.
  - cbn [fold_left fst snd]. now split.
  - cbn [fold_left].
    destruct (sentence_step_in_order acc temp s (Hsub s (or_introl eq_refl))
                Hacc Htemp) as [Hacc' Htemp'].
    destruct (sentence_step cs (acc, temp) s) as [acc' temp'].
    apply IH; [| exact Hacc' | now right].
    intros s' Hin. apply Hsub. now right.
Qed.

End SentenceBound.

(** A final chunk is within [chunk_size + 1] characters, or is one
    sentence of a chunk of the paragraph stage. *)
Definition final_chunk_ok (cs : Z) (chunks : list string) (c : string) : Prop :=
  len c <= cs + 1 \/ exists chunk, In chunk chunks /\ In c (_split_sentences chunk).

Lemma chunk_step_bound (cs : Z) (chunks acc : list string) (chunk : string) :
  In chunk chunks ->
  Forall (final_chunk_ok cs chunks) acc ->
  Forall (final_chunk_ok cs chunks) (chunk_step cs acc chunk).
Proof.
  intros Hin Hacc. unfold chunk_step.
  assert (Hlift : forall c, chunk_in_order cs (_split_sentences chunk) c ->
                            final_chunk_ok cs chunks c).
  { intros c [Hlen | Hs]; [now left | right; now exists chunk]. }
  assert (Hfix : forall s, In s (_split_sentences chunk) -> strip s = s).
  { intros s Hs. now apply split_sentences_stripped in Hs. }
  destruct (Z.leb_spec (len chunk) cs) as [Hle | Hgt].
  - apply Forall_app. split; [exact Hacc |].
    constructor; [left; lia | constructor].
  - pose proof (sentence_fold_in_order cs (_split_sentences chunk)
                  (final_chunk_ok cs chunks) Hfix Hlift
                  (_split_sentences chunk) acc "" (fun s Hs => Hs) Hacc
                  (or_introl eq_refl)) as Hfold.
    destruct (fold_left (sentence_step cs) (_split_sentences chunk) (acc, ""))
      as [acc' temp'].
    cbn [fst snd] in Hfold. destruct Hfold as [Hacc2 Htemp].
    destruct (truthy (strip temp')) eqn:Et; [| exact Hacc2].
    apply Forall_app. split; [exact Hacc2 |]. constructor; [| constructor].
    destruct Htemp as [-> | Htemp]; [discriminate |].
    apply Hlift. now apply chunk_in_order_strip.
Qed.

Lemma chunk_fold_bound (cs : Z) (chunks todo acc : list string) :
  (forall c, In c todo -> In c chunks) ->
  Forall (final_chunk_ok cs chunks) acc ->
  Forall (final_chunk_ok cs chunks) (fold_left (chunk_step cs) todo acc).
Proof.
  revert acc. induction todo as [| c rest IH]; intros acc Hsub Hacc; [exact Hacc |].
  cbn [fold_left]. apply IH; [intros c' Hc'; apply Hsub; now right |].
  apply chunk_step_bound; [apply Hsub; now left | exact Hacc].
Qed.

(** The bound the code does keep: every chunk [chunk_text] returns has
    at most [chunk_size + 1] characters, or is a single sentence of a
    chunk of the paragraph stage, passed on whole. *)
Theorem chunk_text_length_bound (text : string) (cs ov : Z) :
  Forall (final_chunk_ok cs (paragraph_chunks text cs ov)) (chunk_text text cs ov).
Proof.
  unfold chunk_text.
  destruct (negb (truthy text) || negb (truthy (strip text))); [constructor |].
  apply chunk_fold_bound; [tauto | constructor].
Qed.

(** *** The chunker on samples *)

Example split_blank_line_sample :
  split_blank_line ("a" +:+ blank_line +:+ String nl "b" +:+ blank_line)
  = ["a"; String nl "b"; ""].
Proof. reflexivity. Qed.

Example split_sentences_sample :
  _split_sentences "Hi. There!  Ok? yes.  " = ["Hi."; "There!"; "Ok?"; "yes."].
Proof. reflexivity. Qed.

(** Three paragraphs, chunks of 10 characters, an overlap of 4: the
    first chunk of the paragraph stage is split at a sentence, the
    second is one sentence and stays whole. *)
Example chunk_text_sample :
  chunk_text ("Hi. There!  Ok" +:+ blank_line +:+ "  para two. "
              +:+ blank_line +:+ String nl "x") 10 4
  = ["Hi. There!"; "Ok"; "Ok" +:+ blank_line +:+ "para two.";
     "two." +:+ blank_line +:+ "x"].
Proof. reflexivity. Qed.

(** *** When no chunk needs the sentence loop *)

Lemma chunk_fold_fits (cs : Z) (chunks acc : list string) :
  Forall (fun c => len c <= cs) chunks ->
  fold_left (chunk_step cs) chunks acc = acc ++ chunks.
Proof.
  revert acc. induction chunks as [| c rest IH]; intros acc Hfit.
  - now rewrite app_nil_r.
  - inversion Hfit as [| ? ? Hc Hrest]; subst. cbn [fold_left].
    unfold chunk_step at 2. destruct (Z.leb_spec (len c) cs); [| lia].
    rewrite IH by assumption. now rewrite <- app_assoc.
Qed.

Lemma paragraph_emit_blank (cs ov : Z) (paragraphs : list string) :
  forallb all_space paragraphs = true -> paragraph_emit cs ov paragraphs "" = [].
Proof.
  induction paragraphs as [| para rest IH]; intros Hall; [reflexivity |].
  cbn [forallb] in Hall. apply andb_true_iff in Hall. destruct Hall as [Hp Hrest].
  cbn [paragraph_emit]. unfold paragraph_step.
  apply strip_empty_iff in Hp. rewrite Hp. cbn. now apply IH.
Qed.

(** The chunks of the paragraph stage are the result of [chunk_text]
    when each of them fits in [chunk_size]. *)
Lemma chunk_text_paragraph_chunks (text : string) (cs ov : Z) :
  Forall (fun c => len c <= cs) (paragraph_chunks text cs ov) ->
  chunk_text text cs ov = paragraph_chunks text cs ov.
Proof.
  intros Hfit. unfold chunk_text.
  destruct (negb (truthy text) || negb (truthy (strip text))) eqn:Eg.
  - rewrite paragraph_chunks_emit. symmetry. apply paragraph_emit_blank.
    rewrite split_blank_line_all_space. apply strip_empty_iff.
    apply orb_true_iff in Eg. destruct Eg as [Eg | Eg];
      apply negb_true_iff, truthy_false in Eg; [now subst text | exact Eg].
  - now apply chunk_fold_fits.
Qed.

(** *** The claims about the chunker *)

(** C9. A text that is empty or holds only whitespace gives the empty
    sequence of chunks, whatever the chunk size and the overlap. *)
Theorem chunk_text_blank (text : string) (cs ov : Z) :
  all_space text = true -> chunk_text text cs ov = [].
Proof.
  intros Hblank. unfold chunk_text.
  apply strip_empty_iff in Hblank. rewrite Hblank.
  now rewrite orb_true_r.
Qed.

Lemma chunk_text_blank_witness :
  all_space (String nl "  ") = true
  /\ chunk_text (String nl "  ") default_chunk_size default_chunk_overlap = [].
Proof.
  split; [reflexivity |].
  apply (chunk_text_blank (String nl "  ") default_chunk_size default_chunk_overlap).
  reflexivity.
Defined.



(** [c * n] for a character [c]. *)
Fixpoint str_repeat (c : ascii) (n : nat) : string :=
  match n with
  | O => EmptyString
  | S n' => String c (str_repeat c n')
  end.

(** Two sentences of 500 characters each, one space between them. *)
Definition two_sentences : string :=
  str_repeat "a" 499 +:+ ". " +:+ str_repeat "b" 499 +:+ ".".

(** C1. On a paragraph of two sentences of 500 characters and the
    default parameters, [chunk_text] returns one chunk of 1001
    characters that holds both sentences: the test of the sentence loop
    leaves out the space that joins them. *)
Theorem chunk_text_joins_past_chunk_size :
  chunk_text two_sentences default_chunk_size default_chunk_overlap = [two_sentences]
  /\ len two_sentences = 1001
  /\ _split_sentences two_sentences
     = [str_repeat "a" 499 +:+ "."; str_repeat "b" 499 +:+ "."].
Proof. vm_compute. repeat split. Qed.

End ChunkerFacts.

(** ** The vector store *)

Module StoreFacts.
Import Effects VectorStore.

Section StoreFacts.
Context {emb : Embedder} {eng : Engine}.

(** Every collection object kept in [VectorStore.collections] is filed
    under the name of its collection, and that collection exists. *)
Definition wf (st : State) : Prop :=
  forall id h, collections st !! id = Some h ->
    handle_name h = id /\ is_Some (chroma st !! id).

(** The collection a first access to [document_id] creates. *)
Definition fresh_collection (document_id : string) : Collection :=
  {| coll_metadata := {[ "document_id" := document_id ]}; coll_entries := [] |}.

(** The store before any request: whatever the database holds, no
    collection object is kept yet. *)
Definition startup (db : gmap string Collection) : State :=
  {| chroma := db; collections := ∅; llm_log := [] |}.

Lemma wf_startup (db : gmap string Collection) : wf (startup db).
Proof. intros id h Hh. cbn in Hh. rewrite lookup_empty in Hh. discriminate. Qed.

(** The names [create_collection] can open: those of the collections
    the database holds, and those the engine accepts for a new one. *)
Definition opens (document_id : string) (st : State) : Prop :=
  is_Some (chroma st !! document_id) \/ name_error document_id = None.

(** A name is opened or refused. *)
Lemma opens_or_refused (document_id : string) (st : State) :
  opens document_id st
  \/ (chroma st !! document_id = None
      /\ exists msg, name_error document_id = Some msg).
Proof.
  unfold opens. destruct (chroma st !! document_id) as [c |]; [left; eauto |].
  destruct (name_error document_id) as [msg |]; [right | left]; eauto.
Qed.

Lemma wf_uncached (document_id : string) (st : State) :
  wf st -> chroma st !! document_id = None -> collections st !! document_id = None.
Proof.
  intros Hwf Hnone.
  destruct (collections st !! document_id) as [h |] eqn:E; [| reflexivity].
  destruct (Hwf _ _ E) as [_ [c Hc]]. congruence.
Qed.

(** [create_collection] answers with the object of the collection,
    which exists afterwards; the database gains the fresh collection
    when the name was unknown and is left alone otherwise. *)
Lemma create_collection_spec (document_id : string) (st : State) :
  wf st ->
  opens document_id st ->
  exists st',
    create_collection document_id st = (Ok {| handle_name := document_id |}, st')
    /\ wf st'
    /\ llm_log st' = llm_log st
    /\ chroma st' = match chroma st !! document_id with
                    | Some _ => chroma st
                    | None => <[document_id := fresh_collection document_id]> (chroma st)
                    end.
Proof.
  intros Hwf Hopen. unfold create_collection, bind, get_state.
  destruct (collections st !! document_id) as [h |] eqn:Hc.
  - destruct (Hwf _ _ Hc) as [Hname [c Hex]].
    exists st. rewrite Hex. destruct h as [n]. cbn in Hname. subst n.
    split; [reflexivity |]. split; [exact Hwf |]. split; reflexivity.
  - unfold try_except, client_get_collection, client_create_collection.
    destruct (chroma st !! document_id) as [c |] eqn:Hex; cbn; rewrite ?Hex; cbn.
    + eexists. split; [reflexivity |]. split; [| split; reflexivity].
      intros id h Hh. cbn in Hh.
      destruct (decide (document_id = id)) as [-> | Hne].
      * rewrite lookup_insert_eq in Hh. injection Hh as <-. cbn. now rewrite Hex.
      * rewrite lookup_insert_ne in Hh by assumption. now apply Hwf.
    + destruct Hopen as [[c Hc'] | Hvalid]; [congruence |].
      rewrite Hvalid. cbn.
      eexists. split; [reflexivity |]. split; [| split; reflexivity].
      intros id h Hh. cbn in Hh. cbn.
      destruct (decide (document_id = id)) as [-> | Hne].
      * rewrite lookup_insert_eq in Hh. injection Hh as <-. cbn.
        rewrite lookup_insert_eq. eauto.
      * rewrite lookup_insert_ne in Hh by assumption.
        rewrite lookup_insert_ne by assumption. now apply Hwf.
Qed.

(** A name the database does not hold and the engine refuses:
    [create_collection] raises the engine's error, and nothing is
    created or kept. *)
Lemma create_collection_refused (document_id : string) (st : State) (msg : string) :
  wf st ->
  chroma st !! document_id = None ->
  name_error document_id = Some msg ->
  create_collection document_id st = (Raise (Error msg), st).
Proof.
  intros Hwf Hnone Hbad.
  unfold create_collection, bind, get_state.
  rewrite (wf_uncached _ _ Hwf Hnone).
  unfold try_except, client_get_collection, client_create_collection.
  cbn. rewrite Hnone. cbn. rewrite Hbad. reflexivity.
Qed.

(** What [search] retrieves from the rows of a collection. *)
Definition retrieved (query : string) (top_k : Z) (entries : list Entry) : list Chunk :=
  map format_result
      (firstn (Z.to_nat (Z.min top_k (Z.of_nat (length entries))))
              (nearest (encode query) entries)).

(** What [search] answers once it holds a collection with the rows
    [entries]: the client's error when [min(top_k, count)] is not
    positive, the nearest rows otherwise. *)
Definition answered (query : string) (top_k : Z) (entries : list Entry)
    : result (list Chunk) :=
  let n_results := Z.min top_k (Z.of_nat (length entries)) in
  if n_results <=? 0 then Raise (n_results_error n_results)
  else Ok (retrieved query top_k entries).

(** [search] opens the collection as [create_collection] does, then
    asks it for [min(top_k, count)] rows. *)
Lemma search_spec (document_id query : string) (top_k : Z) (st : State) :
  wf st ->
  opens document_id st ->
  exists st' c,
    create_collection document_id st = (Ok {| handle_name := document_id |}, st')
    /\ chroma st' !! document_id = Some c
    /\ wf st'
    /\ search document_id query top_k st
       = (answered query top_k (coll_entries c), st').
Proof.
  intros Hwf Hopen.
  destruct (create_collection_spec document_id st Hwf Hopen)
    as [st' [Hcreate [Hwf' [Hlog Hdb]]]].
  assert (Hex : exists c, chroma st' !! document_id = Some c).
  { rewrite Hdb. destruct (chroma st !! document_id) eqn:E; [eauto |].
    rewrite lookup_insert_eq. eauto. }
  destruct Hex as [c Hc]. exists st', c.
  split; [exact Hcreate |]. split; [exact Hc |]. split; [exact Hwf' |].
  unfold search, bind, try_except. rewrite Hcreate. cbn.
  unfold collection_count, collection_query, collection_entries, bind, answered. cbn.
  rewrite Hc. cbn.
  destruct (Z.min top_k (Z.of_nat (length (coll_entries c))) <=? 0); [reflexivity |].
  cbn. rewrite Hc. cbn. unfold retrieved.
  destruct (firstn _ _) as [| r rs]; reflexivity.
Qed.

(** A name the database does not hold and the engine refuses: [search]
    swallows the error, answers with no chunk and changes nothing. *)
Lemma search_refused (document_id query : string) (top_k : Z) (st : State)
    (msg : string) :
  wf st ->
  chroma st !! document_id = None ->
  name_error document_id = Some msg ->
  search document_id query top_k st = (Ok [], st).
Proof.
  intros Hwf Hnone Hbad. unfold search, bind, try_except.
  rewrite (create_collection_refused _ _ _ Hwf Hnone Hbad). reflexivity.
Qed.

Lemma answered_nil (query : string) (top_k : Z) :
  answered query top_k [] = Raise (n_results_error (Z.min top_k 0)).
Proof.
  unfold answered. cbn [length]. change (Z.of_nat 0) with 0.
  destruct (Z.leb_spec (Z.min top_k 0) 0) as [_ | H]; [reflexivity | lia].
Qed.

Lemma answered_some (query : string) (top_k : Z) (entries : list Entry) :
  0 < top_k -> entries <> [] ->
  answered query top_k entries = Ok (retrieved query top_k entries).
Proof.
  intros Hk Hne. unfold answered.
  destruct (Z.leb_spec (Z.min top_k (Z.of_nat (length entries))) 0) as [H | _];
    [| reflexivity].
  destruct entries; [contradiction | cbn [length] in H; lia].
Qed.

(** Whenever [search] answers from a collection, the collection holds
    rows and [top_k] is positive. *)
Lemma answered_ok (query : string) (top_k : Z) (entries : list Entry)
    (result : list Chunk) :
  answered query top_k entries = Ok result ->
  0 < top_k /\ entries <> [] /\ result = retrieved query top_k entries.
Proof.
  unfold answered.
  destruct (Z.leb_spec (Z.min top_k (Z.of_nat (length entries))) 0) as [H | H];
    [discriminate |].
  intros [= <-]. split; [lia |]. split; [| reflexivity].
  intros ->. cbn [length] in H. lia.
Qed.

(** An unknown name the engine accepts: [search] leaves a fresh, empty
    collection behind and raises the client's error for a request of
    no row. *)
Lemma search_missing (document_id query : string) (top_k : Z) (st : State) :
  wf st ->
  chroma st !! document_id = None ->
  name_error document_id = None ->
  exists st',
    search document_id query top_k st
    = (Raise (n_results_error (Z.min top_k 0)), st')
    /\ wf st'
    /\ llm_log st' = llm_log st
    /\ chroma st' = <[document_id := fresh_collection document_id]> (chroma st).
Proof.
  intros Hwf Hnone Hvalid.
  assert (Hopen : opens document_id st) by now right.
  destruct (create_collection_spec document_id st Hwf Hopen)
    as [st1 [Hcreate [Hwf1 [Hlog Hdb]]]].
  destruct (search_spec document_id query top_k st Hwf Hopen)
    as [st' [c [Hcreate' [Hc [_ Hsearch]]]]].
  rewrite Hcreate in Hcreate'. injection Hcreate' as <-.
  rewrite Hnone in Hdb. rewrite Hdb, lookup_insert_eq in Hc. injection Hc as <-.
  exists st1. rewrite Hsearch. cbn [coll_entries fresh_collection].
  rewrite answered_nil. auto.
Qed.

(** A collection without rows: [search] raises the client's error for
    a request of no row, and the database is as before. *)
Lemma search_empty (document_id query : string) (top_k : Z) (st : State)
    (c : Collection) :
  wf st ->
  chroma st !! document_id = Some c ->
  coll_entries c = [] ->
  exists st',
    search document_id query top_k st
    = (Raise (n_results_error (Z.min top_k 0)), st')
    /\ wf st'
    /\ llm_log st' = llm_log st
    /\ chroma st' = chroma st.
Proof.
  intros Hwf Hsome Hrows.
  assert (Hopen : opens document_id st) by (left; eauto).
  destruct (create_collection_spec document_id st Hwf Hopen)
    as [st1 [Hcreate [Hwf1 [Hlog Hdb]]]].
  destruct (search_spec document_id query top_k st Hwf Hopen)
    as [st' [c' [Hcreate' [Hc [_ Hsearch]]]]].
  rewrite Hcreate in Hcreate'. injection Hcreate' as <-.
  rewrite Hsome in Hdb. rewrite Hdb, Hsome in Hc. injection Hc as <-.
  exists st1. rewrite Hsearch, Hrows, answered_nil. auto.
Qed.

(** Deleting a name the database does not hold: [False], and the
    state is the one before the call. *)
Lemma delete_missing (document_id : string) (st : State) :
  wf st ->
  chroma st !! document_id = None ->
  delete_document document_id st = (Ok false, st).
Proof.
  intros Hwf Hnone.
  assert (Hc : collections st !! document_id = None).
  { destruct (collections st !! document_id) as [h |] eqn:E; [| reflexivity].
    destruct (Hwf _ _ E) as [_ [c Hc]]. congruence. }
  unfold delete_document, try_except, bind, get_state, client_delete_collection.
  rewrite Hc. cbn. rewrite Hnone. reflexivity.
Qed.

(** Deleting a name the database holds: [True]; the collection and its
    object are gone, the other collections stay. *)
Lemma delete_present (document_id : string) (st : State) (c : Collection) :
  wf st ->
  chroma st !! document_id = Some c ->
  let st' := {| chroma := delete document_id (chroma st);
                collections := delete document_id (collections st);
                llm_log := llm_log st |} in
  delete_document document_id st = (Ok true, st') /\ wf st'.
Proof.
  intros Hwf Hsome st'. split.
  - unfold delete_document, try_except, bind, get_state, client_delete_collection.
    destruct (collections st !! document_id) as [h |] eqn:E; cbn; rewrite Hsome; cbn.
    + reflexivity.
    + subst st'. rewrite (delete_id (collections st)) by assumption.
      destruct st; reflexivity.
  - intros id h Hh. subst st'. cbn in *.
    destruct (decide (document_id = id)) as [-> | Hne].
    + rewrite lookup_delete_eq in Hh. discriminate.
    + rewrite lookup_delete_ne in Hh by assumption.
      rewrite lookup_delete_ne by assumption. now apply Hwf.
Qed.

(** *** The invariant is kept *)

Lemma search_wf (document_id query : string) (top_k : Z) (st : State) :
  wf st -> wf (snd (search document_id query top_k st)).
Proof.
  intros Hwf.
  destruct (opens_or_refused document_id st) as [Hopen | [Hnone [e Hbad]]].
  - destruct (search_spec document_id query top_k st Hwf Hopen)
      as [st' [c [_ [_ [Hwf' Hsearch]]]]].
    now rewrite Hsearch.
  - now rewrite (search_refused _ query top_k _ _ Hwf Hnone Hbad).
Qed.

Lemma delete_document_wf (document_id : string) (st : State) :
  wf st -> wf (snd (delete_document document_id st)).
Proof.
  intros Hwf. destruct (chroma st !! document_id) as [c |] eqn:E.
  - destruct (delete_present document_id st c Hwf E) as [Hdel Hwf'].
    now rewrite Hdel.
  - now rewrite (delete_missing document_id st Hwf E).
Qed.

Lemma add_documents_wf (document_id : string) (chunks : list string)
    (metadatas : option (list (gmap string PyVal))) (st : State) :
  wf st -> wf (snd (add_documents document_id chunks metadatas st)).
Proof.
  intros Hwf. unfold add_documents.
  destruct chunks as [| chunk rest]; [exact Hwf |].
  destruct (opens_or_refused document_id st) as [Hopen | [Hnone [e Hbad]]].
  - destruct (create_collection_spec document_id st Hwf Hopen)
      as [st' [Hcreate [Hwf' _]]].
    unfold bind. rewrite Hcreate.
    unfold collection_add.
    destruct (zip_entries _ _ _ _) as [rows |]; cbn [snd raise]; [| exact Hwf'].
    destruct (distinct _); cbn [snd raise]; [| exact Hwf'].
    unfold collection_entries, bind. cbn [handle_name].
    destruct (chroma st' !! document_id) as [c |]; cbn [snd]; [| exact Hwf'].
    intros id h Hh. cbn in Hh. destruct (Hwf' id h Hh) as [Hn Hex].
    split; [exact Hn |]. cbn. now apply lookup_alter_is_Some.
  - unfold bind. now rewrite (create_collection_refused _ _ _ Hwf Hnone Hbad).
Qed.

End StoreFacts.
End StoreFacts.

(** ** The generator *)

Module GroqFacts.
Import Effects Schemas GroqService.

Section GroqFacts.
Context {emb : Embedder} {eng : Engine} {llm : LLM}.

(** The state once one more request has been sent. *)
Definition logged (st : State) (calls : list Call) : State :=
  {| chroma := chroma st; collections := collections st;
     llm_log := llm_log st ++ calls |}.

Lemma models_differ : negb (String.eqb model fallback_model) = true.
Proof. reflexivity. Qed.

(** The primary model answers: one request, its answer returned. *)
Lemma generate_answer_primary (question : string)
    (context_chunks : list VectorStore.Chunk) (explanation_level : ExplanationLevel)
    (chat_history : option (list (gmap string string))) (st : State) (a : string) :
  let messages := build_messages question context_chunks explanation_level chat_history in
  complete (llm_log st) (request model messages) = Ok a ->
  generate_answer question context_chunks explanation_level chat_history st
  = (Ok a, logged st [request model messages]).
Proof.
  intros messages Hok.
  unfold generate_answer, try_except, chat_completions_create.
  fold messages. rewrite Hok. reflexivity.
Qed.

(** The primary model fails: one request goes to the fallback model
    with the same messages, and its outcome decides. *)
Lemma generate_answer_fallback (question : string)
    (context_chunks : list VectorStore.Chunk) (explanation_level : ExplanationLevel)
    (chat_history : option (list (gmap string string))) (st : State) (e : Exception) :
  let messages := build_messages question context_chunks explanation_level chat_history in
  let primary := request model messages in
  let retry := request fallback_model messages in
  complete (llm_log st) primary = Raise e ->
  generate_answer question context_chunks explanation_level chat_history st
  = (match complete (llm_log st ++ [primary]) retry with
     | Ok a => Ok a
     | Raise _ => Raise (Error ("Failed to generate answer: " +:+ exc_str e))
     end,
     logged st [primary; retry]).
Proof.
  intros messages primary retry Hfail.
  unfold generate_answer, try_except, chat_completions_create, raise.
  fold messages. fold primary. fold retry.
  rewrite Hfail, models_differ. cbn [llm_log chroma collections].
  unfold logged. rewrite <- app_assoc. cbn [app].
  destruct (complete (llm_log st ++ [primary]) retry); reflexivity.
Qed.

(** C5. When the request to the primary model fails, exactly one more
    request is sent, to the fallback model, with the same messages,
    temperature 0.3, at most 2048 tokens and top-p 0.9; its answer is
    returned if it succeeds, and if it fails too the caller gets the
    generation failure.  Nothing else is sent. *)
Theorem generate_answer_retries_once (question : string)
    (context_chunks : list VectorStore.Chunk) (explanation_level : ExplanationLevel)
    (chat_history : option (list (gmap string string))) (st : State) (e : Exception) :
  let messages := build_messages question context_chunks explanation_level chat_history in
  let params (model_name : string) :=
    {| call_model := model_name; call_messages := messages;
       call_temperature := {| digits := 3; scale := 1 |};
       call_max_tokens := 2048;
       call_top_p := {| digits := 9; scale := 1 |} |} in
  let primary := params "llama-3.3-70b-versatile" in
  let retry := params "llama-3.1-8b-instant" in
  complete (llm_log st) primary = Raise e ->
  generate_answer question context_chunks explanation_level chat_history st
  = (match complete (llm_log st ++ [primary]) retry with
     | Ok a => Ok a
     | Raise _ => Raise (Error ("Failed to generate answer: " +:+ exc_str e))
     end,
     {| chroma := chroma st; collections := collections st;
        llm_log := llm_log st ++ [primary; retry] |}).
Proof.
  intros messages params primary retry Hfail.
  exact (generate_answer_fallback question context_chunks explanation_level
           chat_history st e Hfail).
Qed.

End GroqFacts.
End GroqFacts.

(** ** The RAG service *)

Module RagFacts.
Import Effects Schemas StoreFacts GroqFacts.
Import VectorStore(Chunk, chunk_content).

Section RagFacts.
Context {emb : Embedder} {eng : Engine} {llm : LLM}.

(** The turns a caller supplied. *)
Definition turns_of (chat_history : option (list ChatMessage)) : list ChatMessage :=
  match chat_history with
  | Some history => history
  | None => []
  end.

(** The entry of the message sequence for one turn, verbatim. *)
Definition turn_message (msg : ChatMessage) : Message :=
  {| msg_role := role msg; msg_content := content msg |}.

Lemma history_message_dict (msg : ChatMessage) :
  GroqService.history_message (RAGService.message_dict msg) = turn_message msg.
Proof.
  unfold GroqService.history_message, RAGService.message_dict, turn_message.
  rewrite lookup_insert_eq.
  rewrite lookup_insert_ne by discriminate. rewrite lookup_singleton_eq.
  reflexivity.
Qed.

Lemma list_last_map {A B : Type} (f : A -> B) (n : nat) (l : list A) :
  GroqService.list_last n (map f l) = map f (GroqService.list_last n l).
Proof.
  unfold GroqService.list_last. now rewrite List.length_map, List.skipn_map.
Qed.

Lemma list_last_length {A : Type} (n : nat) (l : list A) :
  length (GroqService.list_last n l) = Nat.min n (length l).
Proof. unfold GroqService.list_last. rewrite List.length_skipn. lia. Qed.

Lemma list_last_suffix {A : Type} (n : nat) (l : list A) :
  exists earlier, l = earlier ++ GroqService.list_last n l.
Proof.
  exists (firstn (length l - n) l). unfold GroqService.list_last.
  now rewrite List.firstn_skipn.
Qed.

(** The message sequence of a query: the system prompt, the last five
    turns of the caller's history, the user turn. *)
Lemma build_messages_history (question : string) (chunks : list Chunk)
    (explanation_level : ExplanationLevel) (chat_history : option (list ChatMessage)) :
  GroqService.build_messages question chunks explanation_level
    (RAGService.history_dict chat_history)
  = {| msg_role := "system";
       msg_content := GroqService._get_system_prompt explanation_level |}
    :: map turn_message (GroqService.list_last 5 (turns_of chat_history))
    ++ [{| msg_role := "user";
           msg_content :=
             GroqService.user_message (GroqService._format_context chunks) question |}].
Proof.
  unfold GroqService.build_messages, RAGService.history_dict, turns_of.
  destruct chat_history as [[| msg history] |]; try reflexivity.
  cbn [map].
  change (RAGService.message_dict msg :: map RAGService.message_dict history)
    with (map RAGService.message_dict (msg :: history)).
  cbn [app].
  rewrite list_last_map, List.map_map.
  rewrite (List.map_ext _ turn_message history_message_dict).
  reflexivity.
Qed.

(** Every request [generate_answer] sends carries the message sequence
    it built, and it sends at least one. *)
Lemma generate_answer_requests (question : string) (chunks : list Chunk)
    (explanation_level : ExplanationLevel)
    (chat_history : option (list (gmap string string))) (st : State) :
  exists r calls,
    GroqService.generate_answer question chunks explanation_level chat_history st
    = (r, logged st calls)
    /\ calls <> []
    /\ Forall (fun c => call_messages c
                        = GroqService.build_messages question chunks explanation_level
                            chat_history) calls.
Proof.
  set (messages := GroqService.build_messages question chunks explanation_level
                     chat_history).
  destruct (complete (llm_log st) (GroqService.request GroqService.model messages))
    as [a | e] eqn:E.
  - exists (Ok a), [GroqService.request GroqService.model messages].
    split; [exact (generate_answer_primary _ _ _ _ _ _ E) |].
    split; [discriminate | repeat constructor].
  - eexists _, [_; _].
    split; [exact (generate_answer_fallback _ _ _ _ _ _ E) |].
    split; [discriminate | repeat constructor].
Qed.

Lemma strlen_take (n : nat) (s : string) : (String.length (Py.str_take n s) <= n)%nat.
Proof.
  revert s. induction n as [| n IH]; intros [| c s]; cbn; try lia.
  specialize (IH s). lia.
Qed.

Lemma source_of_length (chunk : Chunk) :
  (String.length (RAGService.source_of chunk) <= 203)%nat.
Proof.
  unfold RAGService.source_of. rewrite PyFacts.strlen_app.
  change (Py.slice_to 200 (chunk_content chunk))
    with (Py.str_take 200 (chunk_content chunk)).
  pose proof (strlen_take 200 (chunk_content chunk)). cbn [String.length]. lia.
Qed.

(** C3. A query against a document without chunks.  When the collection
    of the document holds no row, or is missing under a name the engine
    accepts, the query does not get the fixed answer: [search] asks the
    client for [min(top_k, 0)] rows, the client raises, and [query]
    passes the error on.  Only when the collection is missing and the
    engine refuses the name does [search] answer with the empty list and
    [query] with the fixed answer and no source.  In both cases no
    request is sent to the LLM provider. *)
Theorem query_without_chunks_outcome (self : RAGService.RAGService)
    (document_id question : string) (explanation_level : ExplanationLevel)
    (chat_history : option (list ChatMessage)) (st : State) :
  wf st ->
  ((chroma st !! document_id = None /\ name_error document_id = None)
   \/ (exists c, chroma st !! document_id = Some c /\ coll_entries c = []) ->
   exists st',
     RAGService.query self document_id question explanation_level chat_history st
     = (Raise (Error ("Number of requested results "
                      +:+ pretty (Z.min (RAGService.top_k self) 0)
                      +:+ ", cannot be negative, or zero.")), st')
     /\ llm_log st' = llm_log st
     /\ exists c, chroma st' !! document_id = Some c /\ coll_entries c = [])
  /\ (forall msg,
        chroma st !! document_id = None ->
        name_error document_id = Some msg ->
        RAGService.query self document_id question explanation_level chat_history st
        = (Ok {| RAGService.answer :=
                   "I couldn't find relevant information in the document to answer your question. Please try rephrasing or asking about a different aspect of the paper.";
                 RAGService.sources := [] |}, st)).
Proof.
  intros Hwf. split.
  - intros Hnone.
    assert (Hsearch : exists st',
               VectorStore.search document_id question (RAGService.top_k self) st
               = (Raise (VectorStore.n_results_error
                           (Z.min (RAGService.top_k self) 0)), st')
               /\ llm_log st' = llm_log st
               /\ exists c, chroma st' !! document_id = Some c /\ coll_entries c = []).
    { destruct Hnone as [[Hmiss Hvalid] | [c [Hc Hrows]]].
      - destruct (search_missing document_id question (RAGService.top_k self) st
                    Hwf Hmiss Hvalid) as [st' [Hs [_ [Hlog Hdb]]]].
        exists st'. split; [exact Hs |]. split; [exact Hlog |].
        exists (fresh_collection document_id). rewrite Hdb, lookup_insert_eq. auto.
      - destruct (search_empty document_id question (RAGService.top_k self) st c
                    Hwf Hc Hrows) as [st' [Hs [_ [Hlog Hdb]]]].
        exists st'. split; [exact Hs |]. split; [exact Hlog |].
        exists c. rewrite Hdb. auto. }
    destruct Hsearch as [st' [Hs [Hlog Hdb]]]. exists st'.
    split; [| split; [exact Hlog | exact Hdb]].
    unfold RAGService.query, bind. rewrite Hs. reflexivity.
  - intros msg Hnone Hbad.
    unfold RAGService.query, bind.
    rewrite (search_refused _ question (RAGService.top_k self) _ _ Hwf Hnone Hbad).
    reflexivity.
Qed.

(** C4. When the retrieval is not empty and the generator answers, the
    sources of the result are the texts of the first three retrieved
    chunks at most, each cut to its first 200 characters and followed by
    three dots: at most 3 entries of at most 203 characters. *)
Theorem query_sources (self : RAGService.RAGService)
    (document_id question : string) (explanation_level : ExplanationLevel)
    (chat_history : option (list ChatMessage)) (st st1 st2 : State)
    (relevant_chunks : list Chunk) (a : string) :
  VectorStore.search document_id question (RAGService.top_k self) st
  = (Ok relevant_chunks, st1) ->
  relevant_chunks <> [] ->
  GroqService.generate_answer question relevant_chunks explanation_level
    (RAGService.history_dict chat_history) st1 = (Ok a, st2) ->
  let sources :=
    map (fun chunk => Py.slice_to 200 (chunk_content chunk) +:+ "...")
        (firstn 3 relevant_chunks) in
  RAGService.query self document_id question explanation_level chat_history st
  = (Ok {| RAGService.answer := a; RAGService.sources := sources |}, st2)
  /\ length sources = Nat.min 3 (length relevant_chunks)
  /\ Forall (fun s => (String.length s <= 203)%nat) sources.
Proof.
  intros Hsearch Hne Hgen sources. split; [| split].
  - unfold RAGService.query, bind. rewrite Hsearch.
    destruct relevant_chunks as [| c cs]; [contradiction |].
    rewrite Hgen. reflexivity.
  - subst sources. now rewrite List.length_map, List.length_firstn.
  - subst sources. apply List.Forall_forall. intros s Hin.
    apply in_map_iff in Hin. destruct Hin as [chunk [<- _]].
    apply (source_of_length chunk).
Qed.

(** C6. Of the history a caller supplies, the requests sent to the
    generator carry the last five turns at most, verbatim and in order,
    between the system prompt and the user turn; of six turns the first
    is left out. *)
Theorem query_forwards_last_five_turns (self : RAGService.RAGService)
    (document_id question : string) (explanation_level : ExplanationLevel)
    (chat_history : option (list ChatMessage)) (st st1 : State)
    (relevant_chunks : list Chunk) :
  let turns := turns_of chat_history in
  let forwarded := GroqService.list_last 5 turns in
  let messages :=
    {| msg_role := "system";
       msg_content := GroqService._get_system_prompt explanation_level |}
    :: map turn_message forwarded
    ++ [{| msg_role := "user";
           msg_content :=
             GroqService.user_message (GroqService._format_context relevant_chunks)
               question |}] in
  VectorStore.search document_id question (RAGService.top_k self) st
  = (Ok relevant_chunks, st1) ->
  relevant_chunks <> [] ->
  (exists r st2 calls,
     RAGService.query self document_id question explanation_level chat_history st
     = (r, st2)
     /\ llm_log st2 = llm_log st1 ++ calls
     /\ calls <> []
     /\ Forall (fun c => call_messages c = messages) calls)
  /\ length forwarded = Nat.min 5 (length turns)
  /\ (exists earlier, turns = earlier ++ forwarded)
  /\ (forall t1 t2 t3 t4 t5 t6,
        turns = [t1; t2; t3; t4; t5; t6] -> forwarded = [t2; t3; t4; t5; t6]).
Proof.
  intros turns forwarded messages Hsearch Hne.
  split; [| split; [apply list_last_length | split; [apply list_last_suffix |]]].
  - destruct (generate_answer_requests question relevant_chunks explanation_level
                (RAGService.history_dict chat_history) st1)
      as [r [calls [Hgen [Hcalls Hmsgs]]]].
    rewrite build_messages_history in Hmsgs.
    unfold RAGService.query, bind. rewrite Hsearch.
    destruct relevant_chunks as [| c cs]; [contradiction |].
    rewrite Hgen. destruct r as [a | e]; eexists _, _, calls; eauto.
  - intros t1 t2 t3 t4 t5 t6 Hturns. subst forwarded. now rewrite Hturns.
Qed.

(** What [query] does with the outcome of [search]. *)
Lemma query_of_search (self : RAGService.RAGService) (document_id question : string)
    (explanation_level : ExplanationLevel) (chat_history : option (list ChatMessage))
    (st st1 : State) (found : result (list Chunk)) :
  VectorStore.search document_id question (RAGService.top_k self) st = (found, st1) ->
  RAGService.query self document_id question explanation_level chat_history st
  = match found with
    | Raise e => (Raise e, st1)
    | Ok [] =>
        (Ok {| RAGService.answer := RAGService.no_relevant_information;
               RAGService.sources := [] |}, st1)
    | Ok relevant_chunks =>
        match GroqService.generate_answer question relevant_chunks explanation_level
                (RAGService.history_dict chat_history) st1 with
        | (Ok a, st2) =>
            (Ok {| RAGService.answer := a;
                   RAGService.sources :=
                     map RAGService.source_of (firstn 3 relevant_chunks) |}, st2)
        | (Raise e, st2) => (Raise e, st2)
        end
    end.
Proof.
  intros Hs. unfold RAGService.query, bind. rewrite Hs.
  destruct found as [[| c cs] | e]; reflexivity.
Qed.

(** The queries keep the invariant of the store. *)
Lemma query_wf (self : RAGService.RAGService) (document_id question : string)
    (explanation_level : ExplanationLevel) (chat_history : option (list ChatMessage))
    (st : State) :
  wf st ->
  wf (snd (RAGService.query self document_id question explanation_level
             chat_history st)).
Proof.
  intros Hwf.
  pose proof (search_wf document_id question (RAGService.top_k self) st Hwf) as Hwf1.
  destruct (VectorStore.search document_id question (RAGService.top_k self) st)
    as [found st1] eqn:Hs.
  rewrite (query_of_search self _ _ explanation_level chat_history _ _ _ Hs).
  cbn [snd] in Hwf1.
  destruct found as [[| chunk rest] | e]; [exact Hwf1 | | exact Hwf1].
  destruct (generate_answer_requests question (chunk :: rest) explanation_level
              (RAGService.history_dict chat_history) st1)
    as [r [calls [Hgen _]]].
  rewrite Hgen. destruct r; exact Hwf1.
Qed.

End RagFacts.
End RagFacts.

(** ** The endpoints *)

Module EndpointFacts.
Import Effects Schemas StoreFacts.
Import Endpoints(Extractor, extract_text, file_name, file_content, MAX_FILE_SIZE).

Section EndpointFacts.
Context {emb : Embedder} {eng : Engine} {llm : LLM} {ext : Extractor}.

(** The answer of the delete endpoint follows the store: 204 for
    [True], the 404 exception for [False]. *)
Lemma delete_endpoint_status (rag : RAGService.RAGService) (document_id : string)
    (st st' : State) (success : bool) :
  VectorStore.delete_document document_id st = (Ok success, st') ->
  Endpoints.delete_document (Some rag) document_id st
  = (if success then Ok 204
     else Raise (HTTPException 404 ("Document " +:+ document_id +:+ " not found")),
     st').
Proof.
  intros Hdel.
  unfold Endpoints.delete_document, RAGService.delete_document, try_except, bind.
  rewrite Hdel. now destruct success.
Qed.

(** What the next [search] for a deleted or unknown id answers: the
    client's error for a request of no row when the engine accepts the
    id as the name of a new collection, which [search] creates; the
    empty list, and nothing created, when it refuses the id. *)
Lemma search_unknown (document_id query : string) (top_k : Z) (st : State) :
  wf st ->
  chroma st !! document_id = None ->
  exists st',
    VectorStore.search document_id query top_k st
    = (match name_error document_id with
       | None => Raise (VectorStore.n_results_error (Z.min top_k 0))
       | Some _ => Ok []
       end, st')
    /\ llm_log st' = llm_log st
    /\ chroma st'
       = match name_error document_id with
         | None => <[document_id := fresh_collection document_id]> (chroma st)
         | Some _ => chroma st
         end.
Proof.
  intros Hwf Hnone.
  destruct (name_error document_id) as [msg |] eqn:Hv.
  - exists st. now rewrite (search_refused _ query top_k _ _ Hwf Hnone Hv).
  - destruct (search_missing document_id query top_k st Hwf Hnone Hv)
      as [st' [Hs [_ [Hlog Hdb]]]].
    exists st'. auto.
Qed.

(** C8. Deleting a document id the store does not hold answers
    not-found and leaves the state as it was.  Deleting one it holds
    succeeds: the collection is gone, the other collections are kept,
    and no search for the id gets a chunk afterwards: it either raises
    or answers with the empty list, and the collection it may leave
    behind holds no row. *)
Theorem delete_document_status (rag : RAGService.RAGService) (document_id : string)
    (st : State) :
  wf st ->
  (chroma st !! document_id = None ->
   VectorStore.delete_document document_id st = (Ok false, st)
   /\ Endpoints.delete_document (Some rag) document_id st
      = (Raise (HTTPException 404 ("Document " +:+ document_id +:+ " not found")), st))
  /\ (is_Some (chroma st !! document_id) ->
      exists st',
        VectorStore.delete_document document_id st = (Ok true, st')
        /\ Endpoints.delete_document (Some rag) document_id st = (Ok 204, st')
        /\ chroma st' !! document_id = None
        /\ (forall other, other <> document_id ->
              chroma st' !! other = chroma st !! other)
        /\ forall query top_k,
             exists st'',
               VectorStore.search document_id query top_k st'
               = (match name_error document_id with
                  | None => Raise (VectorStore.n_results_error (Z.min top_k 0))
                  | Some _ => Ok []
                  end, st'')
               /\ forall c, chroma st'' !! document_id = Some c -> coll_entries c = []).
Proof.
  intros Hwf. split.
  - intros Hnone. pose proof (delete_missing document_id st Hwf Hnone) as Hdel.
    split; [exact Hdel |].
    exact (delete_endpoint_status rag document_id st st false Hdel).
  - intros [c Hc].
    destruct (delete_present document_id st c Hwf Hc) as [Hdel Hwf'].
    eexists. split; [exact Hdel |].
    split; [exact (delete_endpoint_status rag document_id st _ true Hdel) |].
    cbn [chroma]. split; [apply lookup_delete_eq |].
    split; [intros other Hne; now apply lookup_delete_ne |].
    intros query top_k.
    destruct (search_unknown document_id query top_k _ Hwf' (lookup_delete_eq _ _))
      as [st'' [Hs [_ Hdb]]].
    exists st''. split; [exact Hs |].
    intros c' Hc'. rewrite Hdb in Hc'.
    destruct (name_error document_id).
    + cbn in Hc'. rewrite lookup_delete_eq in Hc'. discriminate.
    + rewrite lookup_insert_eq in Hc'. now injection Hc' as <-.
Qed.

(** C10. A search for a document id without a collection, when the
    engine accepts the id as the name of a collection, creates the empty
    collection of that id before it fails on the request of no row.
    Deleting the id, which answers not-found before the search, succeeds
    after it, though nothing was ever uploaded under the id, and takes
    the collection away again. *)
Theorem search_creates_collection (rag : RAGService.RAGService)
    (document_id query : string) (top_k : Z) (st : State) :
  wf st ->
  chroma st !! document_id = None ->
  name_error document_id = None ->
  VectorStore.delete_document document_id st = (Ok false, st)
  /\ exists st' st'',
       VectorStore.search document_id query top_k st
       = (Raise (VectorStore.n_results_error (Z.min top_k 0)), st')
       /\ chroma st'
          = <[document_id := {| coll_metadata := {[ "document_id" := document_id ]};
                                coll_entries := [] |}]> (chroma st)
       /\ VectorStore.delete_document document_id st' = (Ok true, st'')
       /\ Endpoints.delete_document (Some rag) document_id st' = (Ok 204, st'')
       /\ chroma st'' = chroma st.
Proof.
  intros Hwf Hnone Hvalid.
  split; [exact (delete_missing document_id st Hwf Hnone) |].
  destruct (search_missing document_id query top_k st Hwf Hnone Hvalid)
    as [st' [Hs [Hwf' [_ Hdb]]]].
  assert (Hc : chroma st' !! document_id = Some (fresh_collection document_id)).
  { rewrite Hdb. apply lookup_insert_eq. }
  destruct (delete_present document_id st' _ Hwf' Hc) as [Hdel _].
  eexists st', _. split; [exact Hs |].
  split; [exact Hdb |]. split; [exact Hdel |].
  split; [exact (delete_endpoint_status rag document_id st' _ true Hdel) |].
  cbn [chroma]. rewrite Hdb. rewrite delete_insert_eq. now apply delete_id.
Qed.

(** C2. An upload whose extracted text is blank, or whose text gives no
    chunk, is refused with status 400, and the store is as it was
    before the request: nothing was indexed. *)
Theorem upload_rejects_blank_text (pdf : PDFProcessor.PDFProcessor)
    (rag : RAGService.RAGService) (file : Endpoints.UploadFile)
    (name document_id text : string) (page_count : Z) (st : State) :
  file_name file = Some name ->
  Py.truthy name && Endpoints.endswith (Endpoints.lower name) ".pdf" = true ->
  Py.len (file_content file) <= MAX_FILE_SIZE ->
  extract_text (file_content file) = Ok (text, page_count) ->
  PyFacts.all_space text = true
  \/ PDFProcessor.chunk_text text PDFProcessor.default_chunk_size
       PDFProcessor.default_chunk_overlap = [] ->
  exists status detail,
    Endpoints.upload_document (Some pdf) (Some rag) file document_id st
    = (Raise (HTTPException status detail), st)
    /\ 400 <= status < 500.
Proof.
  intros Hname Hpdf Hsize Hextract Hblank.
  assert (Hsp : PyFacts.all_space text = true).
  { destruct Hblank as [Hb | Hnil]; [exact Hb |].
    destruct (PyFacts.all_space text) eqn:E; [reflexivity |].
    apply (ChunkerFacts.chunk_text_nonempty text PDFProcessor.default_chunk_size
             PDFProcessor.default_chunk_overlap) in E.
    contradiction. }
  exists 400,
    "Could not extract text from PDF. Please ensure the PDF contains readable text.".
  split; [| lia].
  unfold Endpoints.upload_document. rewrite Hname, Hpdf.
  destruct (Z.gtb_spec (Py.len (file_content file)) MAX_FILE_SIZE) as [Hgt | _]; [lia |].
  unfold try_except, bind. rewrite Hextract. cbn [fst snd].
  apply PyFacts.strip_empty_iff in Hsp. rewrite Hsp.
  now rewrite orb_true_r.
Qed.

End EndpointFacts.
End EndpointFacts.

(** ** The claims on concrete collaborators *)

Module Demo.
Import Effects Schemas StoreFacts.

(** A toy embedding model: the length of the text. *)
Definition embedder : Embedder :=
  {| embedding := nat; encode := String.length |}.

(** A letter or a digit. *)
Definition alnum (c : ascii) : bool :=
  let n := nat_of_ascii c in
  ((48 <=? n) && (n <=? 57) || (65 <=? n) && (n <=? 90)
   || (97 <=? n) && (n <=? 122))%nat.

(** A character of a collection name: a letter, a digit, or one of
    [.], [_] and [-]. *)
Definition name_char (c : ascii) : bool :=
  let n := nat_of_ascii c in
  (alnum c || (n =? 46) || (n =? 95) || (n =? 45))%nat.

(** A name rule of the kind the database has: 3 to 63 characters of a
    name, the first and the last a letter or a digit. *)
Definition name_accepted (name : string) : bool :=
  let cs := list_ascii_of_string name in
  ((3 <=? length cs) && (length cs <=? 63))%nat
  && forallb name_char cs
  && match cs with c :: _ => alnum c | [] => false end
  && match rev cs with c :: _ => alnum c | [] => false end.

(** A toy engine: names checked by [name_accepted], the rows in the
    order of the collection, at distance 0. *)
Definition engine : @Engine embedder :=
  {| distance := nat;
     name_error := fun name =>
       if name_accepted name then None
       else Some ("Expected a collection name of 3 to 63 characters from "
                  +:+ "[a-zA-Z0-9._-] that starts and ends with a letter "
                  +:+ "or a digit, got " +:+ name);
     nearest := fun _ rows => map (fun row => (row, 0%nat)) rows |}.

(** A provider that always answers. *)
Definition llm_up : LLM := {| complete := fun _ _ => Ok "An answer." |}.

(** A provider whose primary model is down. *)
Definition llm_primary_down : LLM :=
  {| complete := fun _ call =>
       if String.eqb (call_model call) GroqService.model
       then Raise (Error "rate limit exceeded")
       else Ok "An answer of the fallback model." |}.

(** An extraction that finds no text, as for a scanned paper. *)
Definition extractor_blank : Endpoints.Extractor :=
  {| Endpoints.extract_text := fun _ => Ok ("  ", 3) |}.

Definition rag : RAGService.RAGService := {| RAGService.top_k := 5 |}.

(** No collection at all. *)
Definition st_empty : @State embedder := startup ∅.

(** One document of two chunks, indexed by [add_document]. *)
Definition st_indexed : @State embedder :=
  snd (RAGService.add_document (eng := engine) rag "doc-1"
         ["Transformers use attention."; "Attention is all you need."] st_empty).

Definition six_turns : list ChatMessage :=
  [ {| role := "user"; content := "q1" |};
    {| role := "assistant"; content := "a1" |};
    {| role := "user"; content := "q2" |};
    {| role := "assistant"; content := "a2" |};
    {| role := "user"; content := "q3" |};
    {| role := "assistant"; content := "a3" |} ].

Lemma wf_st_empty : wf st_empty.
Proof. apply wf_startup. Qed.

Lemma wf_st_indexed : wf st_indexed.
Proof. apply (add_documents_wf (eng := engine)), wf_st_empty. Qed.

(** What a search in [st_indexed] for the indexed document retrieves,
    and the state it leaves. *)
Definition demo_chunk (text : string) (index : Z) : VectorStore.Chunk (eng := engine) :=
  @VectorStore.Build_Chunk embedder engine text (Some 0%nat)
    {[ "chunk_index" := PyInt index; "document_id" := PyStr "doc-1" ]}.

Definition demo_chunks : list (VectorStore.Chunk (eng := engine)) :=
  [ demo_chunk "Transformers use attention." 0;
    demo_chunk "Attention is all you need." 1 ].

Definition st_searched : @State embedder :=
  snd (VectorStore.search (eng := engine) "doc-1" "what" 5 st_indexed).

Lemma demo_search :
  VectorStore.search (eng := engine) "doc-1" "what" (RAGService.top_k rag) st_indexed
  = (Ok demo_chunks, st_searched).
Proof. vm_compute. reflexivity. Qed.

Lemma demo_chunks_nonempty : demo_chunks <> [].
Proof. discriminate. Qed.

Lemma query_without_chunks_outcome_witness :
  wf st_indexed
  /\ chroma st_indexed !! "doc-2" = None
  /\ name_error (Engine := engine) "doc-2" = None
  /\ exists st',
       RAGService.query (eng := engine) (llm := llm_up) rag "doc-2" "what" STUDENT
         (Some six_turns) st_indexed
       = (Raise (Error "Number of requested results 0, cannot be negative, or zero."),
          st')
       /\ llm_log st' = llm_log st_indexed.
Proof.
  assert (Hnone : chroma st_indexed !! "doc-2" = None) by (vm_compute; reflexivity).
  assert (Hvalid : name_error (Engine := engine) "doc-2" = None)
    by (vm_compute; reflexivity).
  split; [exact wf_st_indexed |]. split; [exact Hnone |]. split; [exact Hvalid |].
  destruct (RagFacts.query_without_chunks_outcome (eng := engine) (llm := llm_up) rag
              "doc-2" "what" STUDENT (Some six_turns) st_indexed wf_st_indexed)
    as [Hraises _].
  destruct (Hraises (or_introl (conj Hnone Hvalid))) as [st' [Hq [Hlog _]]].
  exists st'. split; [exact Hq | exact Hlog].
Defined.

Lemma query_sources_witness :
  VectorStore.search (eng := engine) "doc-1" "what" (RAGService.top_k rag) st_indexed
  = (Ok demo_chunks, st_searched)
  /\ demo_chunks <> []
  /\ fst (RAGService.query (eng := engine) (llm := llm_up) rag "doc-1" "what" STUDENT
            None st_indexed)
     = Ok {| RAGService.answer := "An answer.";
             RAGService.sources :=
               ["Transformers use attention...."; "Attention is all you need...."] |}.
Proof.
  split; [exact demo_search |]. split; [exact demo_chunks_nonempty |].
  destruct (RagFacts.query_sources (eng := engine) (llm := llm_up) rag
              "doc-1" "what" STUDENT None st_indexed st_searched
              (snd (GroqService.generate_answer (eng := engine) (llm := llm_up)
                      "what" demo_chunks STUDENT None st_searched))
              demo_chunks "An answer."
              demo_search demo_chunks_nonempty eq_refl) as [Hq _].
  rewrite Hq. reflexivity.
Defined.

Lemma query_forwards_last_five_turns_witness :
  VectorStore.search (eng := engine) "doc-1" "what" (RAGService.top_k rag) st_indexed
  = (Ok demo_chunks, st_searched)
  /\ demo_chunks <> []
  /\ GroqService.list_last 5 six_turns
     = [ {| role := "assistant"; content := "a1" |};
         {| role := "user"; content := "q2" |};
         {| role := "assistant"; content := "a2" |};
         {| role := "user"; content := "q3" |};
         {| role := "assistant"; content := "a3" |} ]
  /\ exists r st2 calls,
       RAGService.query (eng := engine) (llm := llm_primary_down) rag "doc-1" "what"
         RESEARCHER (Some six_turns) st_indexed = (r, st2)
       /\ llm_log st2 = llm_log st_searched ++ calls
       /\ calls <> [].
Proof.
  split; [exact demo_search |]. split; [exact demo_chunks_nonempty |].
  destruct (RagFacts.query_forwards_last_five_turns (eng := engine)
              (llm := llm_primary_down) rag "doc-1" "what" RESEARCHER
              (Some six_turns) st_indexed st_searched demo_chunks
              demo_search demo_chunks_nonempty)
    as [[r [st2 [calls [Hq [Hlog [Hne _]]]]]] [_ [_ Hsix]]].
  split; [exact (Hsix _ _ _ _ _ _ eq_refl) |].
  exists r, st2, calls. split; [exact Hq |]. split; [exact Hlog | exact Hne].
Defined.

Lemma generate_answer_retries_once_witness :
  complete (LLM := llm_primary_down) (llm_log st_searched)
    (GroqService.request GroqService.model
       (GroqService.build_messages "what" demo_chunks STUDENT None))
  = Raise (Error "rate limit exceeded")
  /\ GroqService.generate_answer (eng := engine) (llm := llm_primary_down)
       "what" demo_chunks STUDENT None st_searched
     = (Ok "An answer of the fallback model.",
        GroqFacts.logged st_searched
          [ GroqService.request GroqService.model
              (GroqService.build_messages "what" demo_chunks STUDENT None);
            GroqService.request GroqService.fallback_model
              (GroqService.build_messages "what" demo_chunks STUDENT None) ]).
Proof.
  split; [reflexivity |].
  exact (GroqFacts.generate_answer_retries_once (eng := engine)
           (llm := llm_primary_down) "what" demo_chunks STUDENT None st_searched
           (Error "rate limit exceeded") eq_refl).
Defined.

Lemma delete_document_status_witness :
  wf st_indexed
  /\ chroma st_indexed !! "doc-2" = None
  /\ is_Some (chroma st_indexed !! "doc-1")
  /\ VectorStore.delete_document "doc-2" st_indexed
     = (Ok false, st_indexed)
  /\ exists st',
       Endpoints.delete_document (Some rag) "doc-1" st_indexed
       = (Ok 204, st')
       /\ chroma st' !! "doc-1" = None
       /\ fst (VectorStore.search (eng := engine) "doc-1" "what" 5 st')
          = Raise (Error "Number of requested results 0, cannot be negative, or zero.").
Proof.
  assert (Hnone : chroma st_indexed !! "doc-2" = None) by (vm_compute; reflexivity).
  assert (Hsome : is_Some (chroma st_indexed !! "doc-1")) by (vm_compute; eauto).
  split; [exact wf_st_indexed |]. split; [exact Hnone |]. split; [exact Hsome |].
  split.
  - destruct (EndpointFacts.delete_document_status (emb := embedder) (eng := engine)
                rag "doc-2" st_indexed wf_st_indexed) as [Hmiss _].
    exact (proj1 (Hmiss Hnone)).
  - destruct (EndpointFacts.delete_document_status (emb := embedder) (eng := engine)
                rag "doc-1" st_indexed wf_st_indexed) as [_ Hheld].
    destruct (Hheld Hsome) as [st' [_ [Hend [Hgone [_ Hsearch]]]]].
    exists st'. split; [exact Hend |]. split; [exact Hgone |].
    destruct (Hsearch "what" 5) as [st'' [Hs _]].
    rewrite Hs. reflexivity.
Defined.

Lemma search_creates_collection_witness :
  wf st_empty
  /\ chroma st_empty !! "doc-9" = None
  /\ name_error (Engine := engine) "doc-9" = None
  /\ VectorStore.delete_document "doc-9" st_empty = (Ok false, st_empty)
  /\ exists st' st'',
       VectorStore.search (eng := engine) "doc-9" "what" 5 st_empty
       = (Raise (Error "Number of requested results 0, cannot be negative, or zero."),
          st')
       /\ is_Some (chroma st' !! "doc-9")
       /\ VectorStore.delete_document "doc-9" st' = (Ok true, st'').
Proof.
  assert (Hnone : chroma st_empty !! "doc-9" = None) by reflexivity.
  assert (Hvalid : name_error (Engine := engine) "doc-9" = None)
    by (vm_compute; reflexivity).
  split; [exact wf_st_empty |]. split; [exact Hnone |]. split; [exact Hvalid |].
  destruct (EndpointFacts.search_creates_collection (eng := engine) rag
              "doc-9" "what" 5 st_empty wf_st_empty Hnone Hvalid)
    as [Hbefore [st' [st'' [Hs [Hc [Hdel _]]]]]].
  split; [exact Hbefore |].
  exists st', st''. split; [exact Hs |].
  split; [rewrite Hc, lookup_insert_eq; eauto | exact Hdel].
Defined.

(** The engine refuses the id [my paper], for its space: a search for
    it creates no collection, and deleting it afterwards answers
    not-found as it did before. *)
Lemma search_refused_name_creates_nothing :
  chroma st_empty !! "my paper" = None
  /\ VectorStore.search (eng := engine) "my paper" "what" 5 st_empty
     = (Ok [], st_empty)
  /\ VectorStore.delete_document "my paper" st_empty
     = (Ok false, st_empty)
  /\ Endpoints.delete_document (Some rag) "my paper" st_empty
     = (Raise (HTTPException 404 "Document my paper not found"), st_empty).
Proof.
  split; [reflexivity |]. split; [vm_compute; reflexivity |].
  split; vm_compute; reflexivity.
Qed.

Definition scanned_paper : Endpoints.UploadFile :=
  {| Endpoints.file_name := Some "Scanned.PDF"; Endpoints.file_content := "%PDF-1.7" |}.

Lemma upload_rejects_blank_text_witness :
  Endpoints.file_name scanned_paper = Some "Scanned.PDF"
  /\ Py.truthy "Scanned.PDF"
     && Endpoints.endswith (Endpoints.lower "Scanned.PDF") ".pdf" = true
  /\ Py.len (Endpoints.file_content scanned_paper) <= Endpoints.MAX_FILE_SIZE
  /\ Endpoints.extract_text (Extractor := extractor_blank)
       (Endpoints.file_content scanned_paper) = Ok ("  ", 3)
  /\ PyFacts.all_space "  " = true
  /\ exists status detail,
       Endpoints.upload_document (eng := engine) (ext := extractor_blank)
         (Some PDFProcessor.Build_PDFProcessor) (Some rag) scanned_paper "uuid-1"
         st_empty
       = (Raise (HTTPException status detail), st_empty)
       /\ 400 <= status < 500.
Proof.
  assert (Hsize : Py.len (Endpoints.file_content scanned_paper)
                  <= Endpoints.MAX_FILE_SIZE) by (vm_compute; discriminate).
  split; [reflexivity |]. split; [reflexivity |]. split; [exact Hsize |].
  split; [reflexivity |]. split; [reflexivity |].
  exact (EndpointFacts.upload_rejects_blank_text (eng := engine)
           (ext := extractor_blank) PDFProcessor.Build_PDFProcessor rag scanned_paper
           "Scanned.PDF" "uuid-1" "  " 3 st_empty
           eq_refl eq_refl Hsize eq_refl (or_introl eq_refl)).
Defined.

End Demo.

(** ** More about the chunker *)

Module ChunkerMore.
Import Py PyFacts SplitFacts PDFProcessor ChunkerFacts.

(** A chunk as [chunk_text] hands it out: not empty, no whitespace at
    either end. *)
Definition trimmed (c : string) : Prop := strip c = c /\ c <> "".

Lemma strip_trimmed (t : string) : all_space t = false -> trimmed (strip t).
Proof.
  intros Ht. split; [apply strip_idem |].
  intros He. apply strip_empty_iff in He. congruence.
Qed.

Lemma trimmed_not_blank (c : string) : trimmed c -> all_space c = false.
Proof.
  intros [Hfix Hne]. destruct (all_space c) eqn:E; [| reflexivity].
  apply strip_empty_iff in E. congruence.
Qed.

Lemma paragraph_emit_trimmed (cs ov : Z) (paragraphs : list string) (cur : string) :
  buffer_ok cur -> Forall trimmed (paragraph_emit cs ov paragraphs cur).
Proof.
  intros Hcur.
  pose proof (paragraph_emit_not_blank cs ov paragraphs cur Hcur) as Hnb.
  revert cur Hcur Hnb. induction paragraphs as [| para rest IH]; intros cur Hcur Hnb.
  - cbn [paragraph_emit] in *. destruct (truthy (strip cur)); [| constructor].
    inversion Hnb as [| ? ? Hc _]; subst.
    constructor; [| constructor]. split; [apply strip_idem |].
    intros He. rewrite He in Hc. discriminate.
  - cbn [paragraph_emit] in *.
    pose proof (paragraph_step_buffer_ok cs ov cur para Hcur) as Hnext.
    apply Forall_app in Hnb. destruct Hnb as [Hout Hrest].
    apply Forall_app. split; [| now apply IH].
    destruct (paragraph_step_cases cs ov cur para)
      as [[Hp Hst] | [[Hp [Hne Hst]] | [[Hp [Hne Hst]] | [Hp [He Hst]]]]];
      rewrite Hst in *; cbn [fst] in *; try constructor; [| constructor].
    inversion Hout as [| ? ? Hc _]; subst.
    split; [apply strip_idem |]. intros He. rewrite He in Hc. discriminate.
Qed.

Lemma sentence_fold_trimmed (cs : Z) (todo acc : list string) (temp : string) :
  Forall (fun s => all_space s = false) todo ->
  Forall trimmed acc ->
  temp = "" \/ all_space temp = false ->
  let st := fold_left (sentence_step cs) todo (acc, temp) in
  Forall trimmed (fst st) /\ (snd st = "" \/ all_space (snd st) = false).
Proof.
  revert acc temp. induction todo as [| s rest IH]; intros acc temp Hall Hacc Htemp.
  - cbn [fold_left fst snd]. now split.
  - cbn [fold_left]. inversion Hall as [| ? ? Hs Hrest]; subst.
    pose proof (sentence_step_not_blank cs acc temp s Hs) as Hnext.
    assert (Hacc' : Forall trimmed (fst (sentence_step cs (acc, temp) s))).
    { unfold sentence_step.
      destruct (truthy temp) eqn:Et; cbn [andb]; [| exact Hacc].
      destruct (len temp + len s >? cs); cbn [fst]; [| exact Hacc].
      apply Forall_app. split; [exact Hacc |]. constructor; [| constructor].
      apply strip_trimmed. destruct Htemp as [-> | Ht]; [discriminate | exact Ht]. }
    destruct (sentence_step cs (acc, temp) s) as [acc' temp'].
    apply IH; [exact Hrest | exact Hacc' | now right].
Qed.

Lemma chunk_step_trimmed (cs : Z) (acc : list string) (chunk : string) :
  trimmed chunk -> Forall trimmed acc -> Forall trimmed (chunk_step cs acc chunk).
Proof.
  intros Hc Hacc. unfold chunk_step.
  destruct (len chunk <=? cs).
  - apply Forall_app. split; [exact Hacc |]. constructor; [exact Hc | constructor].
  - pose proof (sentence_fold_trimmed cs (_split_sentences chunk) acc ""
                  (sentences_not_blank chunk) Hacc (or_introl eq_refl)) as Hfold.
    destruct (fold_left (sentence_step cs) (_split_sentences chunk) (acc, ""))
      as [acc' temp'].
    cbn [fst snd] in Hfold. destruct Hfold as [Hacc' Htemp].
    destruct (truthy (strip temp')) eqn:Et; [| exact Hacc'].
    apply Forall_app. split; [exact Hacc' |]. constructor; [| constructor].
    apply strip_trimmed. destruct Htemp as [-> | Ht]; [discriminate | exact Ht].
Qed.

(** X3. Every chunk [chunk_text] returns holds text and carries no
    whitespace at its head or at its end. *)
Theorem chunk_text_chunks_trimmed (text : string) (cs ov : Z) :
  Forall (fun c => strip c = c /\ c <> "") (chunk_text text cs ov).
Proof.
  unfold chunk_text.
  destruct (negb (truthy text) || negb (truthy (strip text))); [constructor |].
  rewrite paragraph_chunks_emit.
  assert (Hgen : forall chunks acc,
             Forall trimmed chunks -> Forall trimmed acc ->
             Forall trimmed (fold_left (chunk_step cs) chunks acc)).
  { induction chunks as [| c rest IH]; intros acc Hch Hacc; [exact Hacc |].
    inversion Hch; subst. cbn [fold_left]. apply IH; [assumption |].
    now apply chunk_step_trimmed. }
  apply Hgen; [| constructor]. apply paragraph_emit_trimmed. now left.
Qed.

(** X2. A text that holds anything but whitespace gives at least one
    chunk, for any chunk size and overlap, also senseless ones. *)
Theorem chunk_text_yields_chunk (text : string) (cs ov : Z) :
  all_space text = false -> chunk_text text cs ov <> [].
Proof. apply chunk_text_nonempty. Qed.

Lemma chunk_text_yields_chunk_witness :
  all_space " x " = false /\ chunk_text " x " (-3) (-1) <> [].
Proof.
  split; [reflexivity |].
  apply (chunk_text_yields_chunk " x " (-3) (-1)). reflexivity.
Defined.

(** Whether two line feeds in a row occur in the text. *)
Fixpoint has_blank_line (s : string) : bool :=
  match s with
  | EmptyString => false
  | String c1 rest =>
      match rest with
      | String c2 _ => (Ascii.eqb c1 nl && Ascii.eqb c2 nl) || has_blank_line rest
      | EmptyString => false
      end
  end.

Lemma split_without_blank_line (s : string) :
  has_blank_line s = false -> split_blank_line s = [s].
Proof.
  assert (Hboth : (has_blank_line s = false -> split_blank_line s = [s])
                  /\ forall c, has_blank_line (String c s) = false ->
                               split_blank_line (String c s) = [String c s]).
  { induction s as [| a s [IH1 IH2]].
    - split; [reflexivity |]. intros c _. reflexivity.
    - split; [apply IH2 |]. intros c Hno.
      change (has_blank_line (String c (String a s)))
        with ((Ascii.eqb c nl && Ascii.eqb a nl) || has_blank_line (String a s)) in Hno.
      apply orb_false_iff in Hno. destruct Hno as [Hpair Hrest].
      change (split_blank_line (String c (String a s)))
        with (if Ascii.eqb c nl && Ascii.eqb a nl
              then EmptyString :: split_blank_line s
              else push c (split_blank_line (String a s))).
      rewrite Hpair, (IH2 a Hrest). reflexivity. }
  apply Hboth.
Qed.

(** X4. A text of one paragraph (no blank line in it) that fits in
    [chunk_size] once stripped becomes exactly one chunk, the stripped
    text. *)
Theorem chunk_text_single_paragraph (text : string) (cs ov : Z) :
  has_blank_line text = false ->
  all_space text = false ->
  len (strip text) <= cs ->
  chunk_text text cs ov = [strip text].
Proof.
  intros Hno Hns Hfit. unfold chunk_text.
  assert (Ht : truthy text = true).
  { apply truthy_true. intros ->. discriminate. }
  assert (Hst : truthy (strip text) = true).
  { apply truthy_true. intros He. apply strip_empty_iff in He. congruence. }
  rewrite Ht, Hst. cbn [negb orb].
  rewrite paragraph_chunks_emit, (split_without_blank_line text Hno).
  cbn [paragraph_emit]. unfold paragraph_step. rewrite Hst. cbn [negb truthy andb fst snd].
  change (truthy "") with false. cbn [andb fst snd app].
  rewrite strip_idem, Hst. cbn [fold_left]. unfold chunk_step.
  destruct (Z.leb_spec (len (strip text)) cs); [reflexivity | lia].
Qed.

Lemma chunk_text_single_paragraph_witness :
  has_blank_line "  One line. Two.  " = false
  /\ all_space "  One line. Two.  " = false
  /\ len (strip "  One line. Two.  ") <= 1000
  /\ chunk_text "  One line. Two.  " 1000 200 = ["One line. Two."].
Proof.
  assert (Hfit : len (strip "  One line. Two.  ") <= 1000) by (vm_compute; discriminate).
  split; [reflexivity |]. split; [reflexivity |]. split; [exact Hfit |].
  exact (chunk_text_single_paragraph "  One line. Two.  " 1000 200
           eq_refl eq_refl Hfit).
Defined.

(** *** Sentences *)

Lemma filter_blank_pieces (pieces : list string) :
  forallb all_space pieces = true ->
  List.filter (fun s => truthy (strip s)) pieces = [].
Proof.
  induction pieces as [| p ps IH]; intros Hall; [reflexivity |].
  cbn [forallb] in Hall. apply andb_true_iff in Hall. destruct Hall as [Hp Hps].
  cbn [List.filter]. apply strip_empty_iff in Hp. rewrite Hp. cbn. now apply IH.
Qed.

(** X5. [_split_sentences] finds no sentence exactly in a blank text,
    and each sentence it finds holds text and is stripped. *)
Theorem split_sentences_blank_iff (text : string) :
  (_split_sentences text = [] <-> all_space text = true)
  /\ Forall (fun s => strip s = s /\ s <> "") (_split_sentences text).
Proof.
  split; [split |].
  - intros Hnil. destruct (all_space text) eqn:E; [reflexivity |].
    now apply split_sentences_nonempty in E.
  - intros Hblank. unfold _split_sentences, re_split_sentences.
    rewrite filter_blank_pieces; [reflexivity |].
    now rewrite re_split_scan_all_space.
  - apply List.Forall_forall. intros s Hs. now apply split_sentences_stripped in Hs.
Qed.

(** No terminator of a sentence is followed by whitespace in [s];
    [after] tells whether a terminator stands just before [s]. *)
Fixpoint unbroken (after : bool) (s : string) : bool :=
  match s with
  | EmptyString => true
  | String c rest =>
      if isspace c then negb after && unbroken false rest
      else unbroken (is_terminator c) rest
  end.

Definition after_terminator (st : scan_state) : bool :=
  match st with
  | AfterTerminator => true
  | _ => false
  end.

Lemma unbroken_weaken (after : bool) (s : string) :
  unbroken after s = true -> unbroken false s = true.
Proof.
  destruct s as [| c rest]; [reflexivity |]. cbn [unbroken].
  destruct (isspace c); [| tauto].
  intros Hu. apply andb_true_iff in Hu. now destruct Hu as [_ ->].
Qed.

(** The split leaves an unbroken text in one piece. *)
Lemma re_split_scan_unbroken (st : scan_state) (s : string) :
  st <> InSeparator ->
  unbroken (after_terminator st) s = true -> re_split_scan st s = [s].
Proof.
  revert st. induction s as [| c rest IH]; intros st Hst Hu; [reflexivity |].
  cbn [re_split_scan unbroken] in *.
  destruct (isspace c) eqn:Ec.
  - apply andb_true_iff in Hu. destruct Hu as [Hafter Hrest].
    destruct st; [| discriminate | contradiction].
    rewrite (IH Plain) by (discriminate || assumption). reflexivity.
  - destruct (is_terminator c).
    + rewrite (IH AfterTerminator) by (discriminate || assumption). reflexivity.
    + rewrite (IH Plain) by (discriminate || assumption). reflexivity.
Qed.

(** The pieces of the split are unbroken, the first one from the state
    the scan starts in. *)
Definition pieces_unbroken (after : bool) (pieces : list string) : Prop :=
  match pieces with
  | [] => True
  | p :: ps => unbroken after p = true /\ Forall (fun q => unbroken false q = true) ps
  end.

Lemma re_split_scan_pieces (st : scan_state) (s : string) :
  pieces_unbroken (after_terminator st) (re_split_scan st s).
Proof.
  revert st. induction s as [| c rest IH]; intros st.
  - cbn. split; [reflexivity | constructor].
  - cbn [re_split_scan]. destruct (isspace c) eqn:Ec.
    + destruct st.
      * specialize (IH Plain). cbn [after_terminator] in IH.
        destruct (re_split_scan Plain rest) as [| p ps]; cbn [push pieces_unbroken].
        -- cbn. rewrite Ec. split; [reflexivity | constructor].
        -- destruct IH as [Hp Hps]. split; [| exact Hps].
           cbn [unbroken after_terminator]. now rewrite Ec, Hp.
      * specialize (IH InSeparator). cbn [after_terminator] in IH.
        cbn [pieces_unbroken]. split; [reflexivity |].
        destruct (re_split_scan InSeparator rest) as [| p ps]; [constructor |].
        destruct IH as [Hp Hps]. now constructor.
      * exact (IH InSeparator).
    + specialize (IH (if is_terminator c then AfterTerminator else Plain)).
      assert (Ha : after_terminator (if is_terminator c then AfterTerminator else Plain)
                   = is_terminator c) by (now destruct (is_terminator c)).
      rewrite Ha in IH.
      destruct (re_split_scan _ rest) as [| p ps]; cbn [push pieces_unbroken].
      * cbn. rewrite Ec. split; [reflexivity | constructor].
      * destruct IH as [Hp Hps]. split; [| exact Hps].
        cbn [unbroken]. now rewrite Ec.
Qed.

Lemma unbroken_lstrip (s : string) :
  unbroken false s = true -> unbroken false (lstrip s) = true.
Proof.
  induction s as [| c rest IH]; [reflexivity |]. cbn [lstrip unbroken].
  destruct (isspace c) eqn:Ec; [exact IH |].
  intros Hu. cbn [unbroken]. now rewrite Ec.
Qed.

Lemma unbroken_rstrip (after : bool) (s : string) :
  unbroken after s = true -> unbroken after (rstrip s) = true.
Proof.
  revert after. induction s as [| c rest IH]; intros after; [reflexivity |].
  cbn [rstrip unbroken]. destruct (isspace c) eqn:Ec.
  - intros Hu. apply andb_true_iff in Hu. destruct Hu as [Ha Hrest].
    specialize (IH false Hrest). destruct (rstrip rest); [reflexivity |].
    cbn [unbroken]. now rewrite Ec, Ha.
  - intros Hu. specialize (IH _ Hu). destruct (rstrip rest) eqn:Er.
    + cbn. now rewrite Ec.
    + cbn [unbroken]. now rewrite Ec.
Qed.

(** X6. A sentence is an atom of the split: splitting a sentence of a
    text again gives back that sentence alone. *)
Theorem split_sentences_atomic (text s : string) :
  In s (_split_sentences text) -> _split_sentences s = [s].
Proof.
  intros Hin. pose proof (split_sentences_stripped text s Hin) as [Hfix Hne].
  unfold _split_sentences in Hin. apply in_map_iff in Hin.
  destruct Hin as [p [Hp Hin]]. apply filter_In in Hin. destruct Hin as [Hin _].
  assert (Hu : unbroken false p = true).
  { unfold re_split_sentences in Hin.
    pose proof (re_split_scan_pieces Plain text) as Hpieces.
    destruct (re_split_scan Plain text) as [| q qs]; [contradiction |].
    destruct Hpieces as [Hq Hqs]. destruct Hin as [<- | Hin]; [exact Hq |].
    now apply (proj1 (List.Forall_forall _ _) Hqs). }
  assert (Hs : unbroken false s = true).
  { subst s. unfold strip. now apply unbroken_rstrip, unbroken_lstrip. }
  unfold _split_sentences, re_split_sentences.
  rewrite (re_split_scan_unbroken Plain s) by (discriminate || exact Hs).
  cbn [List.filter]. rewrite Hfix.
  apply truthy_true in Hne. rewrite Hne. cbn [map]. now rewrite Hfix.
Qed.

Lemma split_sentences_atomic_witness :
  In "There!" (_split_sentences "Hi. There!  Ok? yes.  ")
  /\ _split_sentences "There!" = ["There!"].
Proof.
  assert (Hin : In "There!" (_split_sentences "Hi. There!  Ok? yes.  "))
    by (right; left; reflexivity).
  split; [exact Hin |].
  exact (split_sentences_atomic "Hi. There!  Ok? yes.  " "There!" Hin).
Defined.

(** X1. The size of the chunks.  Every chunk [chunk_text] returns has
    at most [chunk_size + 1] characters, unless it is one sentence of a
    chunk of the paragraph stage, which is passed on whole however long
    it is. *)
Theorem chunk_text_chunk_lengths (text : string) (cs ov : Z) (c : string) :
  In c (chunk_text text cs ov) ->
  len c <= cs + 1
  \/ exists chunk,
       In chunk (paragraph_chunks text cs ov) /\ In c (_split_sentences chunk).
Proof.
  intros Hin.
  pose proof (chunk_fold_bound cs (paragraph_chunks text cs ov)
                (paragraph_chunks text cs ov) [] (fun _ H => H) (List.Forall_nil _)) as Hall.
  unfold chunk_text in Hin.
  destruct (negb (truthy text) || negb (truthy (strip text))); [contradiction |].
  exact (proj1 (List.Forall_forall _ _) Hall c Hin).
Qed.

Lemma chunk_text_chunk_lengths_witness :
  In (str_repeat "a" 499 +:+ ". " +:+ str_repeat "b" 499 +:+ ".")
     (chunk_text two_sentences 1000 200)
  /\ len (str_repeat "a" 499 +:+ ". " +:+ str_repeat "b" 499 +:+ ".") <= 1000 + 1.
Proof.
  assert (Hin : In (str_repeat "a" 499 +:+ ". " +:+ str_repeat "b" 499 +:+ ".")
                   (chunk_text two_sentences 1000 200)).
  { vm_compute. left. reflexivity. }
  split; [exact Hin |].
  destruct (chunk_text_chunk_lengths two_sentences 1000 200 _ Hin)
    as [Hlen | [chunk [_ Hs]]]; [exact Hlen |].
  vm_compute. discriminate.
Defined.

End ChunkerMore.

(** ** More about the vector store *)

Module StoreMore.
Import Effects VectorStore StoreFacts.

Section StoreMore.
Context {emb : Embedder} {eng : Engine}.

(** The row [add_documents] stores for the chunk of index [i]. *)
Definition indexed_row (document_id : string) (i : nat) (chunk : string) : Entry :=
  {| entry_id := document_id +:+ "_chunk_" +:+ pretty i;
     entry_embedding := encode chunk;
     entry_document := chunk;
     entry_metadata :=
       {[ "chunk_index" := PyInt (Z.of_nat i); "document_id" := PyStr document_id ]} |}.

Definition indexed_rows (document_id : string) (start : nat) (chunks : list string)
    : list Entry :=
  map (fun p => indexed_row document_id (fst p) (snd p))
      (combine (seq start (length chunks)) chunks).

Lemma zip_indexed_rows (document_id : string) (start : nat) (chunks : list string) :
  zip_entries
    (map (fun i : nat => document_id +:+ "_chunk_" +:+ pretty i)
         (seq start (length chunks)))
    (map encode chunks) chunks
    (map (fun i : nat =>
            ({[ "chunk_index" := PyInt (Z.of_nat i);
                "document_id" := PyStr document_id ]} : gmap string PyVal))
         (seq start (length chunks)))
  = Some (indexed_rows document_id start chunks).
Proof.
  revert start. induction chunks as [| c rest IH]; intros start; [reflexivity |].
  cbn [length seq map zip_entries]. rewrite IH. reflexivity.
Qed.

Lemma indexed_rows_documents (document_id : string) (start : nat) (chunks : list string) :
  map entry_document (indexed_rows document_id start chunks) = chunks.
Proof.
  unfold indexed_rows. revert start.
  induction chunks as [| c rest IH]; intros start; [reflexivity |].
  cbn [length seq combine map fst snd indexed_row entry_document].
  now rewrite IH.
Qed.

Lemma indexed_rows_embeddings (document_id : string) (start : nat)
    (chunks : list string) :
  map entry_embedding (indexed_rows document_id start chunks) = map encode chunks.
Proof.
  unfold indexed_rows. revert start.
  induction chunks as [| c rest IH]; intros start; [reflexivity |].
  cbn [length seq combine map fst snd indexed_row entry_embedding].
  now rewrite IH.
Qed.

Lemma indexed_rows_ids (document_id : string) (start : nat) (chunks : list string) :
  map entry_id (indexed_rows document_id start chunks)
  = map (fun i : nat => document_id +:+ "_chunk_" +:+ pretty i)
        (seq start (length chunks)).
Proof.
  unfold indexed_rows. revert start.
  induction chunks as [| c rest IH]; intros start; [reflexivity |].
  cbn [length seq combine map fst snd indexed_row entry_id].
  now rewrite IH.
Qed.

Lemma indexed_rows_length (document_id : string) (start : nat) (chunks : list string) :
  length (indexed_rows document_id start chunks) = length chunks.
Proof. now rewrite <- (indexed_rows_documents document_id start chunks) at 2; rewrite List.length_map. Qed.

(** The ids [add_documents] gives to the rows of one call differ. *)
Lemma chunk_id_fresh (document_id : string) (i start n : nat) :
  (i < start)%nat ->
  existsb (String.eqb (document_id +:+ "_chunk_" +:+ pretty i))
          (map (fun j : nat => document_id +:+ "_chunk_" +:+ pretty j) (seq start n))
  = false.
Proof.
  revert start. induction n as [| n IH]; intros start Hlt; [reflexivity |].
  cbn [seq map existsb]. rewrite IH by lia. rewrite orb_false_r.
  apply String.eqb_neq. intros Heq.
  apply (inj (String.append document_id)) in Heq.
  apply (inj (String.append "_chunk_")) in Heq.
  apply (inj pretty) in Heq. lia.
Qed.

Lemma chunk_ids_distinct (document_id : string) (start n : nat) :
  distinct (map (fun i : nat => document_id +:+ "_chunk_" +:+ pretty i) (seq start n))
  = true.
Proof.
  revert start. induction n as [| n IH]; intros start; [reflexivity |].
  cbn [seq map distinct]. rewrite chunk_id_fresh by lia. now rewrite IH.
Qed.

Lemma filter_no_row (rows : list Entry) :
  List.filter (fun r => negb (has_id [] (entry_id r))) rows = rows.
Proof.
  induction rows as [| r rows IH]; [reflexivity |].
  cbn [List.filter]. change (has_id [] (entry_id r)) with false.
  cbn [negb]. now rewrite IH.
Qed.

(** After [create_collection] the object of the collection is kept. *)
Lemma create_collection_cached (document_id : string) (st : State) :
  wf st ->
  opens document_id st ->
  exists st',
    create_collection document_id st = (Ok {| handle_name := document_id |}, st')
    /\ collections st' !! document_id = Some {| handle_name := document_id |}
    /\ (forall other, other <> document_id ->
          chroma st' !! other = chroma st !! other).
Proof.
  intros Hwf Hopen.
  unfold create_collection, bind, get_state.
  destruct (collections st !! document_id) as [h |] eqn:Hc.
  - destruct (Hwf _ _ Hc) as [Hname _]. destruct h as [n]. cbn in Hname. subst n.
    exists st. repeat split; auto.
  - unfold try_except, client_get_collection, client_create_collection.
    destruct (chroma st !! document_id) as [c |] eqn:Hex; cbn; rewrite ?Hex; cbn.
    + eexists. split; [reflexivity |]. cbn. split; [apply lookup_insert_eq |].
      reflexivity.
    + destruct Hopen as [[c Hc'] | Hvalid]; [congruence |].
      rewrite Hvalid. cbn.
      eexists. split; [reflexivity |]. cbn. split; [apply lookup_insert_eq |].
      intros other Hne. now apply lookup_insert_ne.
Qed.

(** Once the object of a collection is kept, [create_collection]
    answers with it and changes nothing. *)
Lemma create_collection_kept (document_id : string) (st : State) (h : Handle) :
  collections st !! document_id = Some h ->
  create_collection document_id st = (Ok h, st).
Proof. intros Hh. unfold create_collection, bind, get_state. now rewrite Hh. Qed.

(** X9. [create_collection] is a get-or-create.  For a collection the
    database holds it answers with its object and the database is as
    before; for an unknown name the engine accepts it stores the empty
    collection of the document; in both cases the object is kept, so
    that a second call answers the same and changes nothing.  For an
    unknown name the engine refuses it raises the engine's error, and
    nothing is created or kept. *)
Theorem create_collection_get_or_create (document_id : string) (st : State) :
  wf st ->
  (opens document_id st ->
   exists st',
     create_collection document_id st = (Ok {| handle_name := document_id |}, st')
     /\ chroma st'
        = match chroma st !! document_id with
          | Some _ => chroma st
          | None =>
              <[document_id := {| coll_metadata := {[ "document_id" := document_id ]};
                                  coll_entries := [] |}]> (chroma st)
          end
     /\ collections st' !! document_id = Some {| handle_name := document_id |}
     /\ create_collection document_id st' = (Ok {| handle_name := document_id |}, st'))
  /\ (forall msg, chroma st !! document_id = None ->
        name_error document_id = Some msg ->
        create_collection document_id st = (Raise (Error msg), st)).
Proof.
  intros Hwf. split.
  - intros Hopen.
    destruct (create_collection_spec document_id st Hwf Hopen)
      as [st' [Hcreate [_ [_ Hdb]]]].
    destruct (create_collection_cached document_id st Hwf Hopen)
      as [st1 [Hcreate1 [Hkept _]]].
    rewrite Hcreate in Hcreate1. injection Hcreate1 as <-.
    exists st'. split; [exact Hcreate |]. split; [exact Hdb |].
    split; [exact Hkept |]. now apply create_collection_kept.
  - intros msg Hnone Hbad. now apply create_collection_refused.
Qed.

(** [search], once the collection is open. *)
Lemma search_via_create (document_id query : string) (top_k : Z) (st st' : State)
    (h : Handle) (c : Collection) :
  create_collection document_id st = (Ok h, st') ->
  chroma st' !! handle_name h = Some c ->
  search document_id query top_k st
  = (answered query top_k (coll_entries c), st').
Proof.
  intros Hcreate Hc.
  unfold search, bind, try_except. rewrite Hcreate. cbn.
  unfold collection_count, collection_query, collection_entries, bind, answered. cbn.
  rewrite Hc. cbn.
  destruct (Z.min top_k (Z.of_nat (length (coll_entries c))) <=? 0); [reflexivity |].
  cbn. rewrite Hc. cbn. unfold retrieved.
  destruct (firstn _ _) as [| r rs]; reflexivity.
Qed.

(** What a search leaves and answers, whatever the name. *)
Lemma search_outcome (document_id query : string) (top_k : Z) (st : State) :
  wf st ->
  exists st',
    search document_id query top_k st
    = (match chroma st' !! document_id with
       | Some c => answered query top_k (coll_entries c)
       | None => Ok []
       end, st')
    /\ wf st'
    /\ llm_log st' = llm_log st
    /\ search document_id query top_k st' = search document_id query top_k st.
Proof.
  intros Hwf.
  destruct (opens_or_refused document_id st) as [Hopen | [Hnone [e Hbad]]].
  - destruct (search_spec document_id query top_k st Hwf Hopen)
      as [st' [c [Hcreate [Hc [Hwf' Hsearch]]]]].
    destruct (create_collection_cached document_id st Hwf Hopen)
      as [st1 [Hc1 [Hkept _]]].
    rewrite Hcreate in Hc1. injection Hc1 as <-.
    destruct (create_collection_spec document_id st Hwf Hopen)
      as [st2 [Hc2 [_ [Hlog _]]]].
    rewrite Hcreate in Hc2. injection Hc2 as <-.
    exists st'. rewrite Hc. split; [exact Hsearch |]. split; [exact Hwf' |].
    split; [exact Hlog |].
    rewrite Hsearch.
    apply (search_via_create document_id query top_k st' st'
             {| handle_name := document_id |} c); [| exact Hc].
    now apply create_collection_kept.
  - exists st. rewrite Hnone.
    split; [exact (search_refused _ query top_k _ _ Hwf Hnone Hbad) |].
    split; [exact Hwf |]. split; reflexivity.
Qed.

(** X12. What [search] answers is read off the state it leaves: without
    a collection of the document (the engine refused the name) the empty
    list; with one, the client's error when [min(top_k, count)] is not
    positive and the nearest rows otherwise.  Searching again gives the
    same outcome and changes nothing more. *)
Theorem search_stable (document_id query : string) (top_k : Z) (st st' : State)
    (found : result (list Chunk)) :
  wf st ->
  search document_id query top_k st = (found, st') ->
  found = match chroma st' !! document_id with
          | Some c =>
              let n_results := Z.min top_k (Z.of_nat (length (coll_entries c))) in
              if n_results <=? 0 then Raise (n_results_error n_results)
              else Ok (map format_result
                         (firstn (Z.to_nat n_results)
                                 (nearest (encode query) (coll_entries c))))
          | None => Ok []
          end
  /\ search document_id query top_k st' = (found, st').
Proof.
  intros Hwf Hs.
  destruct (search_outcome document_id query top_k st Hwf)
    as [st1 [Hs1 [_ [_ Hagain]]]].
  rewrite Hs in Hs1. injection Hs1 as Hfound <-.
  split; [exact Hfound |]. now rewrite Hagain.
Qed.

(** X13. Deleting a document twice: the first call succeeds, the second
    answers [False] and changes nothing. *)
Theorem delete_document_twice (document_id : string) (st : State) :
  wf st ->
  is_Some (chroma st !! document_id) ->
  exists st',
    delete_document document_id st = (Ok true, st')
    /\ delete_document document_id st' = (Ok false, st').
Proof.
  intros Hwf [c Hc].
  destruct (delete_present document_id st c Hwf Hc) as [Hdel Hwf'].
  eexists. split; [exact Hdel |].
  apply delete_missing; [exact Hwf' |]. cbn. apply lookup_delete_eq.
Qed.

(** [search] finds at most [top_k] chunks and at most as many as the
    collection has rows. *)
Lemma retrieved_length (query : string) (top_k : Z) (entries : list Entry) :
  (length (retrieved query top_k entries) <= Z.to_nat top_k)%nat
  /\ (length (retrieved query top_k entries) <= length entries)%nat.
Proof.
  unfold retrieved. rewrite List.length_map.
  pose proof (firstn_le_length
                (Z.to_nat (Z.min top_k (Z.of_nat (length entries))))
                (nearest (encode query) entries)).
  lia.
Qed.

(** Indexing chunks under a name the database does not hold and the
    engine accepts. *)
Lemma add_documents_fresh (document_id : string) (chunks : list string) (st : State) :
  wf st ->
  chroma st !! document_id = None ->
  name_error document_id = None ->
  chunks <> [] ->
  exists st',
    add_documents document_id chunks None st = (Ok tt, st')
    /\ chroma st' !! document_id
       = Some {| coll_metadata := {[ "document_id" := document_id ]};
                 coll_entries := indexed_rows document_id 0 chunks |}
    /\ (forall other, other <> document_id ->
          chroma st' !! other = chroma st !! other)
    /\ wf st'
    /\ llm_log st' = llm_log st.
Proof.
  intros Hwf Hnone Hvalid Hne.
  pose proof (add_documents_wf document_id chunks None st Hwf) as Hwf'.
  destruct (create_collection_spec document_id st Hwf (or_intror Hvalid))
    as [st1 [Hcreate [Hwf1 [Hlog Hdb]]]].
  rewrite Hnone in Hdb.
  unfold add_documents in *. destruct chunks as [| c rest]; [contradiction |].
  unfold bind in *. rewrite Hcreate in *.
  unfold collection_add in *.
  rewrite (zip_indexed_rows document_id 0 (c :: rest)) in *.
  rewrite (chunk_ids_distinct document_id 0 (length (c :: rest))) in *.
  unfold collection_entries, bind in *. cbn [handle_name] in *.
  rewrite Hdb, lookup_insert_eq in *. cbn [coll_entries fresh_collection] in *.
  rewrite filter_no_row in *.
  cbn [snd] in Hwf'.
  eexists. split; [reflexivity |]. cbn [chroma set_chroma llm_log].
  split; [| split; [| split; [exact Hwf' | exact Hlog]]].
  - rewrite lookup_alter_eq, Hdb, lookup_insert_eq. reflexivity.
  - intros other Ho. rewrite lookup_alter_ne by congruence.
    rewrite Hdb. now rewrite lookup_insert_ne by congruence.
Qed.

(** Under a fresh id the engine refuses, nothing is indexed: the error
    of the engine comes back and the state is as before. *)
Lemma add_documents_refused (document_id : string) (chunks : list string)
    (metadatas : option (list (gmap string PyVal))) (st : State) (msg : string) :
  wf st ->
  chroma st !! document_id = None ->
  name_error document_id = Some msg ->
  chunks <> [] ->
  add_documents document_id chunks metadatas st = (Raise (Error msg), st).
Proof.
  intros Hwf Hnone Hbad Hne. unfold add_documents.
  destruct chunks as [| c rest]; [contradiction |].
  unfold bind. now rewrite (create_collection_refused _ _ _ Hwf Hnone Hbad).
Qed.

(** X10. Indexing a document under a fresh id, which the engine accepts
    as the name of a collection, stores one row per chunk, in order: the
    row of index [i] has the id [<document_id>_chunk_<i>], the text of
    the chunk and its embedding.  The collections of other documents are
    as before. *)
Theorem add_documents_round_trip (document_id : string) (chunks : list string)
    (st : State) :
  wf st ->
  chroma st !! document_id = None ->
  name_error document_id = None ->
  chunks <> [] ->
  exists st' rows,
    add_documents document_id chunks None st = (Ok tt, st')
    /\ (coll_entries <$> chroma st' !! document_id) = Some rows
    /\ map entry_document rows = chunks
    /\ map entry_embedding rows = map encode chunks
    /\ map entry_id rows
       = map (fun i : nat => document_id +:+ "_chunk_" +:+ pretty i)
             (seq 0 (length chunks))
    /\ (forall other, other <> document_id ->
          chroma st' !! other = chroma st !! other).
Proof.
  intros Hwf Hnone Hvalid Hne.
  destruct (add_documents_fresh document_id chunks st Hwf Hnone Hvalid Hne)
    as [st' [Hadd [Hrows [Hframe _]]]].
  exists st', (indexed_rows document_id 0 chunks).
  split; [exact Hadd |]. split; [now rewrite Hrows |].
  split; [apply indexed_rows_documents |].
  split; [apply indexed_rows_embeddings |].
  split; [apply indexed_rows_ids | exact Hframe].
Qed.

Lemma indexed_rows_cons (document_id : string) (start : nat) (chunk : string)
    (chunks : list string) :
  indexed_rows document_id start (chunk :: chunks)
  = indexed_row document_id start chunk :: indexed_rows document_id (S start) chunks.
Proof. reflexivity. Qed.

Lemma chunk_id_eqb (document_id : string) (i j : nat) :
  String.eqb (document_id +:+ "_chunk_" +:+ pretty i)
             (document_id +:+ "_chunk_" +:+ pretty j)
  = (i =? j)%nat.
Proof.
  destruct (Nat.eqb_spec i j) as [-> | Hne]; [apply String.eqb_refl |].
  apply String.eqb_neq. intros Heq.
  apply (inj (String.append document_id)) in Heq.
  apply (inj (String.append "_chunk_")) in Heq.
  apply (inj pretty) in Heq. contradiction.
Qed.

(** The ids a collection indexed by [add_documents] holds are those of
    the indices of its chunks. *)
Lemma has_id_indexed_rows (document_id : string) (start : nat) (chunks : list string)
    (i : nat) :
  has_id (indexed_rows document_id start chunks)
         (document_id +:+ "_chunk_" +:+ pretty i)
  = ((start <=? i) && (i <? start + length chunks))%nat.
Proof.
  revert start. induction chunks as [| c rest IH]; intros start.
  - cbn [indexed_rows length combine seq map has_id existsb].
    destruct (Nat.leb_spec start i), (Nat.ltb_spec i (start + 0)); try reflexivity; lia.
  - rewrite indexed_rows_cons. unfold has_id in *. cbn [existsb indexed_row entry_id].
    rewrite IH, chunk_id_eqb. cbn [length].
    destruct (Nat.eqb_spec start i), (Nat.leb_spec start i), (Nat.leb_spec (S start) i),
      (Nat.ltb_spec i (S start + length rest)),
      (Nat.ltb_spec i (start + S (length rest))); try reflexivity; lia.
Qed.

(** Of the rows of a second call, the collection keeps those whose
    index the first call did not use. *)
Lemma filter_indexed_rows (document_id : string) (chunks more : list string)
    (start : nat) :
  List.filter
    (fun r => negb (has_id (indexed_rows document_id 0 chunks) (entry_id r)))
    (indexed_rows document_id start more)
  = indexed_rows document_id (Nat.max start (length chunks))
      (skipn (length chunks - start) more).
Proof.
  revert start. induction more as [| c rest IH]; intros start.
  - now rewrite List.skipn_nil.
  - rewrite indexed_rows_cons. cbn [List.filter indexed_row entry_id].
    rewrite has_id_indexed_rows, IH. cbn [Nat.leb andb Nat.add].
    destruct (Nat.ltb_spec start (length chunks)) as [Hlt | Hge]; cbn [negb].
    + replace (length chunks - start)%nat with (S (length chunks - S start)) by lia.
      cbn [skipn]. now replace (Nat.max (S start) (length chunks))
        with (Nat.max start (length chunks)) by lia.
    + replace (length chunks - start)%nat with 0%nat by lia.
      replace (length chunks - S start)%nat with 0%nat by lia.
      cbn [skipn]. rewrite indexed_rows_cons.
      replace (Nat.max start (length chunks)) with start by lia.
      now replace (Nat.max (S start) (length chunks)) with (S start) by lia.
Qed.

(** X30. [add_documents] does not replace what is stored.  When a
    document that was indexed under a fresh id is indexed again, the
    rows of the first call stay as they were: the client leaves out the
    rows whose id [<document_id>_chunk_<i>] it holds already, so only
    the chunks of the second call whose index is beyond the first call's
    are stored, after the others. *)
Theorem add_documents_keeps_stored_rows (document_id : string)
    (chunks more : list string) (st : State) :
  wf st ->
  chroma st !! document_id = None ->
  name_error document_id = None ->
  chunks <> [] ->
  exists st1 st2,
    add_documents document_id chunks None st = (Ok tt, st1)
    /\ add_documents document_id more None st1 = (Ok tt, st2)
    /\ (map entry_document <$> (coll_entries <$> chroma st1 !! document_id))
       = Some chunks
    /\ (map entry_document <$> (coll_entries <$> chroma st2 !! document_id))
       = Some (chunks ++ skipn (length chunks) more)
    /\ (map entry_id <$> (coll_entries <$> chroma st2 !! document_id))
       = Some (map (fun i : nat => document_id +:+ "_chunk_" +:+ pretty i)
                   (seq 0 (length (chunks ++ skipn (length chunks) more)))).
Proof.
  intros Hwf Hnone Hvalid Hne.
  destruct (add_documents_fresh document_id chunks st Hwf Hnone Hvalid Hne)
    as [st1 [Hadd [Hrows [_ [Hwf1 _]]]]].
  exists st1.
  assert (Hsecond : exists st2,
             add_documents document_id more None st1 = (Ok tt, st2)
             /\ (coll_entries <$> chroma st2 !! document_id)
                = Some (indexed_rows document_id 0 chunks
                        ++ indexed_rows document_id (length chunks)
                             (skipn (length chunks) more))).
  { unfold add_documents. destruct more as [| m rest].
    - exists st1. split; [reflexivity |]. rewrite Hrows, List.skipn_nil.
      change (indexed_rows document_id (length chunks) []) with (@nil Entry).
      now rewrite List.app_nil_r.
    - destruct (create_collection_spec document_id st1 Hwf1
                  (or_introl (mk_is_Some _ _ Hrows)))
        as [st1' [Hcreate [_ [_ Hdb]]]].
      rewrite Hrows in Hdb.
      unfold bind. rewrite Hcreate. unfold collection_add.
      rewrite (zip_indexed_rows document_id 0 (m :: rest)).
      rewrite (chunk_ids_distinct document_id 0 (length (m :: rest))).
      unfold collection_entries, bind. cbn [handle_name].
      rewrite Hdb, Hrows. cbn [coll_entries].
      rewrite filter_indexed_rows, Nat.sub_0_r, Nat.max_0_l.
      eexists. split; [reflexivity |]. cbn [chroma set_chroma].
      rewrite lookup_alter_eq, Hdb, Hrows. reflexivity. }
  destruct Hsecond as [st2 [Hadd2 Hrows2]]. exists st2.
  split; [exact Hadd |]. split; [exact Hadd2 |].
  split; [rewrite Hrows; cbn; now rewrite indexed_rows_documents |].
  rewrite Hrows2. cbn [fmap option_fmap option_map]. split.
  - now rewrite List.map_app, !indexed_rows_documents.
  - rewrite List.map_app, !indexed_rows_ids, List.length_app, List.seq_app.
    now rewrite List.map_app.
Qed.

(** X11. The documents are isolated: indexing, searching or deleting
    one document leaves the collection of every other document as it
    was. *)
Theorem store_operations_isolated (document_id other query : string)
    (chunks : list string) (metadatas : option (list (gmap string PyVal)))
    (top_k : Z) (st : State) :
  wf st ->
  other <> document_id ->
  chroma (snd (add_documents document_id chunks metadatas st)) !! other
  = chroma st !! other
  /\ chroma (snd (search document_id query top_k st)) !! other = chroma st !! other
  /\ chroma (snd (delete_document document_id st)) !! other = chroma st !! other.
Proof.
  intros Hwf Ho.
  split; [| split].
  - unfold add_documents. destruct chunks as [| c rest]; [reflexivity |].
    destruct (opens_or_refused document_id st) as [Hopen | [Hnone [e Hbad]]].
    + destruct (create_collection_cached document_id st Hwf Hopen)
        as [st1 [Hcreate [_ Hframe]]].
      unfold bind. rewrite Hcreate.
      unfold collection_add.
      destruct (zip_entries _ _ _ _) as [rows |]; cbn [snd raise];
        [| now apply Hframe].
      destruct (distinct _); cbn [snd raise]; [| now apply Hframe].
      unfold collection_entries, bind. cbn [handle_name].
      destruct (chroma st1 !! document_id) as [col |];
        cbn [snd chroma set_chroma]; [| now apply Hframe].
      rewrite lookup_alter_ne by congruence. now apply Hframe.
    + unfold bind. now rewrite (create_collection_refused _ _ _ Hwf Hnone Hbad).
  - destruct (opens_or_refused document_id st) as [Hopen | [Hnone [e Hbad]]].
    + destruct (create_collection_cached document_id st Hwf Hopen)
        as [st1 [Hcreate [_ Hframe]]].
      destruct (search_spec document_id query top_k st Hwf Hopen)
        as [st' [c [Hcreate' [_ [_ Hsearch]]]]].
      rewrite Hcreate in Hcreate'. injection Hcreate' as <-.
      rewrite Hsearch. now apply Hframe.
    + now rewrite (search_refused _ query top_k _ _ Hwf Hnone Hbad).
  - destruct (chroma st !! document_id) as [c |] eqn:E.
    + destruct (delete_present document_id st c Hwf E) as [Hdel _].
      rewrite Hdel. cbn. now apply lookup_delete_ne.
    + now rewrite (delete_missing document_id st Hwf E).
Qed.

(** X14. Whenever [search] returns, it returns at most [top_k] chunks.
    If the state it leaves has a collection of the document, [top_k] is
    positive, the collection has rows, and the chunks are no more than
    the rows; if it has none, no chunk is returned. *)
Theorem search_result_bounded (document_id query : string) (top_k : Z)
    (st st' : State) (result : list Chunk) :
  wf st ->
  search document_id query top_k st = (Ok result, st') ->
  (length result <= Z.to_nat top_k)%nat
  /\ match chroma st' !! document_id with
     | Some c =>
         0 < top_k /\ coll_entries c <> []
         /\ (length result <= length (coll_entries c))%nat
     | None => result = []
     end.
Proof.
  intros Hwf Hs.
  destruct (search_outcome document_id query top_k st Hwf) as [st1 [Hs1 _]].
  rewrite Hs in Hs1. injection Hs1 as Hfound <-.
  destruct (chroma st' !! document_id) as [c |].
  - symmetry in Hfound. apply answered_ok in Hfound.
    destruct Hfound as [Hk [Hrows ->]].
    pose proof (retrieved_length query top_k (coll_entries c)) as [H1 H2].
    auto.
  - injection Hfound as ->. cbn. split; [lia | reflexivity].
Qed.

(** Searching a document right after it was indexed. *)
Lemma search_indexed (document_id query : string) (chunks : list string)
    (top_k : Z) (st1 : State) :
  wf st1 ->
  0 < top_k ->
  chunks <> [] ->
  chroma st1 !! document_id
  = Some {| coll_metadata := {[ "document_id" := document_id ]};
            coll_entries := indexed_rows document_id 0 chunks |} ->
  exists st2,
    search document_id query top_k st1
    = (Ok (retrieved query top_k (indexed_rows document_id 0 chunks)), st2)
    /\ wf st2
    /\ llm_log st2 = llm_log st1.
Proof.
  intros Hwf1 Hk Hne Hrows.
  assert (Hopen : opens document_id st1) by (left; eauto).
  destruct (search_spec document_id query top_k st1 Hwf1 Hopen)
    as [st2 [c [Hcreate [Hc [Hwf2 Hsearch]]]]].
  destruct (create_collection_spec document_id st1 Hwf1 Hopen)
    as [st2' [Hcreate' [_ [Hlog Hdb]]]].
  rewrite Hcreate in Hcreate'. injection Hcreate' as <-.
  rewrite Hrows in Hdb. rewrite Hdb, Hrows in Hc. injection Hc as <-.
  cbn [coll_entries] in Hsearch.
  exists st2. split; [| split; [exact Hwf2 | exact Hlog]].
  rewrite Hsearch. rewrite answered_some; [reflexivity | exact Hk |].
  intros Hnil. apply Hne.
  rewrite <- (indexed_rows_documents document_id 0 chunks), Hnil. reflexivity.
Qed.

(** X15. Index, then search.  When the engine accepts the id as the name
    of a collection and ranks the rows it holds (its answer is a
    rearrangement of them), a search in a freshly indexed document
    retrieves [min(top_k, n)] chunks of the [n] that
    were indexed, each with the text of one of them. *)
Theorem index_then_search (document_id query : string) (chunks : list string)
    (top_k : Z) (st : State) :
  (forall q rows, Permutation (map fst (nearest q rows)) rows) ->
  0 < top_k ->
  wf st ->
  chroma st !! document_id = None ->
  name_error document_id = None ->
  chunks <> [] ->
  exists st1 result st2,
    add_documents document_id chunks None st = (Ok tt, st1)
    /\ search document_id query top_k st1 = (Ok result, st2)
    /\ length result = Nat.min (Z.to_nat top_k) (length chunks)
    /\ Forall (fun r => In (chunk_content r) chunks) result.
Proof.
  intros Hrank Hk Hwf Hnone Hvalid Hne.
  destruct (add_documents_fresh document_id chunks st Hwf Hnone Hvalid Hne)
    as [st1 [Hadd [Hrows [_ [Hwf1 _]]]]].
  destruct (search_indexed document_id query chunks top_k st1 Hwf1 Hk Hne Hrows)
    as [st2 [Hsearch _]].
  set (rows := indexed_rows document_id 0 chunks) in *.
  exists st1, (retrieved query top_k rows), st2.
  split; [exact Hadd |]. split; [exact Hsearch |].
  pose proof (Hrank (encode query) rows) as Hperm.
  assert (Hlen : length (nearest (encode query) rows) = length chunks).
  { rewrite <- (List.length_map fst), (Permutation_length Hperm).
    apply indexed_rows_length. }
  split.
  - unfold retrieved. rewrite List.length_map, List.length_firstn, Hlen.
    subst rows. rewrite indexed_rows_length. lia.
  - unfold retrieved. apply List.Forall_forall. intros r Hr.
    apply in_map_iff in Hr. destruct Hr as [hit [<- Hhit]].
    assert (Hall : In hit (nearest (encode query) rows)).
    { rewrite <- (List.firstn_skipn
                    (Z.to_nat (Z.min top_k (Z.of_nat (length rows))))
                    (nearest (encode query) rows)).
      apply in_or_app. now left. }
    assert (Hin : In (fst hit) rows).
    { apply (Permutation_in _ Hperm). now apply in_map. }
    cbn [format_result chunk_content].
    rewrite <- (indexed_rows_documents document_id 0 chunks).
    now apply in_map.
Qed.

End StoreMore.
End StoreMore.

(** ** More about the generator *)

Module GroqMore.
Import Effects Schemas GroqService GroqFacts.

Section GroqMore.
Context {emb : Embedder} {eng : Engine} {llm : LLM}.

(** X16. Every way [generate_answer] can end, by what the provider
    answers.  The primary model answers: its answer is returned after
    one request.  It fails and the fallback model answers the second
    request: that answer is returned.  Both fail: the failure raised
    carries the message of the primary model's error.  There is no
    third request, and the collections are never touched. *)
Theorem generate_answer_outcomes (question : string)
    (context_chunks : list VectorStore.Chunk) (explanation_level : ExplanationLevel)
    (chat_history : option (list (gmap string string))) (st : State) :
  let messages := build_messages question context_chunks explanation_level chat_history in
  let primary := request "llama-3.3-70b-versatile" messages in
  let retry := request "llama-3.1-8b-instant" messages in
  let sent (calls : list Call) :=
    {| chroma := chroma st; collections := collections st;
       llm_log := llm_log st ++ calls |} in
  generate_answer question context_chunks explanation_level chat_history st
  = match complete (llm_log st) primary with
    | Ok a => (Ok a, sent [primary])
    | Raise e =>
        match complete (llm_log st ++ [primary]) retry with
        | Ok a => (Ok a, sent [primary; retry])
        | Raise _ =>
            (Raise (Error ("Failed to generate answer: " +:+ exc_str e)),
             sent [primary; retry])
        end
    end.
Proof.
  intros messages primary retry sent.
  destruct (complete (llm_log st) primary) as [a | e] eqn:E.
  - exact (generate_answer_primary question context_chunks explanation_level
             chat_history st a E).
  - pose proof (generate_answer_fallback question context_chunks explanation_level
                  chat_history st e E) as Hgen.
    cbv zeta in Hgen. fold messages in Hgen.
    change (request model messages) with primary in Hgen.
    change (request fallback_model messages) with retry in Hgen.
    rewrite Hgen.
    destruct (complete (llm_log st ++ [primary]) retry) as [a | e2]; reflexivity.
Qed.

(** X17. A request never carries more than seven messages: the system
    prompt first, the user turn last, and at most five turns of history
    between them. *)
Theorem build_messages_bounded (question : string)
    (context_chunks : list VectorStore.Chunk) (explanation_level : ExplanationLevel)
    (chat_history : option (list (gmap string string))) :
  let messages := build_messages question context_chunks explanation_level chat_history in
  let turns := match chat_history with Some h => length h | None => 0%nat end in
  length messages = (2 + Nat.min 5 turns)%nat
  /\ (msg_role <$> head messages) = Some "system"
  /\ (msg_role <$> last messages) = Some "user".
Proof.
  intros messages turns. subst messages turns. unfold build_messages.
  destruct chat_history as [[| m h] |]; try (repeat split; reflexivity).
  split; [| split].
  - rewrite !length_app, List.length_map. unfold list_last.
    rewrite List.length_skipn. cbn [length]. lia.
  - reflexivity.
  - now rewrite last_snoc.
Qed.

End GroqMore.
End GroqMore.

(** ** The text extraction *)

Module PDFMore.
Import Py PyFacts Effects PDFText.

(** The list [full_text] for the pages [doc], the first of which has
    the number [start] (from 0). *)
Definition page_blocks (start : nat) (doc : list string) : list string :=
  flat_map (fun p => page_block (fst p) (snd p)) (combine (seq start (length doc)) doc).

Lemma page_blocks_cons (start : nat) (text : string) (doc : list string) :
  page_blocks start (text :: doc) = page_block start text ++ page_blocks (S start) doc.
Proof. reflexivity. Qed.

Lemma page_blocks_app (start : nat) (a b : list string) :
  page_blocks start (a ++ b)
  = page_blocks start a ++ page_blocks (start + length a) b.
Proof.
  revert start. induction a as [| text a IH]; intros start.
  - cbn [app length]. now rewrite Nat.add_0_r.
  - cbn [app length]. rewrite !page_blocks_cons, IH, <- app_assoc.
    now rewrite Nat.add_succ_r.
Qed.

Lemma page_block_blank (page_num : nat) (text : string) :
  all_space text = true -> page_block page_num text = [].
Proof.
  intros Hb. unfold page_block. apply strip_empty_iff in Hb. now rewrite Hb.
Qed.

Lemma page_blocks_blank (start : nat) (doc : list string) :
  forallb all_space doc = true -> page_blocks start doc = [].
Proof.
  revert start. induction doc as [| text doc IH]; intros start Hall; [reflexivity |].
  cbn [forallb] in Hall. apply andb_true_iff in Hall. destruct Hall as [Ht Hdoc].
  rewrite page_blocks_cons, page_block_blank, IH by assumption. reflexivity.
Qed.

(** A block starts with its page marker, so it is not blank. *)
Lemma page_blocks_marked (start : nat) (doc : list string) :
  Forall (fun b => exists rest, b = "[Page " +:+ rest) (page_blocks start doc).
Proof.
  revert start. induction doc as [| text doc IH]; intros start; [constructor |].
  rewrite page_blocks_cons. apply Forall_app. split; [| apply IH].
  unfold page_block. destruct (truthy (strip text)); constructor; [| constructor].
  eexists. reflexivity.
Qed.

Lemma page_blocks_some (start : nat) (doc : list string) :
  forallb all_space doc = false -> page_blocks start doc <> [].
Proof.
  revert start. induction doc as [| text doc IH]; intros start Hall; [discriminate |].
  rewrite page_blocks_cons. cbn [forallb] in Hall. unfold page_block.
  destruct (truthy (strip text)) eqn:Et; [discriminate |].
  apply truthy_false, strip_empty_iff in Et. rewrite Et in Hall.
  cbn [app]. now apply IH.
Qed.

Lemma concat_cons_head (sep x : string) (xs : list string) :
  exists tail, String.concat sep (x :: xs) = x +:+ tail.
Proof.
  destruct xs as [| y ys].
  - exists "". cbn. now rewrite app_empty_r.
  - eexists. reflexivity.
Qed.

Lemma extract_text_ok `{Fitz} (pdf_path : string) (doc : list string) :
  fitz_open pdf_path = Ok doc ->
  extract_text pdf_path
  = Ok (String.concat blank_line (page_blocks 0 doc), Z.of_nat (length doc)).
Proof. intros Hopen. unfold extract_text. now rewrite Hopen. Qed.

(** X7. [extract_text] counts every page of the file, blank or not,
    and the text it returns is blank exactly when every page is; it is
    then the empty string. *)
Theorem extract_text_blank_iff `{Fitz} (pdf_path : string) (doc : list string) :
  fitz_open pdf_path = Ok doc ->
  exists text,
    extract_text pdf_path = Ok (text, Z.of_nat (length doc))
    /\ (all_space text = true <-> forallb all_space doc = true)
    /\ (all_space text = true -> text = "").
Proof.
  intros Hopen. eexists. split; [now apply extract_text_ok |].
  destruct (forallb all_space doc) eqn:E.
  - rewrite page_blocks_blank by assumption. cbn. tauto.
  - pose proof (page_blocks_some 0 doc E) as Hsome.
    pose proof (page_blocks_marked 0 doc) as Hmark.
    destruct (page_blocks 0 doc) as [| b bs]; [contradiction |].
    inversion Hmark as [| ? ? [rest ->] _]; subst.
    destruct (concat_cons_head blank_line ("[Page " +:+ rest) bs) as [tail ->].
    rewrite !all_space_app. cbn. split; [split |]; discriminate.
Qed.

(** X8. A page keeps the number of its place in the file: when only one
    page holds text, the text returned is that page under the marker
    with its position, counted from 1 over the blank pages before it. *)
Theorem extract_text_page_number `{Fitz} (pdf_path text : string)
    (before after : list string) :
  fitz_open pdf_path = Ok (before ++ text :: after) ->
  forallb all_space before = true ->
  forallb all_space after = true ->
  all_space text = false ->
  extract_text pdf_path
  = Ok ("[Page " +:+ pretty (length before + 1)%nat +:+ "]" +:+ String nl text,
        Z.of_nat (length before + 1 + length after)).
Proof.
  intros Hopen Hb Ha Ht. rewrite (extract_text_ok pdf_path _ Hopen).
  rewrite page_blocks_app, page_blocks_cons.
  rewrite (page_blocks_blank 0 before), (page_blocks_blank _ after) by assumption.
  unfold page_block.
  assert (Hst : truthy (strip text) = true).
  { apply truthy_true. intros He. apply strip_empty_iff in He. congruence. }
  rewrite Hst. cbn [app String.concat Nat.add].
  rewrite length_app. cbn [length]. do 2 f_equal. lia.
Qed.

End PDFMore.

(** ** More about the RAG service and the endpoints *)

Module ServiceMore.
Import Effects Schemas StoreFacts GroqFacts StoreMore.
Import Endpoints(Extractor, file_name, file_content, MAX_FILE_SIZE).

Section ServiceMore.
Context {emb : Embedder} {eng : Engine} {llm : LLM}.



(** X19. A chat request without a question (empty or blank) or without
    a document id is refused with status 400 before anything else
    happens: no search, no request to the generator. *)
Theorem chat_rejects_empty_input (rag : RAGService.RAGService) (request : ChatRequest)
    (st : State) :
  PyFacts.all_space (req_question request) = true \/ req_document_id request = "" ->
  exists detail,
    Endpoints.chat (Some rag) request st = (Raise (HTTPException 400 detail), st).
Proof.
  intros Hbad. unfold Endpoints.chat.
  destruct (negb (Py.truthy (req_question request))
            || negb (Py.truthy (Py.strip (req_question request)))) eqn:Eq.
  - eexists. reflexivity.
  - destruct Hbad as [Hblank | Hid].
    + apply PyFacts.strip_empty_iff in Hblank. rewrite Hblank in Eq.
      rewrite orb_true_r in Eq. discriminate.
    + rewrite Hid. eexists. reflexivity.
Qed.


End ServiceMore.
End ServiceMore.

(** ** More about the upload and delete endpoints *)

Module UploadMore.
Import Effects Schemas StoreFacts StoreMore.
Import Endpoints(Extractor, file_name, file_content, MAX_FILE_SIZE).

(** The handler reads the text with [PDFProcessor.extract_text]. *)
Definition pdf_extractor `{PDFText.Fitz} : Extractor :=
  {| Endpoints.extract_text := PDFText.extract_text |}.

Section UploadMore.
Context {emb : Embedder} {eng : Engine}.

(** [delete_document] of the store catches what it raises. *)
Lemma delete_document_returns (document_id : string) (st : State) :
  exists success st', VectorStore.delete_document document_id st = (Ok success, st').
Proof.
  unfold VectorStore.delete_document, try_except, bind, get_state,
    VectorStore.client_delete_collection.
  destruct (collections st !! document_id); cbn;
    destruct (chroma st !! document_id); cbn; eauto.
Qed.

(** X25. The delete endpoint answers 204 or 404 when the services are
    up, whatever the state, and 500 only when they are not. *)
Theorem delete_endpoint_outcomes (rag_service : option RAGService.RAGService)
    (document_id : string) (st : State) :
  exists r st',
    Endpoints.delete_document rag_service document_id st = (r, st')
    /\ match rag_service with
       | Some _ =>
           r = Ok 204
           \/ r = Raise (HTTPException 404 ("Document " +:+ document_id +:+ " not found"))
       | None => r = Raise (HTTPException 500 "Service not initialized") /\ st' = st
       end.
Proof.
  destruct rag_service as [rag |]; [| eexists _, _; split; [reflexivity | now split]].
  destruct (delete_document_returns document_id st) as [success [st' Hdel]].
  unfold Endpoints.delete_document, RAGService.delete_document, try_except, bind.
  rewrite Hdel. destruct success; eexists _, _; (split; [reflexivity |]); auto.
Qed.

(** [create_collection] raises no [HTTPException]: what it raises comes
    from the database client. *)
Lemma create_collection_error_kind (document_id : string) (st : State) :
  match fst (VectorStore.create_collection document_id st) with
  | Raise (HTTPException _ _) => False
  | _ => True
  end.
Proof.
  unfold VectorStore.create_collection, bind, get_state.
  destruct (collections st !! document_id) as [h |]; [exact I |].
  unfold try_except, VectorStore.client_get_collection,
    VectorStore.client_create_collection.
  destruct (chroma st !! document_id) eqn:E; cbn; [exact I |].
  destruct (name_error document_id); cbn; rewrite ?E; exact I.
Qed.

(** [add_documents] raises no [HTTPException]. *)
Lemma add_documents_error_kind (document_id : string) (chunks : list string)
    (metadatas : option (list (gmap string PyVal))) (st : State) :
  match fst (VectorStore.add_documents document_id chunks metadatas st) with
  | Raise (HTTPException _ _) => False
  | _ => True
  end.
Proof.
  unfold VectorStore.add_documents. destruct chunks as [| c rest]; [exact I |].
  pose proof (create_collection_error_kind document_id st) as Hkind.
  unfold bind.
  destruct (VectorStore.create_collection document_id st) as [[h | e] st1];
    cbn [fst] in Hkind; [| exact Hkind].
  unfold VectorStore.collection_add.
  match goal with
  | |- context [VectorStore.zip_entries ?a ?b ?c ?d] =>
      destruct (VectorStore.zip_entries a b c d)
  end; [| exact I].
  destruct (VectorStore.distinct _); [| exact I].
  unfold VectorStore.collection_entries, bind.
  destruct (chroma st1 !! handle_name h); exact I.
Qed.

Section WithExtractor.
Context {ext : Extractor}.

(** X22. A file that is not named [*.pdf] (in any letter case), that has
    no name, or that is larger than 50 MB is refused with status 400;
    nothing is extracted and nothing is stored. *)
Theorem upload_rejects_wrong_file (pdf : PDFProcessor.PDFProcessor)
    (rag : RAGService.RAGService) (file : Endpoints.UploadFile)
    (document_id : string) (st : State) :
  match file_name file with
  | None => True
  | Some name =>
      Py.truthy name && Endpoints.endswith (Endpoints.lower name) ".pdf" = false
      \/ MAX_FILE_SIZE < Py.len (file_content file)
  end ->
  exists detail,
    Endpoints.upload_document (Some pdf) (Some rag) file document_id st
    = (Raise (HTTPException 400 detail), st).
Proof.
  intros Hbad. unfold Endpoints.upload_document.
  destruct (file_name file) as [name |]; [| eexists; reflexivity].
  destruct (Py.truthy name && Endpoints.endswith (Endpoints.lower name) ".pdf") eqn:En;
    [| eexists; reflexivity].
  destruct Hbad as [Hbad | Hbig]; [discriminate |].
  destruct (Z.gtb_spec (Py.len (file_content file)) MAX_FILE_SIZE); [| lia].
  eexists. reflexivity.
Qed.

(** X21. A readable PDF is indexed whole: the response reports the
    pages counted by the extraction and the number of chunks, at least
    one, and the collection of the new document id, a name the engine
    accepts, holds exactly the chunks of the text, in order. *)
Theorem upload_indexes_chunks (pdf : PDFProcessor.PDFProcessor)
    (rag : RAGService.RAGService) (file : Endpoints.UploadFile)
    (name document_id text : string) (page_count : Z) (st : State) :
  file_name file = Some name ->
  Py.truthy name && Endpoints.endswith (Endpoints.lower name) ".pdf" = true ->
  Py.len (file_content file) <= MAX_FILE_SIZE ->
  Endpoints.extract_text (file_content file) = Ok (text, page_count) ->
  PyFacts.all_space text = false ->
  wf st ->
  chroma st !! document_id = None ->
  name_error document_id = None ->
  let chunks :=
    PDFProcessor.chunk_text text PDFProcessor.default_chunk_size
      PDFProcessor.default_chunk_overlap in
  exists st' rows,
    Endpoints.upload_document (Some pdf) (Some rag) file document_id st
    = (Ok {| document_id := document_id; filename := name; pages := page_count;
             Schemas.chunks := Z.of_nat (length chunks);
             message := "Document processed successfully" |}, st')
    /\ 0 < Z.of_nat (length chunks)
    /\ (coll_entries <$> chroma st' !! document_id) = Some rows
    /\ map entry_document rows = chunks.
Proof.
  intros Hname Hpdf Hsize Hextract Hns Hwf Hfresh Hvalid chunks.
  assert (Hne : chunks <> []) by (now apply ChunkerFacts.chunk_text_nonempty).
  destruct (add_documents_fresh document_id chunks st Hwf Hfresh Hvalid Hne)
    as [st' [Hadd [Hrows _]]].
  exists st', (indexed_rows document_id 0 chunks).
  split; [| split; [| split]].
  - unfold Endpoints.upload_document. rewrite Hname, Hpdf.
    destruct (Z.gtb_spec (Py.len (file_content file)) MAX_FILE_SIZE); [lia |].
    unfold try_except, bind. rewrite Hextract. cbn [fst snd].
    assert (Ht : Py.truthy text = true).
    { apply PyFacts.truthy_true. intros ->. discriminate. }
    assert (Hst : Py.truthy (Py.strip text) = true).
    { apply PyFacts.truthy_true. intros He. apply PyFacts.strip_empty_iff in He.
      congruence. }
    rewrite Ht, Hst. cbn [negb orb]. fold chunks.
    unfold RAGService.add_document.
    clearbody chunks. destruct chunks as [| c rest]; [contradiction |].
    rewrite Hadd. reflexivity.
  - clearbody chunks. destruct chunks; [contradiction | cbn; lia].
  - now rewrite Hrows.
  - apply indexed_rows_documents.
Qed.

End WithExtractor.

Section WithFitz.
Context {fitz : PDFText.Fitz}.

(** X23. A PDF whose pages hold no text (a scan without a text layer)
    is refused with status 400, and a file PyMuPDF cannot read gives
    status 500 with a detail that names both failures; in both cases
    nothing is stored. *)
Theorem upload_without_text (pdf : PDFProcessor.PDFProcessor)
    (rag : RAGService.RAGService) (file : Endpoints.UploadFile)
    (name document_id : string) (st : State) :
  file_name file = Some name ->
  Py.truthy name && Endpoints.endswith (Endpoints.lower name) ".pdf" = true ->
  Py.len (file_content file) <= MAX_FILE_SIZE ->
  (forall doc,
     PDFText.fitz_open (file_content file) = Ok doc ->
     forallb PyFacts.all_space doc = true ->
     Endpoints.upload_document (ext := pdf_extractor) (Some pdf) (Some rag) file
       document_id st
     = (Raise (HTTPException 400
                 "Could not extract text from PDF. Please ensure the PDF contains readable text."),
        st))
  /\ (forall e,
        PDFText.fitz_open (file_content file) = Raise e ->
        Endpoints.upload_document (ext := pdf_extractor) (Some pdf) (Some rag) file
          document_id st
        = (Raise (HTTPException 500
                    ("Failed to process document: Failed to process PDF: "
                     +:+ exc_str e)),
           st)).
Proof.
  intros Hname Hpdf Hsize.
  assert (Hbody : forall r,
             Endpoints.extract_text (Extractor := pdf_extractor) (file_content file) = r ->
             Endpoints.upload_document (ext := pdf_extractor) (Some pdf) (Some rag)
               file document_id st
             = try_except
                 (let* extracted := (fun st0 : State => (r, st0)) in
                  let text := fst extracted in
                  let page_count := snd extracted in
                  if negb (Py.truthy text) || negb (Py.truthy (Py.strip text)) then
                    raise (HTTPException 400
                             "Could not extract text from PDF. Please ensure the PDF contains readable text.")
                  else
                    let chunks :=
                      PDFProcessor.chunk_text text PDFProcessor.default_chunk_size
                        PDFProcessor.default_chunk_overlap in
                    match chunks with
                    | [] => raise (HTTPException 500 "Failed to chunk document text")
                    | _ =>
                        RAGService.add_document rag document_id chunks;;
                        ret {| Schemas.document_id := document_id;
                               filename := name;
                               pages := page_count;
                               Schemas.chunks := Z.of_nat (length chunks);
                               message := "Document processed successfully" |}
                    end)
                 (fun e =>
                    match e with
                    | HTTPException _ _ => raise e
                    | Error msg =>
                        raise (HTTPException 500
                                 ("Failed to process document: " +:+ msg))
                    end) st).
  { intros r <-. unfold Endpoints.upload_document. rewrite Hname, Hpdf.
    destruct (Z.gtb_spec (Py.len (file_content file)) MAX_FILE_SIZE); [lia |].
    reflexivity. }
  split.
  - intros doc Hopen Hblank. rewrite (Hbody _ eq_refl).
    cbn [Endpoints.extract_text pdf_extractor].
    rewrite (PDFMore.extract_text_ok _ doc Hopen).
    rewrite PDFMore.page_blocks_blank by assumption. reflexivity.
  - intros e Hopen. rewrite (Hbody _ eq_refl).
    cbn [Endpoints.extract_text pdf_extractor].
    unfold PDFText.extract_text. rewrite Hopen.
    unfold try_except, bind, raise.
    now rewrite <- PyFacts.app_assoc_str.
Qed.

Lemma processing_detail_differs (msg : string) :
  "Failed to process document: " +:+ msg <> "Failed to chunk document text".
Proof.
  intros Heq. apply (f_equal (Py.str_take 11)) in Heq.
  vm_compute in Heq. discriminate.
Qed.

(** X24. What an upload can get: the response, which reports at least
    one chunk, or an [HTTPException] of status 400 or 500, never
    another exception.  The refusal [Failed to chunk document text] is
    never given: a text that passes the blank test always gives a
    chunk. *)
Theorem upload_outcomes (pdf_processor : option PDFProcessor.PDFProcessor)
    (rag_service : option RAGService.RAGService) (file : Endpoints.UploadFile)
    (document_id : string) (st : State) :
  exists r st',
    Endpoints.upload_document (ext := pdf_extractor) pdf_processor rag_service file
      document_id st = (r, st')
    /\ match r with
       | Ok response => 0 < Schemas.chunks response
       | Raise (HTTPException status detail) =>
           (status = 400 \/ status = 500)
           /\ detail <> "Failed to chunk document text"
       | Raise (Error _) => False
       end.
Proof.
  unfold Endpoints.upload_document.
  destruct pdf_processor as [pdf |];
    [| eexists _, _; split; [reflexivity | split; [now right | discriminate]]].
  destruct rag_service as [rag |];
    [| eexists _, _; split; [reflexivity | split; [now right | discriminate]]].
  destruct (file_name file) as [name |];
    [| eexists _, _; split; [reflexivity | split; [now left | discriminate]]].
  destruct (Py.truthy name && Endpoints.endswith (Endpoints.lower name) ".pdf");
    [| eexists _, _; split; [reflexivity | split; [now left | discriminate]]].
  destruct (Py.len (file_content file) >? MAX_FILE_SIZE);
    [eexists _, _; split; [reflexivity | split; [now left | discriminate]] |].
  unfold try_except, bind. cbn [Endpoints.extract_text pdf_extractor].
  unfold PDFText.extract_text.
  destruct (PDFText.fitz_open (file_content file)) as [doc | e].
  - cbn [fst snd].
    set (text := String.concat Py.blank_line _).
    destruct (negb (Py.truthy text) || negb (Py.truthy (Py.strip text))) eqn:Eg;
      [eexists _, _; split; [reflexivity | split; [now left | discriminate]] |].
    apply orb_false_iff in Eg. destruct Eg as [_ Eg].
    apply negb_false_iff, PyFacts.truthy_true in Eg.
    assert (Hns : PyFacts.all_space text = false).
    { destruct (PyFacts.all_space text) eqn:E; [| reflexivity].
      apply PyFacts.strip_empty_iff in E. contradiction. }
    pose proof (ChunkerFacts.chunk_text_nonempty text PDFProcessor.default_chunk_size
                  PDFProcessor.default_chunk_overlap Hns) as Hne.
    destruct (PDFProcessor.chunk_text text PDFProcessor.default_chunk_size
                PDFProcessor.default_chunk_overlap) as [| c rest]; [contradiction |].
    unfold RAGService.add_document.
    pose proof (add_documents_error_kind document_id (c :: rest) None st) as Hkind.
    destruct (VectorStore.add_documents document_id (c :: rest) None st)
      as [[u | [status detail | msg]] st2]; cbn [fst] in Hkind.
    + eexists _, _. split; [reflexivity |]. cbn. lia.
    + contradiction.
    + eexists _, _. split; [reflexivity |].
      split; [now right | apply processing_detail_differs].
  - eexists _, _. split; [reflexivity |].
    split; [now right | apply processing_detail_differs].
Qed.

End WithFitz.
End UploadMore.
End UploadMore.

(** ** From the index to the context of the prompt *)

Module ContextMore.
Import Effects Schemas VectorStore StoreFacts StoreMore.

Section ContextMore.
Context {emb : Embedder} {eng : Engine}.

Lemma in_indexed_rows (document_id : string) (start : nat) (chunks : list string)
    (e : Entry) :
  In e (indexed_rows document_id start chunks) ->
  exists i chunk, e = indexed_row document_id i chunk.
Proof.
  unfold indexed_rows. intros Hin. apply in_map_iff in Hin.
  destruct Hin as [[i chunk] [<- _]]. eauto.
Qed.

Lemma indexed_row_no_page (document_id : string) (i : nat) (chunk : string) :
  entry_metadata (indexed_row document_id i chunk) !! "page" = None.
Proof.
  cbn [indexed_row entry_metadata].
  rewrite lookup_insert_ne by discriminate.
  now rewrite lookup_singleton_ne by discriminate.
Qed.

(** X26. The metadata [add_documents] stores holds no page, so the
    context built from the chunks of an uploaded document never has a
    [Source:] line: each chunk a search returns gives its [Context]
    header, its text and an empty line, whatever the page markers in the
    text.  With a positive [top_k] the search does return chunks. *)
Theorem context_without_source (rag : RAGService.RAGService)
    (document_id query : string) (chunks : list string) (top_k : Z) (st : State) :
  (forall q rows, Permutation (map fst (nearest q rows)) rows) ->
  wf st ->
  chroma st !! document_id = None ->
  name_error document_id = None ->
  chunks <> [] ->
  exists st1,
    RAGService.add_document rag document_id chunks st = (Ok tt, st1)
    /\ (0 < top_k ->
        exists result st2,
          search document_id query top_k st1 = (Ok result, st2) /\ result <> [])
    /\ forall result st2,
         search document_id query top_k st1 = (Ok result, st2) ->
         forall (i : nat) chunk,
           In chunk result ->
           GroqService.context_lines i chunk
           = ["[Context " +:+ pretty i +:+ "]"; chunk_content chunk; ""].
Proof.
  intros Hrank Hwf Hnone Hvalid Hne.
  destruct (add_documents_fresh document_id chunks st Hwf Hnone Hvalid Hne)
    as [st1 [Hadd [Hrows [_ [Hwf1 _]]]]].
  set (rows := indexed_rows document_id 0 chunks) in *.
  assert (Hrows_ne : rows <> []).
  { intros Hnil. apply Hne.
    rewrite <- (indexed_rows_documents document_id 0 chunks). fold rows.
    now rewrite Hnil. }
  exists st1. split; [exact Hadd |]. split.
  - intros Hk.
    destruct (search_indexed document_id query chunks top_k st1 Hwf1 Hk Hne Hrows)
      as [st2 [Hsearch _]].
    fold rows in Hsearch. eexists _, st2. split; [exact Hsearch |].
    intros Hnil. apply (f_equal (@length _)) in Hnil.
    unfold retrieved in Hnil. rewrite List.length_map, List.length_firstn in Hnil.
    rewrite <- (List.length_map fst (nearest (encode query) rows)) in Hnil.
    rewrite (Permutation_length (Hrank (encode query) rows)) in Hnil.
    destruct rows; [contradiction | cbn [length] in Hnil; lia].
  - intros result st2 Hsearch i chunk Hin.
    destruct (search_spec document_id query top_k st1 Hwf1 (or_introl (mk_is_Some _ _ Hrows)))
      as [st2' [c [Hcreate [Hc [_ Hsearch']]]]].
    destruct (create_collection_spec document_id st1 Hwf1
                (or_introl (mk_is_Some _ _ Hrows)))
      as [st2'' [Hcreate' [_ [_ Hdb]]]].
    rewrite Hcreate in Hcreate'. injection Hcreate' as <-.
    rewrite Hrows in Hdb. rewrite Hdb, Hrows in Hc. injection Hc as <-.
    cbn [coll_entries] in Hsearch'. fold rows in Hsearch'.
    rewrite Hsearch in Hsearch'. injection Hsearch' as Hfound _.
    symmetry in Hfound. apply answered_ok in Hfound.
    destruct Hfound as [_ [_ ->]].
    unfold retrieved in Hin.
    apply in_map_iff in Hin. destruct Hin as [hit [<- Hhit]].
    assert (Hall : In hit (nearest (encode query) rows)).
    { rewrite <- (List.firstn_skipn
                    (Z.to_nat (Z.min top_k (Z.of_nat (length rows))))
                    (nearest (encode query) rows)).
      apply in_or_app. now left. }
    assert (Hrow : In (fst hit) rows).
    { apply (Permutation_in _ (Hrank (encode query) _)). now apply in_map. }
    destruct (in_indexed_rows _ _ _ _ Hrow) as [j [text Hj]].
    unfold GroqService.context_lines.
    cbn [format_result chunk_metadata chunk_content].
    rewrite Hj, indexed_row_no_page. reflexivity.
Qed.

End ContextMore.
End ContextMore.

(** ** The services together *)

Module EndToEnd.
Import Effects Schemas VectorStore StoreFacts StoreMore GroqFacts ServiceMore.

Lemma lower_app (a b : string) :
  Endpoints.lower (a +:+ b) = Endpoints.lower a +:+ Endpoints.lower b.
Proof.
  induction a as [| c a IH]; [reflexivity |].
  rewrite PyFacts.str_app_cons. cbn [Endpoints.lower].
  now rewrite IH, PyFacts.str_app_cons.
Qed.

Lemma str_drop_app (a b : string) : Py.str_drop (String.length a) (a +:+ b) = b.
Proof.
  induction a as [| c a IH]; [now destruct b |].
  rewrite PyFacts.str_app_cons. cbn [String.length Py.str_drop]. exact IH.
Qed.

Lemma endswith_app (a b : string) : Endpoints.endswith (a +:+ b) b = true.
Proof.
  unfold Endpoints.endswith. rewrite PyFacts.strlen_app.
  replace (String.length a + String.length b - String.length b)%nat
    with (String.length a) by lia.
  rewrite str_drop_app, String.eqb_refl.
  destruct (Nat.leb_spec (String.length b) (String.length a + String.length b));
    [reflexivity | lia].
Qed.

(** X27. The test of the file type looks at the extension only and
    ignores the case of its letters: any name that ends in [.pdf],
    [.PDF], [.Pdf], ... passes it. *)
Theorem pdf_name_any_case (stem extension : string) :
  Endpoints.lower extension = ".pdf" ->
  Py.truthy (stem +:+ extension)
  && Endpoints.endswith (Endpoints.lower (stem +:+ extension)) ".pdf" = true.
Proof.
  intros Hext. rewrite lower_app, Hext, endswith_app, andb_true_r.
  apply PyFacts.truthy_true, PyFacts.str_app_nonempty_r.
  intros ->. discriminate.
Qed.

Lemma pdf_name_any_case_witness :
  Endpoints.lower ".PdF" = ".pdf"
  /\ Py.truthy ("Vaswani 2017" +:+ ".PdF")
     && Endpoints.endswith (Endpoints.lower ("Vaswani 2017" +:+ ".PdF")) ".pdf" = true.
Proof.
  split; [reflexivity |].
  exact (pdf_name_any_case "Vaswani 2017" ".PdF" eq_refl).
Defined.

Section EndToEnd.
Context {emb : Embedder} {eng : Engine} {llm : LLM}.

(** X28. The invariant of the store.  Whatever the RAG service is asked
    to do, every collection object it keeps afterwards is filed under
    the name of its collection, and that collection exists: indexing,
    querying and deleting keep it. *)
Theorem rag_service_keeps_store_wf (self : RAGService.RAGService)
    (document_id question : string) (chunks : list string)
    (explanation_level : ExplanationLevel) (chat_history : option (list ChatMessage))
    (st : State) :
  wf st ->
  wf (snd (RAGService.add_document self document_id chunks st))
  /\ wf (snd (RAGService.query self document_id question explanation_level
                chat_history st))
  /\ wf (snd (RAGService.delete_document self document_id st)).
Proof.
  intros Hwf. split; [| split].
  - now apply add_documents_wf.
  - now apply RagFacts.query_wf.
  - now apply delete_document_wf.
Qed.

(** X29. Index, then ask.  When the engine accepts the id, ranks the
    rows it holds, and the primary model replies, a query on a freshly
    indexed document sends one request, built from the question and the
    chunks the search retrieved, and returns the reply to that request
    as the answer, with [min(3, top_k, n)] sources, each the first 200
    characters of one of the [n] indexed chunks followed by three
    dots. *)
Theorem index_then_query (self : RAGService.RAGService)
    (document_id question : string) (chunks : list string)
    (explanation_level : ExplanationLevel) (chat_history : option (list ChatMessage))
    (st : State) (reply : list Call -> Call -> string) :
  (forall q rows, Permutation (map fst (nearest q rows)) rows) ->
  (forall log call,
     call_model call = "llama-3.3-70b-versatile" ->
     complete log call = Ok (reply log call)) ->
  0 < RAGService.top_k self ->
  wf st ->
  chroma st !! document_id = None ->
  name_error document_id = None ->
  chunks <> [] ->
  exists st1 found st2 st3,
    RAGService.add_document self document_id chunks st = (Ok tt, st1)
    /\ search document_id question (RAGService.top_k self) st1 = (Ok found, st2)
    /\ let primary :=
         GroqService.request "llama-3.3-70b-versatile"
           (GroqService.build_messages question found explanation_level
              (RAGService.history_dict chat_history)) in
       let sources :=
         map (fun chunk => Py.slice_to 200 (chunk_content chunk) +:+ "...")
             (firstn 3 found) in
       RAGService.query self document_id question explanation_level chat_history st1
       = (Ok {| RAGService.answer := reply (llm_log st) primary;
                RAGService.sources := sources |}, st3)
       /\ llm_log st3 = llm_log st ++ [primary]
       /\ length sources
          = Nat.min 3 (Nat.min (Z.to_nat (RAGService.top_k self)) (length chunks))
       /\ Forall (fun s => exists chunk,
                     In chunk chunks /\ s = Py.slice_to 200 chunk +:+ "...") sources.
Proof.
  intros Hrank Hup Hk Hwf Hnone Hvalid Hne.
  destruct (add_documents_fresh document_id chunks st Hwf Hnone Hvalid Hne)
    as [st1 [Hadd [Hrows [_ [Hwf1 Hlog1]]]]].
  destruct (search_indexed document_id question chunks (RAGService.top_k self) st1
              Hwf1 Hk Hne Hrows) as [st2 [Hsearch [_ Hlog2]]].
  set (rows := indexed_rows document_id 0 chunks) in *.
  pose proof (Hrank (encode question) rows) as Hperm.
  assert (Hlen : length (retrieved question (RAGService.top_k self) rows)
                 = Nat.min (Z.to_nat (RAGService.top_k self)) (length chunks)).
  { unfold retrieved. rewrite List.length_map, List.length_firstn.
    rewrite <- (List.length_map fst), (Permutation_length Hperm).
    subst rows. rewrite indexed_rows_length. lia. }
  assert (Hfrom : Forall (fun r => In (chunk_content r) chunks)
                         (retrieved question (RAGService.top_k self) rows)).
  { unfold retrieved. apply List.Forall_forall. intros r Hr.
    apply in_map_iff in Hr. destruct Hr as [hit [<- Hhit]].
    assert (Hall : In hit (nearest (encode question) rows)).
    { rewrite <- (List.firstn_skipn
                    (Z.to_nat (Z.min (RAGService.top_k self) (Z.of_nat (length rows))))
                    (nearest (encode question) rows)).
      apply in_or_app. now left. }
    assert (Hin : In (fst hit) rows).
    { apply (Permutation_in _ Hperm). now apply in_map. }
    cbn [format_result chunk_content].
    rewrite <- (indexed_rows_documents document_id 0 chunks). now apply in_map. }
  pose proof (RagFacts.query_of_search self _ _ explanation_level chat_history
                _ _ _ Hsearch) as Hquery.
  set (found := retrieved question (RAGService.top_k self) rows) in *.
  set (h := RAGService.history_dict chat_history) in *.
  set (primary := GroqService.request GroqService.model
                    (GroqService.build_messages question found explanation_level h)).
  assert (Ha : complete (llm_log st2) primary = Ok (reply (llm_log st) primary)).
  { rewrite Hlog2, Hlog1. now apply Hup. }
  assert (Hfound : found <> []).
  { intros Hnil. rewrite Hnil in Hlen. cbn [length] in Hlen.
    destruct chunks; [contradiction | cbn [length] in Hlen; lia]. }
  destruct found as [| r rs] eqn:Er; [contradiction |].
  rewrite (generate_answer_primary question (r :: rs) explanation_level h st2 _ Ha)
    in Hquery.
  eexists st1, (r :: rs), st2, _.
  split; [exact Hadd |]. split; [exact Hsearch |]. cbv zeta.
  split; [exact Hquery |].
  split; [cbn [llm_log logged]; now rewrite Hlog2, Hlog1 |].
  split.
  - rewrite List.length_map, List.length_firstn, Hlen. reflexivity.
  - apply List.Forall_forall. intros s Hs. apply in_map_iff in Hs.
    destruct Hs as [chunk [<- Hchunk]].
    assert (Hin : In chunk (r :: rs)).
    { rewrite <- (List.firstn_skipn 3 (r :: rs)). apply in_or_app. now left. }
    exists (chunk_content chunk). split; [| reflexivity].
    exact (proj1 (List.Forall_forall _ _) Hfrom chunk Hin).
Qed.

End EndToEnd.
End EndToEnd.

(** ** The further properties on concrete collaborators *)

Module MoreDemo.
Import Effects Schemas StoreFacts Demo.

(** A scanned paper: three pages, no text on any. *)
Definition fitz_scan : PDFText.Fitz :=
  {| PDFText.fitz_open := fun _ => Ok ["  "; ""; String Py.nl ""] |}.

(** A paper whose second page alone holds text. *)
Definition fitz_paper : PDFText.Fitz :=
  {| PDFText.fitz_open := fun _ => Ok [" "; "Attention is all you need."; ""] |}.

(** A provider both of whose models are down. *)
Definition llm_down : LLM :=
  {| complete := fun _ _ => Raise (Error "service unavailable") |}.

(** An extraction that finds one page of text. *)
Definition extractor_text : Endpoints.Extractor :=
  {| Endpoints.extract_text := fun _ => Ok ("Attention is all you need.", 1) |}.

Definition paper : Endpoints.UploadFile :=
  {| Endpoints.file_name := Some "paper.pdf"; Endpoints.file_content := "%PDF-1.7" |}.

Lemma demo_engine_ranks :
  forall (q : embedding (Embedder := embedder)) (rows : list (Entry (H := embedder))),
    Permutation (map fst (nearest (Engine := engine) q rows)) rows.
Proof.
  intros q rows. cbn [nearest engine]. rewrite List.map_map. cbn [fst].
  now rewrite List.map_id.
Qed.

Lemma paper_size : Py.len (Endpoints.file_content paper) <= Endpoints.MAX_FILE_SIZE.
Proof. vm_compute. discriminate. Qed.

Lemma extract_text_blank_iff_witness :
  PDFText.fitz_open (Fitz := fitz_scan) "%PDF-1.7" = Ok ["  "; ""; String Py.nl ""]
  /\ PDFText.extract_text (H := fitz_scan) "%PDF-1.7" = Ok ("", 3).
Proof.
  split; [reflexivity |].
  destruct (PDFMore.extract_text_blank_iff (H := fitz_scan) "%PDF-1.7"
              ["  "; ""; String Py.nl ""] eq_refl) as [text [Hx [Hiff Hempty]]].
  rewrite Hx. rewrite (Hempty (proj2 Hiff eq_refl)). reflexivity.
Defined.

Lemma extract_text_page_number_witness :
  PDFText.fitz_open (Fitz := fitz_paper) "%PDF-1.7"
  = Ok ([" "] ++ "Attention is all you need." :: [""])
  /\ forallb PyFacts.all_space [" "] = true
  /\ forallb PyFacts.all_space [""] = true
  /\ PyFacts.all_space "Attention is all you need." = false
  /\ PDFText.extract_text (H := fitz_paper) "%PDF-1.7"
     = Ok ("[Page 2]" +:+ String Py.nl "Attention is all you need.", 3).
Proof.
  split; [reflexivity |]. split; [reflexivity |]. split; [reflexivity |].
  split; [reflexivity |].
  exact (PDFMore.extract_text_page_number (H := fitz_paper) "%PDF-1.7"
           "Attention is all you need." [" "] [""] eq_refl eq_refl eq_refl eq_refl).
Defined.

Lemma demo_names :
  name_error (Engine := engine) "doc-1" = None
  /\ name_error (Engine := engine) "uuid-7" = None
  /\ name_error (Engine := engine) "123e4567-e89b-42d3-a456-426614174000" = None
  /\ is_Some (name_error (Engine := engine) "my paper").
Proof. repeat split; vm_compute; eauto. Qed.

(** An id with a space, as the chat and delete routes can receive it:
    the engine refuses it, and nothing is indexed under it. *)
Lemma add_documents_refused_name :
  exists msg,
    VectorStore.add_documents (eng := engine) "my paper"
      ["Attention is all you need."] None st_empty
    = (Raise (Error msg), st_empty).
Proof.
  assert (Hbad : exists msg, name_error (Engine := engine) "my paper" = Some msg)
    by (vm_compute; eauto).
  destruct Hbad as [msg Hmsg]. exists msg.
  apply (StoreMore.add_documents_refused (eng := engine)); try assumption.
  - exact wf_st_empty.
  - reflexivity.
  - discriminate.
Qed.

Lemma create_collection_get_or_create_witness :
  wf st_empty
  /\ opens (eng := engine) "doc-1" st_empty
  /\ chroma st_empty !! "my paper" = None
  /\ (exists st',
        VectorStore.create_collection (eng := engine) "doc-1" st_empty
        = (Ok {| handle_name := "doc-1" |}, st')
        /\ chroma st' !! "doc-1"
           = Some {| coll_metadata := {[ "document_id" := "doc-1" ]};
                     coll_entries := [] |}
        /\ VectorStore.create_collection (eng := engine) "doc-1" st'
           = (Ok {| handle_name := "doc-1" |}, st'))
  /\ exists msg,
       VectorStore.create_collection (eng := engine) "my paper" st_empty
       = (Raise (Error msg), st_empty).
Proof.
  assert (Hopen : opens (eng := engine) "doc-1" st_empty)
    by (right; vm_compute; reflexivity).
  assert (Hbad : exists msg, name_error (Engine := engine) "my paper" = Some msg)
    by (vm_compute; eauto).
  split; [exact wf_st_empty |]. split; [exact Hopen |]. split; [reflexivity |].
  destruct (StoreMore.create_collection_get_or_create (eng := engine) "doc-1"
              st_empty wf_st_empty) as [Hheld _].
  destruct (StoreMore.create_collection_get_or_create (eng := engine) "my paper"
              st_empty wf_st_empty) as [_ Hrefused].
  split.
  - destruct (Hheld Hopen) as [st' [Hcreate [Hdb [_ Hagain]]]].
    exists st'. split; [exact Hcreate |]. split; [| exact Hagain].
    rewrite Hdb. cbn. apply lookup_insert_eq.
  - destruct Hbad as [msg Hmsg]. exists msg. exact (Hrefused msg eq_refl Hmsg).
Defined.

Lemma add_documents_round_trip_witness :
  wf st_empty
  /\ chroma st_empty !! "doc-1" = None
  /\ name_error (Engine := engine) "doc-1" = None
  /\ ["Transformers use attention."; "Attention is all you need."] <> []
  /\ exists st' (rows : list (@Entry embedder)),
       VectorStore.add_documents (eng := engine) "doc-1"
         ["Transformers use attention."; "Attention is all you need."] None st_empty
       = (Ok tt, st')
       /\ map entry_document rows
          = ["Transformers use attention."; "Attention is all you need."]
       /\ map entry_id rows = ["doc-1_chunk_0"; "doc-1_chunk_1"].
Proof.
  assert (Hne : ["Transformers use attention."; "Attention is all you need."] <> [])
    by discriminate.
  split; [exact wf_st_empty |]. split; [reflexivity |].
  split; [exact (proj1 demo_names) |]. split; [exact Hne |].
  destruct (StoreMore.add_documents_round_trip (eng := engine) "doc-1"
              ["Transformers use attention."; "Attention is all you need."] st_empty
              wf_st_empty eq_refl (proj1 demo_names) Hne)
    as [st' [rows [Hadd [_ [Hdocs [_ [Hids _]]]]]]].
  exists st', rows. split; [exact Hadd |]. split; [exact Hdocs | exact Hids].
Defined.

Lemma add_documents_keeps_stored_rows_witness :
  wf st_empty
  /\ chroma st_empty !! "doc-1" = None
  /\ name_error (Engine := engine) "doc-1" = None
  /\ ["Transformers use attention."; "Attention is all you need."] <> []
  /\ exists st2 : @State embedder,
       VectorStore.add_documents (eng := engine) "doc-1"
         ["A revised first chunk."; "A revised second chunk."; "A third chunk."]
         None st_indexed = (Ok tt, st2)
       /\ (map (@entry_document embedder)
            <$> (@coll_entries embedder <$> chroma st2 !! "doc-1"))
          = Some ["Transformers use attention."; "Attention is all you need.";
                  "A third chunk."].
Proof.
  assert (Hne : ["Transformers use attention."; "Attention is all you need."] <> [])
    by discriminate.
  split; [exact wf_st_empty |]. split; [reflexivity |].
  split; [exact (proj1 demo_names) |]. split; [exact Hne |].
  destruct (StoreMore.add_documents_keeps_stored_rows (eng := engine) "doc-1"
              ["Transformers use attention."; "Attention is all you need."]
              ["A revised first chunk."; "A revised second chunk."; "A third chunk."]
              st_empty wf_st_empty eq_refl (proj1 demo_names) Hne)
    as [st1 [st2 [Hadd [Hadd2 [_ [Hdocs _]]]]]].
  exists st2. split; [| exact Hdocs].
  assert (Hst : st_indexed = st1).
  { change st_indexed
      with (snd (VectorStore.add_documents (eng := engine) "doc-1"
                   ["Transformers use attention."; "Attention is all you need."]
                   None st_empty)).
    now rewrite Hadd. }
  rewrite Hst. exact Hadd2.
Defined.

Lemma store_operations_isolated_witness :
  wf st_indexed
  /\ "doc-1" <> "doc-2"
  /\ chroma (snd (VectorStore.delete_document "doc-2" st_indexed)) !! "doc-1"
     = chroma st_indexed !! "doc-1".
Proof.
  assert (Hne : "doc-1" <> "doc-2") by discriminate.
  split; [exact wf_st_indexed |]. split; [exact Hne |].
  exact (proj2 (proj2 (StoreMore.store_operations_isolated (eng := engine)
                         "doc-2" "doc-1" "what" ["x"] None 5 st_indexed
                         wf_st_indexed Hne))).
Defined.

Lemma search_stable_witness :
  wf st_indexed
  /\ VectorStore.search (eng := engine) "doc-1" "what" 5 st_indexed
     = (Ok demo_chunks, st_searched)
  /\ VectorStore.search (eng := engine) "doc-1" "what" 5 st_searched
     = (Ok demo_chunks, st_searched).
Proof.
  split; [exact wf_st_indexed |]. split; [exact demo_search |].
  exact (proj2 (StoreMore.search_stable (eng := engine) "doc-1" "what" 5 st_indexed
                  st_searched (Ok demo_chunks) wf_st_indexed demo_search)).
Defined.

Lemma delete_document_twice_witness :
  wf st_indexed
  /\ is_Some (chroma st_indexed !! "doc-1")
  /\ exists st',
       VectorStore.delete_document "doc-1" st_indexed = (Ok true, st')
       /\ VectorStore.delete_document "doc-1" st' = (Ok false, st').
Proof.
  assert (Hsome : is_Some (chroma st_indexed !! "doc-1")) by (vm_compute; eauto).
  split; [exact wf_st_indexed |]. split; [exact Hsome |].
  exact (StoreMore.delete_document_twice (emb := embedder) "doc-1" st_indexed
           wf_st_indexed Hsome).
Defined.

Lemma demo_search_one :
  VectorStore.search (eng := engine) "doc-1" "what" 1 st_indexed
  = (Ok [demo_chunk "Transformers use attention." 0], st_searched).
Proof. vm_compute. reflexivity. Qed.

Lemma search_result_bounded_witness :
  wf st_indexed
  /\ VectorStore.search (eng := engine) "doc-1" "what" 1 st_indexed
     = (Ok [demo_chunk "Transformers use attention." 0], st_searched)
  /\ (length [demo_chunk "Transformers use attention." 0] <= Z.to_nat 1)%nat.
Proof.
  split; [exact wf_st_indexed |]. split; [exact demo_search_one |].
  exact (proj1 (StoreMore.search_result_bounded (eng := engine) "doc-1" "what" 1
                  st_indexed st_searched _ wf_st_indexed demo_search_one)).
Defined.

Lemma index_then_search_witness :
  0 < 5
  /\ wf st_empty
  /\ chroma st_empty !! "doc-1" = None
  /\ name_error (Engine := engine) "doc-1" = None
  /\ exists st1 result st2,
       VectorStore.add_documents (eng := engine) "doc-1"
         ["Transformers use attention."; "Attention is all you need."] None st_empty
       = (Ok tt, st1)
       /\ VectorStore.search (eng := engine) "doc-1" "what" 5 st1 = (Ok result, st2)
       /\ length result = 2%nat.
Proof.
  assert (Hne : ["Transformers use attention."; "Attention is all you need."] <> [])
    by discriminate.
  split; [lia |]. split; [exact wf_st_empty |]. split; [reflexivity |].
  split; [exact (proj1 demo_names) |].
  destruct (StoreMore.index_then_search (eng := engine) "doc-1" "what"
              ["Transformers use attention."; "Attention is all you need."] 5 st_empty
              demo_engine_ranks ltac:(lia) wf_st_empty eq_refl (proj1 demo_names) Hne)
    as [st1 [result [st2 [Hadd [Hs [Hlen _]]]]]].
  exists st1, result, st2. split; [exact Hadd |]. split; [exact Hs | exact Hlen].
Defined.

Lemma context_without_source_witness :
  wf st_empty
  /\ chroma st_empty !! "doc-1" = None
  /\ name_error (Engine := engine) "doc-1" = None
  /\ exists st1 result st2,
       RAGService.add_document (eng := engine) rag "doc-1"
         ["[Page 1]"; "Attention is all you need."] st_empty = (Ok tt, st1)
       /\ VectorStore.search (eng := engine) "doc-1" "what" 5 st1 = (Ok result, st2)
       /\ result <> []
       /\ forall (i : nat) chunk,
            In chunk result ->
            GroqService.context_lines i chunk
            = ["[Context " +:+ pretty i +:+ "]"; VectorStore.chunk_content chunk; ""].
Proof.
  assert (Hne : ["[Page 1]"; "Attention is all you need."] <> []) by discriminate.
  split; [exact wf_st_empty |]. split; [reflexivity |].
  split; [exact (proj1 demo_names) |].
  destruct (ContextMore.context_without_source (eng := engine) rag "doc-1" "what"
              ["[Page 1]"; "Attention is all you need."] 5 st_empty
              demo_engine_ranks wf_st_empty eq_refl (proj1 demo_names) Hne)
    as [st1 [Hadd [Hsome Hlines]]].
  destruct (Hsome ltac:(lia)) as [result [st2 [Hs Hres]]].
  exists st1, result, st2. split; [exact Hadd |]. split; [exact Hs |].
  split; [exact Hres | exact (Hlines result st2 Hs)].
Defined.





Lemma chat_rejects_empty_input_witness :
  PyFacts.all_space "   " = true
  /\ exists detail,
       Endpoints.chat (eng := engine) (llm := llm_up) (Some rag)
         {| req_document_id := "doc-1"; req_question := "   ";
            req_explanation_level := STUDENT; req_chat_history := None |} st_indexed
       = (Raise (HTTPException 400 detail), st_indexed).
Proof.
  split; [reflexivity |].
  exact (ServiceMore.chat_rejects_empty_input (eng := engine) (llm := llm_up) rag
           {| req_document_id := "doc-1"; req_question := "   ";
              req_explanation_level := STUDENT; req_chat_history := None |}
           st_indexed (or_introl eq_refl)).
Defined.


Lemma upload_indexes_chunks_witness :
  Endpoints.file_name paper = Some "paper.pdf"
  /\ Py.len (Endpoints.file_content paper) <= Endpoints.MAX_FILE_SIZE
  /\ Endpoints.extract_text (Extractor := extractor_text) (Endpoints.file_content paper)
     = Ok ("Attention is all you need.", 1)
  /\ wf st_empty
  /\ chroma st_empty !! "uuid-7" = None
  /\ name_error (Engine := engine) "uuid-7" = None
  /\ exists st' (rows : list (@Entry embedder)),
       fst (Endpoints.upload_document (eng := engine) (ext := extractor_text)
              (Some PDFProcessor.Build_PDFProcessor) (Some rag) paper "uuid-7" st_empty)
       = Ok {| document_id := "uuid-7"; filename := "paper.pdf"; pages := 1;
               chunks := 1; message := "Document processed successfully" |}
       /\ (coll_entries <$> chroma st' !! "uuid-7") = Some rows
       /\ map entry_document rows = ["Attention is all you need."].
Proof.
  split; [reflexivity |]. split; [exact paper_size |]. split; [reflexivity |].
  split; [exact wf_st_empty |]. split; [reflexivity |].
  split; [exact (proj1 (proj2 demo_names)) |].
  destruct (UploadMore.upload_indexes_chunks (eng := engine) (ext := extractor_text)
              PDFProcessor.Build_PDFProcessor rag paper "paper.pdf" "uuid-7"
              "Attention is all you need." 1 st_empty
              eq_refl eq_refl paper_size eq_refl eq_refl wf_st_empty eq_refl
              (proj1 (proj2 demo_names)))
    as [st' [rows [Hup [_ [Hrows Hdocs]]]]].
  exists st', rows. rewrite Hup. split; [reflexivity |].
  split; [exact Hrows | exact Hdocs].
Defined.

Lemma upload_rejects_wrong_file_witness :
  Py.truthy "notes.txt" && Endpoints.endswith (Endpoints.lower "notes.txt") ".pdf"
  = false
  /\ exists detail,
       Endpoints.upload_document (eng := engine) (ext := extractor_text)
         (Some PDFProcessor.Build_PDFProcessor) (Some rag)
         {| Endpoints.file_name := Some "notes.txt";
            Endpoints.file_content := "plain text" |} "uuid-8" st_empty
       = (Raise (HTTPException 400 detail), st_empty).
Proof.
  split; [reflexivity |].
  exact (UploadMore.upload_rejects_wrong_file (eng := engine) (ext := extractor_text)
           PDFProcessor.Build_PDFProcessor rag
           {| Endpoints.file_name := Some "notes.txt";
              Endpoints.file_content := "plain text" |} "uuid-8" st_empty
           (or_introl eq_refl)).
Defined.

Lemma upload_without_text_witness :
  Endpoints.file_name paper = Some "paper.pdf"
  /\ Py.len (Endpoints.file_content paper) <= Endpoints.MAX_FILE_SIZE
  /\ PDFText.fitz_open (Fitz := fitz_scan) (Endpoints.file_content paper)
     = Ok ["  "; ""; String Py.nl ""]
  /\ Endpoints.upload_document (eng := engine)
       (ext := UploadMore.pdf_extractor (H := fitz_scan))
       (Some PDFProcessor.Build_PDFProcessor) (Some rag) paper "uuid-9" st_empty
     = (Raise (HTTPException 400
                 "Could not extract text from PDF. Please ensure the PDF contains readable text."),
        st_empty).
Proof.
  split; [reflexivity |]. split; [exact paper_size |]. split; [reflexivity |].
  exact (proj1 (UploadMore.upload_without_text (eng := engine) (fitz := fitz_scan)
                  PDFProcessor.Build_PDFProcessor rag paper "paper.pdf" "uuid-9"
                  st_empty eq_refl eq_refl paper_size)
           ["  "; ""; String Py.nl ""] eq_refl eq_refl).
Defined.

Lemma rag_service_keeps_store_wf_witness :
  wf st_indexed
  /\ wf (snd (RAGService.query (eng := engine) (llm := llm_down) rag "doc-2" "what"
                STUDENT None st_indexed))
  /\ wf (snd (RAGService.delete_document rag "doc-2" st_indexed)).
Proof.
  split; [exact wf_st_indexed |].
  exact (proj2 (EndToEnd.rag_service_keeps_store_wf (eng := engine) (llm := llm_down)
                  rag "doc-2" "what" ["x"] STUDENT None st_indexed wf_st_indexed)).
Defined.

Lemma index_then_query_witness :
  0 < RAGService.top_k rag
  /\ wf st_empty
  /\ chroma st_empty !! "doc-1" = None
  /\ name_error (Engine := engine) "doc-1" = None
  /\ exists st1 sources st3,
       RAGService.add_document (eng := engine) rag "doc-1"
         ["Transformers use attention."; "Attention is all you need."] st_empty
       = (Ok tt, st1)
       /\ RAGService.query (eng := engine) (llm := llm_up) rag "doc-1" "what" BEGINNER
            None st1
          = (Ok {| RAGService.answer := "An answer."; RAGService.sources := sources |},
             st3)
       /\ length (llm_log st3) = 1%nat
       /\ length sources = 2%nat.
Proof.
  assert (Hne : ["Transformers use attention."; "Attention is all you need."] <> [])
    by discriminate.
  assert (Hk : 0 < RAGService.top_k rag) by (cbn; lia).
  split; [exact Hk |]. split; [exact wf_st_empty |]. split; [reflexivity |].
  split; [exact (proj1 demo_names) |].
  destruct (EndToEnd.index_then_query (eng := engine) (llm := llm_up) rag "doc-1"
              "what" ["Transformers use attention."; "Attention is all you need."]
              BEGINNER None st_empty (fun _ _ => "An answer.") demo_engine_ranks
              (fun _ _ _ => eq_refl) Hk wf_st_empty eq_refl (proj1 demo_names) Hne)
    as [st1 [found [st2 [st3 [Hadd [_ [Hq [Hlog [Hlen _]]]]]]]]].
  eexists st1, _, st3. split; [exact Hadd |]. split; [exact Hq |].
  split; [rewrite Hlog; reflexivity | exact Hlen].
Defined.

End MoreDemo.
